(** * Resume extractor: the heuristic field extractors, section segmenters
      and schema pipeline of [resume_parser/nlp.py], [resume_parser/schema.py]
      and [app1.py], as a shallow embedding.

    Python [str] values are modelled as [string] over the code points
    0..255 (Latin-1); the classification Python gives those code points
    ([str.isspace], [str.lower], the [re] classes) is written out below.
    Python dictionaries are [gmap string _]; subscripting a missing key raises
    [KeyError], which the state-and-error monad [M] keeps explicit. *)

From Stdlib Require Import Ascii String NArith Bool Lia.
From stdpp Require Import base option list gmap strings sorting.

Local Open Scope list_scope.
Local Open Scope string_scope.

(** ** Characters *)

Module Chr.

Definition code (c : ascii) : N := N_of_ascii c.

Definition between (lo hi : N) (c : ascii) : bool :=
  ((lo <=? code c) && (code c <=? hi))%N.

Definition has_code (n : N) (c : ascii) : bool := (code c =? n)%N.

Definition one_of (s : string) (c : ascii) : bool :=
  existsb (Ascii.eqb c) (list_ascii_of_string s).

(** [str.isspace] and the [\s] class of [re] on a [str] pattern. *)
Definition isspace (c : ascii) : bool :=
  between 9 13 c || between 28 32 c || has_code 133 c || has_code 160 c.

(** The characters [str.splitlines] breaks a line at. *)
Definition islinebreak (c : ascii) : bool :=
  between 10 13 c || between 28 30 c || has_code 133 c.

(** The [\d] class ([\D] is its complement). *)
Definition isdigit (c : ascii) : bool := between 48 57 c.

Definition isupper (c : ascii) : bool :=
  between 65 90 c || between 192 214 c || between 216 222 c.

Definition islower (c : ascii) : bool :=
  between 97 122 c || has_code 170 c || has_code 181 c || has_code 186 c
  || between 223 246 c || between 248 255 c.

Definition isalpha (c : ascii) : bool :=
  between 65 90 c || between 97 122 c || has_code 170 c || has_code 181 c || has_code 186 c
  || between 192 214 c || between 216 246 c || between 248 255 c.

(** The [\w] class: alphanumeric or underscore. *)
Definition isword (c : ascii) : bool :=
  isalpha c || isdigit c || has_code 95 c
  || between 178 179 c || has_code 185 c || between 188 190 c.

(** ASCII letters, the class [[A-Za-z]]. *)
Definition isletter (c : ascii) : bool := between 65 90 c || between 97 122 c.

Definition lower (c : ascii) : ascii :=
  if isupper c then ascii_of_N (code c + 32) else c.

End Chr.

(** ** Python string methods *)

Module Str.

Definition nl : string := String (ascii_of_N 10) "".
Definition tab : string := String (ascii_of_N 9) "".

Definition is_empty (s : string) : bool :=
  match s with EmptyString => true | String _ _ => false end.

Fixpoint str_map (f : ascii -> ascii) (s : string) : string :=
  match s with
  | EmptyString => EmptyString
  | String c s' => String (f c) (str_map f s')
  end.

Fixpoint str_filter (p : ascii -> bool) (s : string) : string :=
  match s with
  | EmptyString => EmptyString
  | String c s' => if p c then String c (str_filter p s') else str_filter p s'
  end.

Fixpoint str_exists (p : ascii -> bool) (s : string) : bool :=
  match s with
  | EmptyString => false
  | String c s' => p c || str_exists p s'
  end.

Fixpoint str_forall (p : ascii -> bool) (s : string) : bool :=
  match s with
  | EmptyString => true
  | String c s' => p c && str_forall p s'
  end.

(** [s.lower()] *)
Definition lower (s : string) : string := str_map Chr.lower s.

(** [s.isupper()]: at least one cased character, and no lowercase one. *)
Definition isupper (s : string) : bool :=
  str_exists Chr.isupper s && negb (str_exists Chr.islower s).

Fixpoint lstrip_of (p : ascii -> bool) (s : string) : string :=
  match s with
  | EmptyString => EmptyString
  | String c s' => if p c then lstrip_of p s' else s
  end.

Fixpoint rstrip_of (p : ascii -> bool) (s : string) : string :=
  match s with
  | EmptyString => EmptyString
  | String c s' =>
      let r := rstrip_of p s' in
      if is_empty r && p c then EmptyString else String c r
  end.

(** [s.strip(chars)] for the set of characters [p]. *)
Definition strip_of (p : ascii -> bool) (s : string) : string :=
  rstrip_of p (lstrip_of p s).

(** [s.strip()] *)
Definition strip (s : string) : string := strip_of Chr.isspace s.

(** [s.splitlines()]: a line ends at each line-break character, a carriage
    return directly followed by a line feed counts once, and no empty last
    line is produced.  [cur] is the line read so far, [after_cr] tells that
    the character before was a carriage return. *)
Fixpoint splitlines_from (after_cr : bool) (cur : string) (s : string) : list string :=
  match s with
  | EmptyString => if is_empty cur then [] else [cur]
  | String c s' =>
      if after_cr && Chr.has_code 10 c then splitlines_from false cur s'
      else if Chr.islinebreak c then cur :: splitlines_from (Chr.has_code 13 c) "" s'
      else splitlines_from false (cur ++ String c "") s'
  end.

Definition splitlines (s : string) : list string := splitlines_from false "" s.

(** [s.split()]: the maximal runs of non-whitespace characters. *)
Fixpoint split_from (cur : string) (s : string) : list string :=
  match s with
  | EmptyString => if is_empty cur then [] else [cur]
  | String c s' =>
      if Chr.isspace c
      then (if is_empty cur then split_from "" s' else cur :: split_from "" s')
      else split_from (cur ++ String c "") s'
  end.

Definition split (s : string) : list string := split_from "" s.

(** [sep.join(l)] *)
Fixpoint join (sep : string) (l : list string) : string :=
  match l with
  | [] => ""
  | [x] => x
  | x :: rest => x ++ sep ++ join sep rest
  end.

(** [sub in s] *)
Fixpoint contains (sub s : string) : bool :=
  String.prefix sub s ||
  match s with
  | EmptyString => false
  | String _ s' => contains sub s'
  end.

(** [l[i:j]] on a list *)
Definition slice {A} (l : list A) (i j : nat) : list A := take (j - i) (drop i l).

End Str.

(** ** Regular expressions

    The patterns of the program, as syntax trees, and the backtracking
    matcher of Python's [re] for them: alternatives left to right, greedy
    repetition that gives back one character at a time, numbered groups.
    Every repetition in the program's patterns is over a single character
    class ([Rep]); [Opt] is the greedy [?] on any sub-pattern. *)

Module Re.

Inductive regex :=
| Eps
| Chr1 (p : ascii -> bool)
| Seq (r1 r2 : regex)
| Alt (r1 r2 : regex)
| Opt (r : regex)
| Rep (p : ascii -> bool) (lo : nat) (hi : option nat)
| Grp (n : nat) (r : regex)
| Bol
| Eol
| WordB.

(** A position in the subject: its index, the character before it, the
    text from it on, and the spans of the groups closed so far. *)
Record mstate := MState {
  m_pos : nat;
  m_prev : option ascii;
  m_rest : string;
  m_caps : list (nat * (nat * nat))
}.

Definition cont := mstate -> option mstate.

Definition more_allowed (hi : option nat) : bool :=
  match hi with Some 0 => false | _ => true end.

Fixpoint rep_greedy (p : ascii -> bool) (lo : nat) (hi : option nat)
    (pos : nat) (prev : option ascii) (rest : string)
    (caps : list (nat * (nat * nat))) (k : cont) {struct rest} : option mstate :=
  let stop := match lo with 0 => k (MState pos prev rest caps) | S _ => None end in
  match rest with
  | String c rest' =>
      if p c && more_allowed hi then
        match rep_greedy p (pred lo) (pred <$> hi) (S pos) (Some c) rest' caps k with
        | Some r => Some r
        | None => stop
        end
      else stop
  | EmptyString => stop
  end.

Definition word_before (st : mstate) : bool :=
  match m_prev st with Some c => Chr.isword c | None => false end.

Definition word_after (st : mstate) : bool :=
  match m_rest st with String c _ => Chr.isword c | EmptyString => false end.

(** [$] without [re.MULTILINE]: the end, or just before a final line feed. *)
Definition at_eol (st : mstate) : bool :=
  match m_rest st with
  | EmptyString => true
  | String c EmptyString => Chr.has_code 10 c
  | _ => false
  end.

Fixpoint rmatch (r : regex) (st : mstate) (k : cont) : option mstate :=
  match r with
  | Eps => k st
  | Chr1 p =>
      match m_rest st with
      | String c rest' =>
          if p c then k (MState (S (m_pos st)) (Some c) rest' (m_caps st)) else None
      | EmptyString => None
      end
  | Seq r1 r2 => rmatch r1 st (fun st' => rmatch r2 st' k)
  | Alt r1 r2 =>
      match rmatch r1 st k with
      | Some res => Some res
      | None => rmatch r2 st k
      end
  | Opt r1 =>
      match rmatch r1 st k with
      | Some res => Some res
      | None => k st
      end
  | Rep p lo hi => rep_greedy p lo hi (m_pos st) (m_prev st) (m_rest st) (m_caps st) k
  | Grp n r1 =>
      rmatch r1 st (fun st' =>
        k (MState (m_pos st') (m_prev st') (m_rest st')
                  ((n, (m_pos st, m_pos st')) :: m_caps st')))
  | Bol => if Nat.eqb (m_pos st) 0 then k st else None
  | Eol => if at_eol st then k st else None
  | WordB => if xorb (word_before st) (word_after st) then k st else None
  end.

(** A match object: where it starts, where it ends, its groups. *)
Record rmatch_obj := Match {
  mo_start : nat;
  mo_end : nat;
  mo_caps : list (nat * (nat * nat))
}.

Definition match_at (r : regex) (k : cont) (pos : nat) (prev : option ascii)
    (rest : string) : option rmatch_obj :=
  match rmatch r (MState pos prev rest []) k with
  | Some st => Some (Match pos (m_pos st) (m_caps st))
  | None => None
  end.

Fixpoint search_from (r : regex) (pos : nat) (prev : option ascii)
    (rest : string) : option rmatch_obj :=
  match match_at r Some pos prev rest with
  | Some m => Some m
  | None =>
      match rest with
      | String c rest' => search_from r (S pos) (Some c) rest'
      | EmptyString => None
      end
  end.

(** [re.search(r, s)] *)
Definition search (r : regex) (s : string) : option rmatch_obj :=
  search_from r 0 None s.

(** [re.match(r, s)] *)
Definition match_ (r : regex) (s : string) : option rmatch_obj :=
  match_at r Some 0 None s.

Definition at_end : cont :=
  fun st => if Str.is_empty (m_rest st) then Some st else None.

(** [re.fullmatch(r, s)] *)
Definition fullmatch (r : regex) (s : string) : option rmatch_obj :=
  match_at r at_end 0 None s.

(** The scan of [re.findall]: the matches left to right, each search
    resuming where the match before ended.  The patterns scanned this way
    match no empty string; after an empty match the scan here just moves one
    character on. *)
Fixpoint finditer_from (r : regex) (resume : nat) (pos : nat) (prev : option ascii)
    (rest : string) : list rmatch_obj :=
  let next res :=
    match rest with
    | String c rest' => finditer_from r res (S pos) (Some c) rest'
    | EmptyString => []
    end in
  if Nat.ltb pos resume then next resume
  else match match_at r Some pos prev rest with
       | Some m => m :: next (Nat.max (mo_end m) (S pos))
       | None => next resume
       end.

Definition finditer (r : regex) (s : string) : list rmatch_obj :=
  finditer_from r 0 0 None s.

(** [m.group(0)] *)
Definition group0 (s : string) (m : rmatch_obj) : string :=
  String.substring (mo_start m) (mo_end m - mo_start m) s.

Definition cap (n : nat) (m : rmatch_obj) : option (nat * nat) :=
  snd <$> List.find (fun e => Nat.eqb (fst e) n) (mo_caps m).

(** [m.group(n)], for a group that took part in the match. *)
Definition group (n : nat) (s : string) (m : rmatch_obj) : string :=
  match cap n m with
  | Some (b, e) => String.substring b (e - b) s
  | None => ""
  end.

(** Pattern builders. *)
Fixpoint seq (rs : list regex) : regex :=
  match rs with
  | [] => Eps
  | [r] => r
  | r :: rs' => Seq r (seq rs')
  end.

Definition lit1 (c : ascii) : regex := Chr1 (Ascii.eqb c).

(** A literal string (what [re.escape] of it matches). *)
Definition lit (s : string) : regex := seq (lit1 <$> list_ascii_of_string s).

(** A literal character under [re.IGNORECASE]: among the code points below
    256 it matches those with its lowercase form. *)
Definition lit1_i (c : ascii) : regex :=
  Chr1 (fun x => Ascii.eqb (Chr.lower x) (Chr.lower c)).

Definition lit_i (s : string) : regex := seq (lit1_i <$> list_ascii_of_string s).

Definition plus (p : ascii -> bool) : regex := Rep p 1 None.
Definition star (p : ascii -> bool) : regex := Rep p 0 None.
Definition digit : ascii -> bool := Chr.isdigit.
Definition space : ascii -> bool := Chr.isspace.
Definition not_ (p : ascii -> bool) : ascii -> bool := fun c => negb (p c).
Definition ch (s : string) : ascii -> bool := Chr.one_of s.

(** [re.sub(r, repl, s)] for a plain replacement text: the matches are
    replaced left to right; [skip] counts the characters of the current
    match still to pass over. *)
Fixpoint sub_from (r : regex) (repl : string) (skip : nat) (pos : nat)
    (prev : option ascii) (rest : string) {struct rest} : string :=
  match skip with
  | S skip' =>
      match rest with
      | String c rest' => sub_from r repl skip' (S pos) (Some c) rest'
      | EmptyString => ""
      end
  | 0 =>
      match match_at r Some pos prev rest with
      | Some m =>
          repl ++
          match rest with
          | String c rest' =>
              if Nat.eqb (mo_end m) pos
              then String c (sub_from r repl 0 (S pos) (Some c) rest')
              else sub_from r repl (mo_end m - S pos) (S pos) (Some c) rest'
          | EmptyString => ""
          end
      | None =>
          match rest with
          | String c rest' => String c (sub_from r repl 0 (S pos) (Some c) rest')
          | EmptyString => ""
          end
      end
  end.

Definition sub (r : regex) (repl : string) (s : string) : string :=
  sub_from r repl 0 0 None s.

End Re.

Import Re.

(** [[a-zA-Z0-9._%+-]+@[a-zA-Z0-9.-]+\.[a-zA-Z]{2,}] *)
Definition EMAIL_REGEX : regex :=
  seq [ plus (fun c => Chr.isletter c || Chr.isdigit c || ch "._%+-" c);
        lit "@";
        plus (fun c => Chr.isletter c || Chr.isdigit c || ch ".-" c);
        lit ".";
        Rep Chr.isletter 2 None ].

(** [\+?\d[\d\s\-]{8,}\d], the phone pattern of [nlp.py] *)
Definition NLP_PHONE_REGEX : regex :=
  seq [ Opt (lit "+"); Chr1 digit;
        Rep (fun c => digit c || space c || ch "-" c) 8 None;
        Chr1 digit ].

(** [(\+?\d{1,3}[-.\s]?)?(\d{3,5}[-.\s]?\d{3,5}[-.\s]?\d{3,5})] *)
Definition PHONE_REGEX : regex :=
  let sep := Opt (Chr1 (fun c => ch "-." c || space c)) in
  seq [ Opt (Grp 1 (seq [Opt (lit "+"); Rep digit 1 (Some 3); sep]));
        Grp 2 (seq [Rep digit 3 (Some 5); sep; Rep digit 3 (Some 5); sep;
                    Rep digit 3 (Some 5)]) ].

(** [(https?://[^\s]+|www\.[^\s]+)] *)
Definition URL_REGEX : regex :=
  Grp 1 (Alt (seq [lit "http"; Opt (lit "s"); lit "://"; plus (not_ space)])
             (seq [lit "www."; plus (not_ space)])).

(** [\b\d{2,3}\.?(\d+)?\s*%] *)
Definition PERC_REGEX : regex :=
  seq [ WordB; Rep digit 2 (Some 3); Opt (lit "."); Opt (Grp 1 (plus digit));
        star space; lit "%" ].

(** [\b\d\.\d{1,2}\b] *)
Definition CGPA_REGEX : regex :=
  seq [ WordB; Chr1 digit; lit "."; Rep digit 1 (Some 2); WordB ].

(** [\b(19|20)\d{2}\b] *)
Definition YEAR_REGEX : regex :=
  seq [ WordB; Grp 1 (Alt (lit "19") (lit "20")); Rep digit 2 (Some 2); WordB ].

(** [\(([^)]+)\)] *)
Definition MAJOR_REGEX : regex :=
  seq [ lit "("; Grp 1 (plus (not_ (ch ")"))); lit ")" ].

(** [^[A-Za-z ]+[:]\s*$] *)
Definition COLON_HEADING_REGEX : regex :=
  seq [ Bol; plus (fun c => Chr.isletter c || ch " " c); lit ":"; star space; Eol ].

(** [rf"{re.escape(kw)}[:]?"] with [re.IGNORECASE] *)
Definition heading_regex (kw : string) : regex :=
  Seq (lit_i kw) (Opt (lit ":")).

(** [rf"{keyword}\s*[:\-]\s*(\d+)"] *)
Definition score_regex (keyword : string) : regex :=
  seq [ lit keyword; star space; Chr1 (ch ":-"); star space; Grp 1 (plus digit) ].

(** ** Dictionaries and exceptions *)

(** The values a schema dictionary holds: a string, a list of strings, or
    the nested dictionary of test scores. *)
Inductive value :=
| VStr (s : string)
| VList (l : list string)
| VDict (d : gmap string string).

Inductive exn :=
| KeyError (k : string)
| TypeError.

Inductive res (A : Type) :=
| Ok (a : A)
| Err (e : exn).
Arguments Ok {A} a.
Arguments Err {A} e.

(** A computation on the schema dictionary it is handed: the dictionary is
    mutated in place, so the state left behind is kept also when the
    computation raises. *)
Definition M (A : Type) : Type := gmap string value -> res A * gmap string value.

Definition ret {A} (a : A) : M A := fun d => (Ok a, d).

Definition bind {A B} (m : M A) (f : A -> M B) : M B :=
  fun d => match m d with
           | (Ok a, d') => f a d'
           | (Err e, d') => (Err e, d')
           end.

Definition raise {A} (e : exn) : M A := fun d => (Err e, d).

Declare Scope dict_scope.
Delimit Scope dict_scope with M.
Notation "x <- m ;; f" := (bind m (fun x => f))
  (at level 100, m at next level, f at level 200, right associativity) : dict_scope.
Notation "m ;; f" := (bind m (fun _ => f))
  (at level 100, f at level 200, right associativity) : dict_scope.
Local Open Scope dict_scope.

(** [schema[k]] *)
Definition getitem (k : string) : M value :=
  fun d => match d !! k with
           | Some v => (Ok v, d)
           | None => (Err (KeyError k), d)
           end.

(** [schema[k] = v] *)
Definition setitem (k : string) (v : value) : M unit :=
  fun d => (Ok tt, <[k := v]> d).

(** [for x in l: body(x)] *)
Fixpoint for_each {A} (l : list A) (body : A -> M unit) : M unit :=
  match l with
  | [] => ret tt
  | x :: rest => body x ;; for_each rest body
  end.

(** Truth value of a Python object: empty strings, lists and dictionaries
    are false. *)
Definition truthy (v : value) : bool :=
  match v with
  | VStr s => negb (Str.is_empty s)
  | VList l => match l with [] => false | _ => true end
  | VDict d => negb (bool_decide (d = ∅))
  end.

(** [a or b] *)
Definition py_or (a b : value) : value := if truthy a then a else b.

(** ** [resume_parser/schema.py] *)

Definition string_fields : list string :=
  [ "name"; "email"; "phoneNumber";
    "highSchoolName"; "highSchoolAddress"; "highSchoolGpaOrPercentage";
    "highSchoolGpaScale"; "highSchoolBoard"; "highSchoolGraduationYear";
    "ugCollegeName"; "ugCollegeAddress"; "ugCollegeGpaOrPercentage";
    "ugCollegeGpaScale"; "ugUniversity"; "ugGraduationYear"; "ugDegree"; "ugMajor";
    "pgCollegeName"; "pgCollegeAddress"; "pgCollegeGpaOrPercentage";
    "pgCollegeGpaScale"; "pgUniversity"; "pgGraduationYear"; "pgDegree"; "pgMajor" ].

Definition list_fields : list string :=
  [ "certifications"; "extraCurricularActivities"; "workExperience";
    "researchPublications"; "achievements"; "skills" ].

Definition score_fields : list string :=
  [ "sat"; "act"; "gre"; "gmat"; "toefl"; "ielts" ].

Definition BASE_RESUME_SCHEMA : gmap string value :=
  list_to_map
    [ ("name", VStr ""); ("email", VStr ""); ("phoneNumber", VStr "");
      ("highSchoolName", VStr ""); ("highSchoolAddress", VStr "");
      ("highSchoolGpaOrPercentage", VStr ""); ("highSchoolGpaScale", VStr "");
      ("highSchoolBoard", VStr ""); ("highSchoolGraduationYear", VStr "");
      ("ugCollegeName", VStr ""); ("ugCollegeAddress", VStr "");
      ("ugCollegeGpaOrPercentage", VStr ""); ("ugCollegeGpaScale", VStr "");
      ("ugUniversity", VStr ""); ("ugGraduationYear", VStr "");
      ("ugDegree", VStr ""); ("ugMajor", VStr "");
      ("pgCollegeName", VStr ""); ("pgCollegeAddress", VStr "");
      ("pgCollegeGpaOrPercentage", VStr ""); ("pgCollegeGpaScale", VStr "");
      ("pgUniversity", VStr ""); ("pgGraduationYear", VStr "");
      ("pgDegree", VStr ""); ("pgMajor", VStr "");
      ("certifications", VList []); ("extraCurricularActivities", VList []);
      ("workExperience", VList []); ("researchPublications", VList []);
      ("testScores",
        VDict (list_to_map [ ("sat", ""); ("act", ""); ("gre", "");
                             ("gmat", ""); ("toefl", ""); ("ielts", "") ]));
      ("achievements", VList []); ("skills", VList []) ].

(** A fresh copy of the base schema. *)
Definition empty_resume_schema : gmap string value := BASE_RESUME_SCHEMA.

(** ** [resume_parser/nlp.py] *)

Module Nlp.

Definition SKILLS_DB : list string :=
  [ "python"; "java"; "c"; "c++"; "c#"; "javascript"; "typescript";
    "html"; "css"; "react"; "node.js"; "express"; "django"; "flask";
    "sql"; "mysql"; "postgresql"; "mongodb"; "nosql"; "oracle";
    "git"; "github"; "docker";
    "flutter"; "dart";
    "machine learning"; "deep learning"; "nlp";
    "data analysis"; "excel";
    "uipath"; "rpa" ].

Definition matched (o : option rmatch_obj) : bool :=
  match o with Some _ => true | None => false end.

Definition extract_email (text : string) : string :=
  match search EMAIL_REGEX text with
  | Some m => group0 text m
  | None => ""
  end.

Definition extract_phone (text : string) : string :=
  match search NLP_PHONE_REGEX text with
  | Some m => Str.strip (group0 text m)
  | None => ""
  end.

(** [[l.strip() for l in text.splitlines() if l.strip()]] *)
Definition stripped_lines (text : string) : list string :=
  List.filter (fun l => negb (Str.is_empty l)) (Str.strip <$> Str.splitlines text).

Fixpoint extract_name_loop (lines : list string) : string :=
  match lines with
  | [] => ""
  | line :: rest =>
      if Str.contains "@" line then extract_name_loop rest
      else if matched (search (Chr1 digit) line) then extract_name_loop rest
      else
        let words := Str.split line in
        if Nat.ltb 1 (length words) && Nat.leb (length words) 4 then line
        else extract_name_loop rest
  end.

Definition extract_name (text : string) : string :=
  extract_name_loop (take 5 (stripped_lines text)).

(** The test of the inner loop: some keyword, with an optional colon, is
    the whole stripped line. *)
Definition is_heading_of (keywords : list string) (line : string) : bool :=
  existsb (fun kw => matched (fullmatch (heading_regex kw) (Str.strip line))) keywords.

(** The first loop: the index of the first heading line, counting from [i]. *)
Fixpoint find_start_from (i : nat) (keywords : list string) (lowered : list string)
    : option nat :=
  match lowered with
  | [] => None
  | line :: rest =>
      if is_heading_of keywords line then Some i
      else find_start_from (S i) keywords rest
  end.

(** The test of the second loop, on the stripped line [l]. *)
Definition ends_block (l : string) : bool :=
  (Str.isupper l && Nat.leb (length (Str.split l)) 5)
  || matched (match_ COLON_HEADING_REGEX l).

(** The second loop over [lines[j:]]: the first index whose line ends the
    block, or [len(lines)]. *)
Fixpoint find_end_from (j : nat) (rest : list string) : nat :=
  match rest with
  | [] => j
  | raw :: rest' =>
      if ends_block (Str.strip raw) then j else find_end_from (S j) rest'
  end.

Definition find_section_block (text : string) (keywords : list string) : string :=
  let lines := Str.splitlines text in
  let lowered := Str.lower <$> lines in
  match find_start_from 0 keywords lowered with
  | None => ""
  | Some start_idx =>
      let end_idx := find_end_from (S start_idx) (drop (S start_idx) lines) in
      Str.strip (Str.join Str.nl (Str.slice lines (S start_idx) end_idx))
  end.

(** The characters of [" -â€¢\t"] that are code points below 256: space,
    hyphen, U+00E2, U+00A2 and tab. *)
Definition bullet_chars (c : ascii) : bool :=
  Chr.has_code 32 c || Chr.has_code 45 c || Chr.has_code 226 c
  || Chr.has_code 162 c || Chr.has_code 9 c.

Definition section_to_list (section_text : string) : list string :=
  List.filter (fun l => negb (Str.is_empty l))
    (Str.strip_of bullet_chars <$> Str.splitlines section_text).

(** [sorted(set(found), key=str.lower)]: the entries of [SKILLS_DB] are
    distinct, so the order the set is walked in does not show. *)
Definition extract_skills (text : string) : list string :=
  let t := Str.lower text in
  let found := List.filter (fun skill => Str.contains (Str.lower skill) t) SKILLS_DB in
  merge_sort (fun a b => Is_true (String.leb (Str.lower a) (Str.lower b))) found.

Definition any_in (ks : list string) (l : string) : bool :=
  existsb (fun k => Str.contains k l) ks.

(** The body of the loop of [parse_education], for one line. *)
Definition education_line (line : string) : M unit :=
  let l := Str.lower line in
  if any_in ["10th"; "x "; "ssc"; "matric"; "high school"] l then
    old <- getitem "highSchoolName" ;;
    setitem "highSchoolName" (py_or old (VStr line)) ;;
    let perc := search PERC_REGEX line in
    let cgpa := search CGPA_REGEX line in
    let year := search YEAR_REGEX line in
    match perc with
    | Some m =>
        setitem "highSchoolGpaOrPercentage" (VStr (group0 line m)) ;;
        setitem "highSchoolGpaScale" (VStr "percentage")
    | None =>
        match cgpa with
        | Some m =>
            setitem "highSchoolGpaOrPercentage" (VStr (group0 line m)) ;;
            setitem "highSchoolGpaScale" (VStr "cgpa")
        | None => ret tt
        end
    end ;;
    match year with
    | Some m => setitem "highSchoolGraduationYear" (VStr (group0 line m))
    | None => ret tt
    end
  else if any_in ["b.tech"; "b.e"; "bsc"; "bca"; "b.com"; "bachelor"] l then
    old <- getitem "ugCollegeName" ;;
    setitem "ugCollegeName" (py_or old (VStr line)) ;;
    old <- getitem "ugDegree" ;;
    setitem "ugDegree" (py_or old (VStr "Bachelor")) ;;
    let major := search MAJOR_REGEX line in
    match major with
    | Some m => setitem "ugMajor" (VStr (group 1 line m))
    | None => ret tt
    end ;;
    let perc := search PERC_REGEX line in
    let cgpa := search CGPA_REGEX line in
    let year := search YEAR_REGEX line in
    match perc with
    | Some m =>
        setitem "ugCollegeGpaOrPercentage" (VStr (group0 line m)) ;;
        setitem "ugCollegeGpaScale" (VStr "percentage")
    | None =>
        match cgpa with
        | Some m =>
            setitem "ugCollegeGpaOrPercentage" (VStr (group0 line m)) ;;
            setitem "ugCollegeGpaScale" (VStr "cgpa")
        | None => ret tt
        end
    end ;;
    match year with
    | Some m => setitem "ugGraduationYear" (VStr (group0 line m))
    | None => ret tt
    end
  else if any_in ["m.tech"; "m.e"; "msc"; "mca"; "mba"; "master"] l then
    old <- getitem "pgCollegeName" ;;
    setitem "pgCollegeName" (py_or old (VStr line)) ;;
    old <- getitem "pgDegree" ;;
    setitem "pgDegree" (py_or old (VStr "Master")) ;;
    let major := search MAJOR_REGEX line in
    match major with
    | Some m => setitem "pgMajor" (VStr (group 1 line m))
    | None => ret tt
    end ;;
    let perc := search PERC_REGEX line in
    let cgpa := search CGPA_REGEX line in
    let year := search YEAR_REGEX line in
    match perc with
    | Some m =>
        setitem "pgCollegeGpaOrPercentage" (VStr (group0 line m)) ;;
        setitem "pgCollegeGpaScale" (VStr "percentage")
    | None =>
        match cgpa with
        | Some m =>
            setitem "pgCollegeGpaOrPercentage" (VStr (group0 line m)) ;;
            setitem "pgCollegeGpaScale" (VStr "cgpa")
        | None => ret tt
        end
    end ;;
    match year with
    | Some m => setitem "pgGraduationYear" (VStr (group0 line m))
    | None => ret tt
    end
  else ret tt.

Definition EDUCATION_KEYWORDS : list string :=
  ["education"; "academics"; "academic details"].

Definition parse_education (text : string) : M unit :=
  let edu_block := find_section_block text EDUCATION_KEYWORDS in
  if Str.is_empty edu_block then ret tt
  else for_each (stripped_lines edu_block) education_line.

Definition grab_score (lower keyword : string) : string :=
  match search (score_regex keyword) lower with
  | Some m => group 1 lower m
  | None => ""
  end.

(** [d[k]] on the value [d] *)
Definition subscript (d : value) (k : string) : M string :=
  match d with
  | VDict ts =>
      match ts !! k with
      | Some v => ret v
      | None => raise (KeyError k)
      end
  | _ => raise TypeError
  end.

(** [schema["testScores"][k] = grab_score(k) or schema["testScores"][k]]:
    the right-hand side first, then the target dictionary, then the store. *)
Definition set_score (lower k : string) : M unit :=
  let found := grab_score lower k in
  v <- (if Str.is_empty found
        then (ts <- getitem "testScores" ;; subscript ts k)
        else ret found) ;;
  ts <- getitem "testScores" ;;
  match ts with
  | VDict d => setitem "testScores" (VDict (<[k := v]> d))
  | _ => raise TypeError
  end.

Definition parse_test_scores (text : string) : M unit :=
  let lower := Str.lower text in
  set_score lower "gre" ;;
  set_score lower "gmat" ;;
  set_score lower "sat" ;;
  set_score lower "act" ;;
  set_score lower "toefl" ;;
  set_score lower "ielts".

Definition build_structured_data_body (text : string) : M unit :=
  setitem "name" (VStr (extract_name text)) ;;
  setitem "email" (VStr (extract_email text)) ;;
  setitem "phoneNumber" (VStr (extract_phone text)) ;;
  let exp_block := find_section_block text
      ["experience"; "work experience"; "professional experience"] in
  let cert_block := find_section_block text ["certifications"; "certification"] in
  let extra_block := find_section_block text
      ["extra curricular"; "extracurricular"; "activities"] in
  let ach_block := find_section_block text ["achievements"; "accomplishments"] in
  let pubs_block := find_section_block text
      ["publications"; "research"; "research publications"] in
  setitem "workExperience" (VList (section_to_list exp_block)) ;;
  setitem "certifications" (VList (section_to_list cert_block)) ;;
  setitem "extraCurricularActivities" (VList (section_to_list extra_block)) ;;
  setitem "achievements" (VList (section_to_list ach_block)) ;;
  setitem "researchPublications" (VList (section_to_list pubs_block)) ;;
  setitem "skills" (VList (extract_skills text)) ;;
  parse_education text ;;
  parse_test_scores text.

(** The pipeline: the schema it returns, or the exception it raises. *)
Definition build_structured_data (text : string) : res (gmap string value) :=
  match build_structured_data_body text empty_resume_schema with
  | (Ok _, schema) => Ok schema
  | (Err e, _) => Err e
  end.

(** [re.sub(r"\s+", " ", text).strip()] *)
Definition _clean (text : string) : string :=
  Str.strip (sub (plus space) " " text).

End Nlp.

(** ** [app1.py] *)

Module App1.

Definition matched := Nlp.matched.

(** [re.findall(PHONE_REGEX, text)]: the pattern has two groups, so each
    match is given as the pair of their texts, a group that took no part
    as the empty string. *)
Definition findall_phone (text : string) : list (string * string) :=
  (fun m => (group 1 text m, group 2 text m)) <$> finditer PHONE_REGEX text.

(** [re.sub(r"\D", "", candidate)] *)
Definition digits_of (candidate : string) : string :=
  Str.str_filter Chr.isdigit candidate.

Fixpoint extract_phone_loop (matches : list (string * string)) : option string :=
  match matches with
  | [] => None
  | match_ :: rest =>
      let candidate := fst match_ ++ snd match_ in
      let digits := digits_of candidate in
      if Nat.leb 10 (String.length digits) && Nat.leb (String.length digits) 13
      then Some (Str.strip candidate)
      else extract_phone_loop rest
  end.

Definition extract_phone (text : string) : option string :=
  extract_phone_loop (findall_phone text).

Fixpoint guess_name_loop (lines : list string) : option string :=
  match lines with
  | [] => None
  | line :: rest =>
      let line_clean := Str.strip line in
      if Str.is_empty line_clean then guess_name_loop rest
      else if matched (search EMAIL_REGEX line_clean) then guess_name_loop rest
      else if matched (search URL_REGEX line_clean) then guess_name_loop rest
      else if matched (search PHONE_REGEX line_clean) then guess_name_loop rest
      else
        let words := Str.split line_clean in
        if Nat.ltb 1 (length words) && Nat.leb (length words) 4
           && forallb (Str.str_exists Chr.isalpha) words
        then Some line_clean
        else guess_name_loop rest
  end.

Definition guess_name (lines : list string) : option string :=
  guess_name_loop (take 8 lines).

Definition split_lines (text : string) : list string := Nlp.stripped_lines text.

Definition SECTION_HEADERS : list (string * list string) :=
  [ ("summary", ["summary"; "about me"; "profile"]);
    ("education", ["education"; "academic"; "qualification"; "academics"]);
    ("experience", ["experience"; "work experience"; "professional experience";
                    "employment"]);
    ("projects", ["project"; "projects"]);
    ("skills", ["skills"; "technical skills"; "skills & tools"]) ].

(** The two inner loops for one line: each keyword that is the whole line
    stores its section at index [i], a later one replacing an earlier. *)
Definition mark_line (i : nat) (line : string) (index_to_section : gmap nat string)
    : gmap nat string :=
  foldl (fun acc entry =>
           foldl (fun acc' kw =>
                    if matched (fullmatch (heading_regex kw) line)
                    then <[i := fst entry]> acc' else acc')
                 acc (snd entry))
        index_to_section SECTION_HEADERS.

(** The first loop, over [enumerate(lines)] from index [i]. *)
Fixpoint mark_lines (i : nat) (lines : list string) (index_to_section : gmap nat string)
    : gmap nat string :=
  match lines with
  | [] => index_to_section
  | raw_line :: rest =>
      mark_lines (S i) rest (mark_line i (Str.lower (Str.strip raw_line)) index_to_section)
  end.

(** The second loop, over the sorted heading indices still to come; the
    section of an index and the text of a section are always present. *)
Fixpoint collect (lines : list string) (index_to_section : gmap nat string)
    (indices : list nat) (sections_text : gmap string string) : gmap string string :=
  match indices with
  | [] => sections_text
  | start_line :: later =>
      let section_name := default "" (index_to_section !! start_line) in
      let end_line := match later with next :: _ => next | [] => length lines end in
      let content_lines := Str.slice lines (S start_line) end_line in
      let content := Str.strip (Str.join Str.nl content_lines) in
      let current := default "" (sections_text !! section_name) in
      collect lines index_to_section later
        (if Str.is_empty current
         then <[section_name := content]> sections_text
         else <[section_name := current ++ Str.nl ++ content]> sections_text)
  end.

Definition find_sections (text : string) : gmap string string :=
  let lines := Str.splitlines text in
  let index_to_section := mark_lines 0 lines ∅ in
  let sections_text : gmap string string :=
    list_to_map ((fun entry => (fst entry, "")) <$> SECTION_HEADERS) in
  let sorted_indices := merge_sort Nat.le (fst <$> map_to_list index_to_section) in
  match sorted_indices with
  | [] => <["summary" := text]> sections_text
  | _ => collect lines index_to_section sorted_indices sections_text
  end.

(** [re.sub(r"\s+", " ", text).strip()] *)
Definition clean_text (text : string) : string :=
  Str.strip (sub (plus space) " " text).

Definition extract_email (text : string) : option string :=
  group0 text <$> search EMAIL_REGEX text.

(** [re.findall(URL_REGEX, text)]: the pattern has one group, so each match
    is given as the text of that group. *)
Definition extract_links (text : string) : list string :=
  group 1 text <$> finditer URL_REGEX text.

Definition SKILLS_DB : list string :=
  [ "python"; "java"; "c"; "c++"; "c#"; "javascript"; "typescript";
    "html"; "css"; "react"; "node.js"; "express"; "django"; "flask";
    "sql"; "mysql"; "postgresql"; "mongodb"; "nosql"; "oracle";
    "git"; "github"; "docker"; "kubernetes";
    "flutter"; "dart";
    "aws"; "azure"; "gcp";
    "machine learning"; "deep learning"; "nlp"; "data analysis";
    "ui/ux"; "figma"; "canva";
    "rpa"; "uipath" ].

(** [sorted(set(found), key=str.lower)], for the set [skills_db] walked in
    the order of the list. *)
Definition extract_skills (text : string) (skills_db : list string) : list string :=
  let text_lower := Str.lower text in
  let found := List.filter (fun skill => Str.contains (Str.lower skill) text_lower)
                           skills_db in
  merge_sort (fun a b => Is_true (String.leb (Str.lower a) (Str.lower b))) found.

(** The readers a file can be handed to. *)
Inductive reader := Pdf | Docx | Txt.

(** The dispatch of [extract_text] on [ext], the lowercased extension of
    the path; [None] is the [ValueError] for an unsupported type. *)
Definition extract_text_reader (ext : string) : option reader :=
  if String.eqb ext ".pdf" then Some Pdf
  else if String.eqb ext ".docx" then Some Docx
  else if existsb (String.eqb ext) [".txt"; ".text"] then Some Txt
  else None.

(** The test of [index] on the extension of an upload:
    [ext not in [".pdf", ".docx", ".txt", ".text"]] rejects it. *)
Definition upload_allowed (ext : string) : bool :=
  existsb (String.eqb ext) [".pdf"; ".docx"; ".txt"; ".text"].

End App1.

(** ** [resume_parser/extractor.py] and [app.py] *)

Module Extractor.

Inductive reader := Pdf | Docx | Txt | Image.

(** The dispatch of [extract_text] on [ext], the lowercased extension of
    the path; [None] is the [ValueError] for an unsupported type. *)
Definition extract_text_reader (ext : string) : option reader :=
  if String.eqb ext ".pdf" then Some Pdf
  else if String.eqb ext ".docx" then Some Docx
  else if existsb (String.eqb ext) [".txt"; ".text"] then Some Txt
  else if existsb (String.eqb ext) [".jpg"; ".jpeg"; ".png"] then Some Image
  else None.

End Extractor.

Module App.

(** The test of [index] and of [api_parse] on the extension of an upload. *)
Definition upload_allowed (ext : string) : bool :=
  existsb (String.eqb ext) [".pdf"; ".docx"; ".txt"; ".text"; ".jpg"; ".jpeg"; ".png"].

End App.

(** ** Specification

    The predicates and the example inputs the theorems are stated with. *)

Implicit Types (d : gmap string value) (k : string) (v : value).

(** [I] holds of the dictionary a computation leaves behind whenever it held
    before, whether the computation returns or raises. *)
Definition stable {A} (I : gmap string value -> Prop) (m : M A) : Prop :=
  forall d, I d -> I (m d).2.

(** From a dictionary satisfying [I] the computation returns, and leaves one
    satisfying [I]. *)
Definition safe {A} (I : gmap string value -> Prop) (m : M A) : Prop :=
  forall d, I d -> exists a d', m d = (Ok a, d') /\ I d'.

(** The education-tier keys of the schema. *)
Definition education_fields : list string :=
  [ "highSchoolName"; "highSchoolAddress"; "highSchoolGpaOrPercentage";
    "highSchoolGpaScale"; "highSchoolBoard"; "highSchoolGraduationYear";
    "ugCollegeName"; "ugCollegeAddress"; "ugCollegeGpaOrPercentage";
    "ugCollegeGpaScale"; "ugUniversity"; "ugGraduationYear"; "ugDegree"; "ugMajor";
    "pgCollegeName"; "pgCollegeAddress"; "pgCollegeGpaOrPercentage";
    "pgCollegeGpaScale"; "pgUniversity"; "pgGraduationYear"; "pgDegree"; "pgMajor" ].

(** Every field of the fixed schema is present, with a value of its kind. *)
Definition schema_complete (r : gmap string value) : Prop :=
  (forall k, k ∈ string_fields -> exists s, r !! k = Some (VStr s)) /\
  (forall k, k ∈ list_fields -> exists l, r !! k = Some (VList l)) /\
  (exists ts, r !! "testScores" = Some (VDict ts) /\
              forall k, k ∈ score_fields -> is_Some (ts !! k)).

(** The line is the keyword, or the keyword followed by one colon. *)
Definition names_heading (kw line : string) : bool :=
  String.eqb line kw || String.eqb line (kw ++ ":").

(** The text has ASCII characters only ([str.isascii]). *)
Definition isascii (s : string) : bool := Str.str_forall (Chr.between 0 127) s.

(** Some line of the text passes the heading test of the multi-section
    segmenter: the pattern of a keyword of [SECTION_HEADERS] matches the
    stripped, lowercased line in full. *)
Definition has_section_heading (text : string) : bool :=
  existsb (fun raw_line =>
             existsb (fun entry =>
                        existsb (fun kw =>
                                   App1.matched (fullmatch (heading_regex kw)
                                                   (Str.lower (Str.strip raw_line))))
                                (snd entry))
                     App1.SECTION_HEADERS)
          (Str.splitlines text).

(** Some line of the text passes the heading test of [find_section_block]
    for [keywords]: the pattern of one of them matches the lowercased,
    stripped line in full. *)
Definition has_heading (keywords : list string) (text : string) : bool :=
  existsb (fun raw_line => Nlp.is_heading_of keywords (Str.lower raw_line))
          (Str.splitlines text).

(** Some line of the text is an education heading for [parse_education]. *)
Definition has_education_heading (text : string) : bool :=
  has_heading Nlp.EDUCATION_KEYWORDS text.

(** The value [set_score] stores for a key: the digits found for the
    keyword when there are some, and the value held before otherwise. *)
Definition new_score (lower k : string) (old : string) : string :=
  let found := Nlp.grab_score lower k in
  if Str.is_empty found then old else found.

(** The score dictionary [parse_test_scores] leaves, from the one it finds. *)
Definition scores_after (lower : string) (ts : gmap string string) : gmap string string :=
  foldl (fun acc k => <[k := new_score lower k (default "" (ts !! k))]> acc) ts
        ["gre"; "gmat"; "sat"; "act"; "toefl"; "ielts"].

(** The score stored under [k] in a schema dictionary. *)
Definition score_of (d : gmap string value) (k : string) : option string :=
  match d !! "testScores" with
  | Some (VDict ts) => ts !! k
  | _ => None
  end.

(** The text does not go on with a digit. *)
Definition no_leading_digit (s : string) : Prop :=
  match s with
  | String c _ => Chr.isdigit c = false
  | EmptyString => True
  end.

(** The three qualification tiers, and the tier of a line: the keyword
    groups are tried in this order. *)
Inductive tier := Secondary | Undergraduate | Postgraduate.

Definition classify (line : string) : option tier :=
  let l := Str.lower line in
  if Nlp.any_in ["10th"; "x "; "ssc"; "matric"; "high school"] l then Some Secondary
  else if Nlp.any_in ["b.tech"; "b.e"; "bsc"; "bca"; "b.com"; "bachelor"] l
       then Some Undergraduate
  else if Nlp.any_in ["m.tech"; "m.e"; "msc"; "mca"; "mba"; "master"] l
       then Some Postgraduate
  else None.

Definition name_key (t : tier) : string :=
  match t with
  | Secondary => "highSchoolName"
  | Undergraduate => "ugCollegeName"
  | Postgraduate => "pgCollegeName"
  end.

Definition degree_key (t : tier) : option string :=
  match t with
  | Secondary => None
  | Undergraduate => Some "ugDegree"
  | Postgraduate => Some "pgDegree"
  end.

Definition degree_label (t : tier) : string :=
  match t with Postgraduate => "Master" | _ => "Bachelor" end.

Definition major_key (t : tier) : option string :=
  match t with
  | Secondary => None
  | Undergraduate => Some "ugMajor"
  | Postgraduate => Some "pgMajor"
  end.

Definition grade_key (t : tier) : string :=
  match t with
  | Secondary => "highSchoolGpaOrPercentage"
  | Undergraduate => "ugCollegeGpaOrPercentage"
  | Postgraduate => "pgCollegeGpaOrPercentage"
  end.

Definition scale_key (t : tier) : string :=
  match t with
  | Secondary => "highSchoolGpaScale"
  | Undergraduate => "ugCollegeGpaScale"
  | Postgraduate => "pgCollegeGpaScale"
  end.

Definition year_key (t : tier) : string :=
  match t with
  | Secondary => "highSchoolGraduationYear"
  | Undergraduate => "ugGraduationYear"
  | Postgraduate => "pgGraduationYear"
  end.

(** The grade of a line and its scale: the first percentage if there is
    one, the first GPA otherwise. *)
Definition grade_of (line : string) : option (string * string) :=
  match search PERC_REGEX line with
  | Some m => Some (group0 line m, "percentage")
  | None =>
      match search CGPA_REGEX line with
      | Some m => Some (group0 line m, "cgpa")
      | None => None
      end
  end.

Definition year_of (line : string) : option string :=
  group0 line <$> search YEAR_REGEX line.

Definition major_of (line : string) : option string :=
  group 1 line <$> search MAJOR_REGEX line.

(** A field that is stored only when something was found. *)
Definition overwrite (new : option string) (old : option value) : option value :=
  match new with
  | Some s => Some (VStr s)
  | None => old
  end.

(** The keys a line of tier [t] reads are in the dictionary. *)
Definition tier_ready (t : tier) (d : gmap string value) : Prop :=
  is_Some (d !! name_key t) /\
  match degree_key t with Some k => is_Some (d !! k) | None => True end.

(** The education keys that are stored under a guard, or never stored. *)
Definition kept_fields : list string :=
  [ "highSchoolName"; "ugCollegeName"; "ugDegree"; "pgCollegeName"; "pgDegree";
    "highSchoolAddress"; "highSchoolBoard"; "ugCollegeAddress"; "ugUniversity";
    "pgCollegeAddress"; "pgUniversity" ].

(** First-line-wins for one field, as the specification states it: a value the field holds
    after the lines [lines] is still there after one more line. *)
Definition first_line_wins_at (lines : list string) (later : string)
    (d : gmap string value) (k : string) : Prop :=
  forall v,
    (for_each lines Nlp.education_line d).2 !! k = Some v -> truthy v = true ->
    (for_each (lines ++ [later])%list Nlp.education_line d).2 !! k = Some v.

(** Example inputs. *)
Definition one_ug_line : string :=
  "Education" ++ Str.nl ++ "B.Tech Computer Science (AI) 2021 8.5".

Definition scored_schema : gmap string value :=
  <["testScores" :=
      VDict (list_to_map [ ("sat", ""); ("act", ""); ("gre", "300");
                           ("gmat", ""); ("toefl", ""); ("ielts", "") ])]>
    empty_resume_schema.

(** The headings the pipeline of [nlp.py] looks for. *)
Definition KNOWN_HEADINGS : list string :=
  [ "education"; "academics"; "academic details";
    "experience"; "work experience"; "professional experience";
    "certifications"; "certification";
    "extra curricular"; "extracurricular"; "activities";
    "achievements"; "accomplishments";
    "publications"; "research"; "research publications" ].

(** The end of a block as the specification words it: the first later line that is
    a known heading or ends a block. *)
Fixpoint specified_end_from (j : nat) (rest : list string) : nat :=
  match rest with
  | [] => j
  | raw :: rest' =>
      if Nlp.is_heading_of KNOWN_HEADINGS (Str.lower raw)
         || Nlp.ends_block (Str.strip raw)
      then j else specified_end_from (S j) rest'
  end.

Definition specified_section_block (text : string) (keywords : list string) : string :=
  let lines := Str.splitlines text in
  match Nlp.find_start_from 0 keywords (Str.lower <$> lines) with
  | None => ""
  | Some start_idx =>
      let end_idx := specified_end_from (S start_idx) (drop (S start_idx) lines) in
      Str.strip (Str.join Str.nl (Str.slice lines (S start_idx) end_idx))
  end.

Definition two_sections : string :=
  "Education" ++ Str.nl ++ "BSc Physics" ++ Str.nl ++
  "Experience" ++ Str.nl ++ "Acme Corp".

(** A candidate of the phone scan is accepted: it has 10 to 13 digits. *)
Definition accepted (candidate : string) : Prop :=
  10 <= String.length (App1.digits_of candidate) <= 13.

Definition candidate_of (m : string * string) : string := fst m ++ snd m.

(** What the specification says of a phone that is returned: it is empty
    or has 10 to 13 digits. *)
Definition phone_digits_in_range (phone : string) : Prop :=
  phone <> "" -> accepted phone.

(** The test [guess_name] puts a stripped line to. *)
Definition app1_name_like (c : string) : bool :=
  negb (Str.is_empty c)
  && negb (Nlp.matched (search EMAIL_REGEX c))
  && negb (Nlp.matched (search URL_REGEX c))
  && negb (Nlp.matched (search PHONE_REGEX c))
  && (Nat.leb 2 (length (Str.split c)) && Nat.leb (length (Str.split c)) 4
      && forallb (Str.str_exists Chr.isalpha) (Str.split c)).

(** The test [extract_name] puts a line to. *)
Definition nlp_name_like (c : string) : bool :=
  negb (Str.contains "@" c)
  && negb (Str.str_exists Chr.isdigit c)
  && (Nat.leb 2 (length (Str.split c)) && Nat.leb (length (Str.split c)) 4).

(** [x] is the first element of [l], among the first [n], that [P] holds of. *)
Definition first_among {A} (n : nat) (P : A -> bool) (l : list A) (x : A) : Prop :=
  exists i, i < n /\ l !! i = Some x /\ P x = true /\
            forall j y, j < i -> l !! j = Some y -> P y = false.

(** [P] holds of none of the first [n] elements of [l]. *)
Definition none_among {A} (n : nat) (P : A -> bool) (l : list A) : Prop :=
  forall i y, i < n -> l !! i = Some y -> P y = false.

Definition header_lines : list string :=
  ["John Smith"; "john@x.com"; "+1 415 555 0000"].

(** What the specification says of a name that is returned: every word of
    it has a letter, and it contains no URL. *)
Definition name_as_specified (name : string) : Prop :=
  name <> "" ->
  forallb (Str.str_exists Chr.isalpha) (Str.split name) = true /\
  Nlp.matched (search URL_REGEX name) = false.

(** What the specification says of a score that is not empty before the
    call: it is kept. *)
Definition keeps_nonempty_score (text : string) (d : gmap string value) (k : string)
    : Prop :=
  forall old, score_of d k = Some old -> old <> "" ->
              score_of (Nlp.parse_test_scores text d).2 k = Some old.

(** The strings a pattern can consume, its assertions left aside: what a
    match of the pattern is made of. *)
Fixpoint lang (r : regex) (s : string) : Prop :=
  match r with
  | Eps | Bol | Eol | WordB => s = ""
  | Chr1 p => exists c, s = String c "" /\ p c = true
  | Seq r1 r2 => exists s1 s2, s = s1 ++ s2 /\ lang r1 s1 /\ lang r2 s2
  | Alt r1 r2 => lang r1 s \/ lang r2 s
  | Opt r1 => s = "" \/ lang r1 s
  | Rep p lo hi =>
      Str.str_forall p s = true /\ lo <= String.length s /\
      match hi with Some h => String.length s <= h | None => True end
  | Grp _ r1 => lang r1 s
  end.

(** The pattern closes no group. *)
Fixpoint nogrp (r : regex) : bool :=
  match r with
  | Seq r1 r2 | Alt r1 r2 => nogrp r1 && nogrp r2
  | Opt r1 => nogrp r1
  | Grp _ _ => false
  | _ => true
  end.

(** From [st] the matcher has consumed [s] and stands at [st']. *)
Definition span (st st' : mstate) (s : string) : Prop :=
  m_rest st = s ++ m_rest st' /\ m_pos st' = m_pos st + String.length s.

(** The length of the longest prefix of [s] whose characters satisfy [p]. *)
Fixpoint run (p : ascii -> bool) (s : string) : nat :=
  match s with
  | String c s' => if p c then S (run p s') else 0
  | EmptyString => 0
  end.

(** A text with every run of whitespace turned into one space; [in_ws]
    tells that the character before was whitespace. *)
Fixpoint collapse (in_ws : bool) (s : string) : string :=
  match s with
  | String c s' =>
      if Chr.isspace c
      then (if in_ws then collapse true s' else String " " (collapse true s'))
      else String c (collapse false s')
  | EmptyString => ""
  end.

(** The rest of the words of a text, joined by single spaces, read from
    inside a word. *)
Fixpoint words_tail (s : string) : string :=
  match s with
  | String c s' =>
      if Chr.isspace c
      then (let w := Str.join " " (Str.split s') in
            if Str.is_empty w then "" else " " ++ w)
      else String c (words_tail s')
  | EmptyString => ""
  end.

(** [e] occurs in [text]. *)
Definition occurs_in (e text : string) : Prop :=
  exists pre post, text = pre ++ e ++ post.

(** The matcher stands in [text] where its position says. *)
Definition anchored (text : string) (st : mstate) : Prop :=
  exists pre, text = pre ++ m_rest st /\ String.length pre = m_pos st.

(** An address as the email pattern takes it: a local part, "@", a domain,
    ".", and a top-level name of at least two letters. *)
Definition email_shaped (e : string) : Prop :=
  exists loc domain tld,
    e = loc ++ "@" ++ domain ++ "." ++ tld /\
    loc <> "" /\ domain <> "" /\ 2 <= String.length tld /\
    Str.str_forall (fun c => Chr.isletter c || Chr.isdigit c || ch "._%+-" c) loc = true /\
    Str.str_forall (fun c => Chr.isletter c || Chr.isdigit c || ch ".-" c) domain = true /\
    Str.str_forall Chr.isletter tld = true.

(** A phone as the pattern of [nlp.py] takes it: an optional "+", a digit,
    at least eight digits, whitespace characters or hyphens, and a digit. *)
Definition nlp_phone_shaped (p : string) : Prop :=
  exists sign first middle last,
    p = sign ++ String first (middle ++ String last "") /\
    (sign = "" \/ sign = "+") /\
    Chr.isdigit first = true /\ Chr.isdigit last = true /\
    8 <= String.length middle /\
    Str.str_forall (fun c => Chr.isdigit c || Chr.isspace c || ch "-" c) middle = true.

(** A year as the year pattern takes it. *)
Definition year_like (y : string) : Prop :=
  exists century rest,
    y = century ++ rest /\ (century = "19" \/ century = "20") /\
    String.length rest = 2 /\ Str.str_forall Chr.isdigit rest = true.

(** The value under [k] is there and satisfies [P]. *)
Definition holds_at (k : string) (P : value -> Prop) (d : gmap string value) : Prop :=
  exists v, d !! k = Some v /\ P v.

(** The fields of the schema nothing in the pipeline stores. *)
Definition never_stored_fields : list string :=
  [ "highSchoolAddress"; "highSchoolBoard"; "ugCollegeAddress"; "ugUniversity";
    "pgCollegeAddress"; "pgUniversity" ].

(** Every score of the dictionary under [testScores] is a string of digits
    (the empty string among them). *)
Definition scores_are_digits (v : value) : Prop :=
  exists ts : gmap string string,
    v = VDict ts /\
    forall name s, ts !! name = Some s -> Str.str_forall Chr.isdigit s = true.

(** The keys of the tier [t]. *)
Definition tier_fields (t : tier) : list string :=
  match t with
  | Secondary =>
      [ "highSchoolName"; "highSchoolGpaOrPercentage"; "highSchoolGpaScale";
        "highSchoolGraduationYear" ]
  | Undergraduate =>
      [ "ugCollegeName"; "ugDegree"; "ugMajor"; "ugCollegeGpaOrPercentage";
        "ugCollegeGpaScale"; "ugGraduationYear" ]
  | Postgraduate =>
      [ "pgCollegeName"; "pgDegree"; "pgMajor"; "pgCollegeGpaOrPercentage";
        "pgCollegeGpaScale"; "pgGraduationYear" ]
  end.

(** A string value among those of [allowed]. *)
Definition one_of_strings (allowed : list string) (v : value) : Prop :=
  exists s, v = VStr s /\ s ∈ allowed.

(** An empty string or a year. *)
Definition empty_or_year (v : value) : Prop :=
  exists y, v = VStr y /\ (y = "" \/ year_like y).

(** The list fields of the schema the pipeline fills from a section, with
    the headings of the section. *)
Definition LIST_SECTIONS : list (string * list string) :=
  [ ("workExperience", ["experience"; "work experience"; "professional experience"]);
    ("certifications", ["certifications"; "certification"]);
    ("extraCurricularActivities", ["extra curricular"; "extracurricular"; "activities"]);
    ("achievements", ["achievements"; "accomplishments"]);
    ("researchPublications", ["publications"; "research"; "research publications"]) ].

(** The first, and the last, character of [s] satisfies [p]. *)
Definition starts_with_char (p : ascii -> bool) (s : string) : bool :=
  match s with
  | String c _ => p c
  | EmptyString => false
  end.

Fixpoint ends_with_char (p : ascii -> bool) (s : string) : bool :=
  match s with
  | EmptyString => false
  | String c EmptyString => p c
  | String _ s' => ends_with_char p s'
  end.

(** A line as [split_lines] gives it: not empty, with no whitespace at
    either end and no line break inside. *)
Definition clean_line (l : string) : Prop :=
  l <> "" /\
  starts_with_char Chr.isspace l = false /\
  ends_with_char Chr.isspace l = false /\
  Str.str_exists Chr.islinebreak l = false.

(** The order [extract_skills] sorts by. *)
Definition skill_le (a b : string) : Prop :=
  Is_true (String.leb (Str.lower a) (Str.lower b)).

(** The categories of [SECTION_HEADERS]. *)
Definition CATEGORIES : list string :=
  ["summary"; "education"; "experience"; "projects"; "skills"].

(** A link as the URL pattern takes it. *)
Definition url_shaped (u : string) : Prop :=
  exists scheme rest,
    u = scheme ++ rest /\ scheme ∈ ["http://"; "https://"; "www."] /\
    rest <> "" /\ Str.str_forall (fun c => negb (Chr.isspace c)) rest = true.

(** A grade as the percentage pattern takes it: two or three digits, then
    digits, a dot or whitespace, then "%". *)
Definition perc_shaped (g : string) : Prop :=
  exists whole rest,
    g = whole ++ rest ++ "%" /\
    2 <= String.length whole <= 3 /\ Str.str_forall Chr.isdigit whole = true /\
    Str.str_forall (fun c => Chr.isdigit c || Ascii.eqb "." c || Chr.isspace c) rest = true.

(** A grade as the GPA pattern takes it: a digit, a dot, one or two digits. *)
Definition cgpa_shaped (g : string) : Prop :=
  exists a frac,
    g = String a ("." ++ frac) /\ Chr.isdigit a = true /\
    1 <= String.length frac <= 2 /\ Str.str_forall Chr.isdigit frac = true.

(** A grade and a scale that go together. *)
Definition grade_scale_ok (g s : string) : Prop :=
  (g = "" /\ s = "") \/ (s = "percentage" /\ perc_shaped g) \/ (s = "cgpa" /\ cgpa_shaped g).

(** The grade and the scale of the tier [t] are there and go together. *)
Definition tier_grade_ok (t : tier) (d : gmap string value) : Prop :=
  exists g s,
    d !! grade_key t = Some (VStr g) /\ d !! scale_key t = Some (VStr s) /\
    grade_scale_ok g s.

(** The pattern makes no assertion about its position. *)
Fixpoint noassert (r : regex) : bool :=
  match r with
  | Seq r1 r2 | Alt r1 r2 => noassert r1 && noassert r2
  | Opt r1 | Grp _ r1 => noassert r1
  | Bol | Eol | WordB => false
  | _ => true
  end.

(** The character before the position reached by consuming [s]. *)
Fixpoint prev_after (prev : option ascii) (s : string) : option ascii :=
  match s with
  | String c s' => prev_after (Some c) s'
  | EmptyString => prev
  end.

(** No run of the text has the shape. *)
Definition no_run (shape : string -> Prop) (text : string) : Prop :=
  forall pre s post, text = pre ++ s ++ post -> ~ shape s.

(** [s] is the first run of the text with the shape: one occurs where [s]
    does, none starts before it, and none that starts with it is longer. *)
Definition first_run (shape : string -> Prop) (text s : string) : Prop :=
  exists pre post,
    text = pre ++ s ++ post /\ shape s /\
    forall pre' s' post',
      text = pre' ++ s' ++ post' -> shape s' ->
      String.length pre <= String.length pre' /\
      (String.length pre' = String.length pre -> String.length s' <= String.length s).

(** ** Properties of the dictionary monad *)

Section monad_rules.
Context {A B : Type} (I : gmap string value -> Prop).

Lemma stable_ret (a : A) : stable I (ret a).
Proof. by intros d Hd. Qed.

Lemma stable_raise (e : exn) : stable I (@raise A e).
Proof. by intros d Hd. Qed.

Lemma stable_getitem k : stable I (getitem k).
Proof. intros d Hd. unfold getitem. by destruct (d !! k). Qed.

Lemma stable_bind (m : M A) (f : A -> M B) :
  stable I m -> (forall a, stable I (f a)) -> stable I (bind m f).
Proof.
  intros Hm Hf d Hd. unfold bind. specialize (Hm d Hd).
  destruct (m d) as [[a|e] d']; simpl in *; [by apply Hf | done].
Qed.

Lemma stable_setitem k v :
  (forall d, I d -> I (<[k := v]> d)) -> stable I (setitem k v).
Proof. intros H d Hd. by apply H. Qed.

Lemma safe_ret (a : A) : safe I (ret a).
Proof. intros d Hd. by exists a, d. Qed.

Lemma safe_bind (m : M A) (f : A -> M B) :
  safe I m -> (forall a, safe I (f a)) -> safe I (bind m f).
Proof.
  intros Hm Hf d Hd. destruct (Hm d Hd) as (a & d' & E & Hd').
  unfold bind. rewrite E. by apply Hf.
Qed.

Lemma safe_setitem k v :
  (forall d, I d -> I (<[k := v]> d)) -> safe I (setitem k v).
Proof. intros H d Hd. exists tt, (<[k := v]> d). split; [done | by apply H]. Qed.
End monad_rules.

Lemma stable_for_each {A} (I : gmap string value -> Prop) (l : list A) body :
  (forall x, stable I (body x)) -> stable I (for_each l body).
Proof.
  intros Hb. induction l as [|x l IH]; simpl.
  - apply stable_ret.
  - apply stable_bind; [apply Hb | intros _; apply IH].
Qed.

Lemma safe_for_each {A} (I : gmap string value -> Prop) (l : list A) body :
  (forall x, safe I (body x)) -> safe I (for_each l body).
Proof.
  intros Hb. induction l as [|x l IH]; simpl.
  - apply safe_ret.
  - apply safe_bind; [apply Hb | intros _; apply IH].
Qed.

(** The guarded store [schema[k] = schema[k] or x], followed by [f]. *)
Lemma stable_guarded {B} (I : gmap string value -> Prop) k x (f : M B) :
  (forall d v, I d -> d !! k = Some v -> I (<[k := py_or v x]> d)) ->
  stable I f ->
  stable I (old <- getitem k ;; setitem k (py_or old x) ;; f).
Proof.
  intros Hw Hf d Hd. unfold bind, getitem, setitem.
  destruct (d !! k) as [v|] eqn:E; simpl; [| done].
  apply Hf. by apply Hw.
Qed.

(** Membership of a given key in one of the key lists, by evaluation. *)
Ltac solve_mem := by (apply (bool_decide_unpack _); vm_compute).

Lemma insert_other_key (K : list string) k k0 v d (o : option value) :
  k ∈ K -> k0 ∉ K -> d !! k0 = o -> <[k := v]> d !! k0 = o.
Proof.
  intros Hin Hout <-. apply lookup_insert_ne. by intros ->.
Qed.

(** One step through the body of a parser, for a [stable] goal; [side]
    settles what a store has to preserve. *)
Ltac stable_step side :=
  cbv zeta;
  lazymatch goal with
  | |- stable _ (bind (getitem ?k) (fun old => bind (setitem ?k (py_or old ?x)) _)) =>
      apply stable_guarded; [intros ? ? ? ?; side |]
  | |- stable _ (bind _ _) => apply stable_bind; [| intros ?]
  | |- stable _ (ret _) => apply stable_ret
  | |- stable _ (raise _) => apply stable_raise
  | |- stable _ (getitem _) => apply stable_getitem
  | |- stable _ (setitem _ _) => apply stable_setitem; intros ? ?; side
  | |- stable _ (if ?b then _ else _) => destruct b
  | |- stable _ (match ?o with _ => _ end) => destruct o
  end.

(** *** Frame of [parse_education] *)

Lemma education_line_frame line k0 (o : option value) :
  k0 ∉ education_fields ->
  stable (fun d => d !! k0 = o) (Nlp.education_line line).
Proof.
  intros Hout. unfold Nlp.education_line.
  repeat stable_step ltac:(eapply (insert_other_key education_fields);
                           [solve_mem | exact Hout | eassumption]).
Qed.

(** *** Strings *)

#[local] Arguments Ascii.eqb : simpl nomatch.

Lemma str_app_cons c (a b : string) : String c a ++ b = String c (a ++ b).
Proof. done. Qed.

Lemma str_app_nil_r (s : string) : s ++ "" = s.
Proof. induction s as [|c s IH]; [done |]. by rewrite str_app_cons, IH. Qed.

Lemma chr_lower_idem c : Chr.lower (Chr.lower c) = Chr.lower c.
Proof. destruct c as [[] [] [] [] [] [] [] []]; vm_compute; reflexivity. Qed.

Lemma lower_idem s : Str.lower (Str.lower s) = Str.lower s.
Proof.
  induction s as [|c s IH]; simpl; [done |].
  unfold Str.lower in *. simpl. by rewrite chr_lower_idem, IH.
Qed.

Lemma lower_app a b : Str.lower (a ++ b) = Str.lower a ++ Str.lower b.
Proof.
  induction a as [|c a IH]; simpl; [done |].
  unfold Str.lower in *. simpl. by rewrite IH.
Qed.

Lemma lower_cons c s : Str.lower (String c s) = String (Chr.lower c) (Str.lower s).
Proof. done. Qed.

Lemma lstrip_lowered p s : Str.lower s = s -> Str.lower (Str.lstrip_of p s) = Str.lstrip_of p s.
Proof.
  induction s as [|c s IH]; simpl; [done |].
  intros H. rewrite lower_cons in H. injection H as Hc Hs.
  destruct (p c); [by apply IH |]. by rewrite lower_cons, Hc, Hs.
Qed.

Lemma rstrip_lowered p s : Str.lower s = s -> Str.lower (Str.rstrip_of p s) = Str.rstrip_of p s.
Proof.
  induction s as [|c s IH]; simpl; [done |].
  intros H. rewrite lower_cons in H. injection H as Hc Hs.
  destruct (Str.is_empty (Str.rstrip_of p s) && p c); [done |].
  by rewrite lower_cons, Hc, IH.
Qed.

Lemma strip_lowered s : Str.lower s = s -> Str.lower (Str.strip s) = Str.strip s.
Proof. intros H. by apply rstrip_lowered, lstrip_lowered. Qed.

Lemma matched_true o : Nlp.matched o = true -> exists m, o = Some m.
Proof. destruct o; [by eexists | done]. Qed.

(** *** The heading pattern *)

Lemma rmatch_seq_cons r rs st (k : cont) :
  rmatch (seq (r :: rs)) st k = rmatch r st (fun st' => rmatch (seq rs) st' k).
Proof. by destruct rs. Qed.

(** A case-blind literal consumes a prefix that lowers to the literal. *)
Lemma lit_i_consumes kw : forall st (k : cont) res,
  rmatch (lit_i kw) st k = Some res ->
  exists pre st', m_rest st = pre ++ m_rest st'
                  /\ Str.lower pre = Str.lower kw /\ k st' = Some res.
Proof.
  unfold lit_i. induction kw as [|c kw IH]; intros st k0 res H.
  - simpl in H. by exists "", st.
  - simpl list_ascii_of_string in H. rewrite fmap_cons, rmatch_seq_cons in H.
    simpl in H. destruct (m_rest st) as [|x rest] eqn:E; [done |].
    destruct (Ascii.eqb (Chr.lower x) (Chr.lower c)) eqn:Ex; [| done].
    apply IH in H as (pre & st' & Hrest & Hlow & Hk). simpl in Hrest.
    exists (String x pre), st'. split_and!; [by rewrite Hrest | | done].
    rewrite !lower_cons, Hlow. by apply Ascii.eqb_eq in Ex as ->.
Qed.

(** A line the heading pattern matches in full lowers to the keyword, with
    an optional colon. *)
Lemma heading_fullmatch kw s :
  Nlp.matched (fullmatch (heading_regex kw) s) = true ->
  Str.lower s = Str.lower kw \/ Str.lower s = Str.lower kw ++ ":".
Proof.
  intros H. apply matched_true in H as [m H].
  unfold fullmatch, match_at, heading_regex in H.
  destruct (rmatch _ _ _) as [res|] eqn:E; [clear H | done].
  simpl in E. apply lit_i_consumes in E as (pre & st' & Hrest & Hlow & Hk).
  simpl in Hrest. subst s. rewrite lower_app, Hlow.
  unfold lit, lit1, at_end in Hk. simpl in Hk.
  destruct (m_rest st') as [|x [|y rest]] eqn:Er; simpl in Hk.
  - left. apply str_app_nil_r.
  - right. destruct (Ascii.eqb ":" x) eqn:Ex; [| done].
    apply Ascii.eqb_eq in Ex as <-. done.
  - by destruct (Ascii.eqb ":" x).
Qed.

Lemma existsb_false {A} (f : A -> bool) (l : list A) :
  existsb f l = false -> forall x, In x l -> f x = false.
Proof.
  intros H x Hx. destruct (f x) eqn:E; [| done].
  rewrite <- H. symmetry. apply existsb_exists. by exists x.
Qed.

(** *** The single-section segmenter finds no start *)

Lemma find_start_none kws lines : forall i,
  (forall line, In line lines -> Nlp.is_heading_of kws line = false) ->
  Nlp.find_start_from i kws lines = None.
Proof.
  induction lines as [|line lines IH]; intros i H; simpl; [done |].
  rewrite H by (by left). apply IH. intros l Hl. apply H. by right.
Qed.

Lemma no_heading_block keywords text :
  has_heading keywords text = false -> Nlp.find_section_block text keywords = "".
Proof.
  intros H. unfold Nlp.find_section_block.
  rewrite find_start_none; [done |].
  intros line Hin. apply in_map_iff in Hin as (raw & <- & Hraw).
  exact (existsb_false _ _ H raw Hraw).
Qed.

(** *** The multi-section segmenter marks no line *)

Lemma mark_line_none i line (acc : gmap nat string) :
  (forall entry kw, In entry App1.SECTION_HEADERS -> In kw (snd entry) ->
     Nlp.matched (fullmatch (heading_regex kw) line) = false) ->
  App1.mark_line i line acc = acc.
Proof.
  unfold App1.mark_line. generalize App1.SECTION_HEADERS as table.
  intros table. revert acc.
  induction table as [|entry table IH]; intros acc H; simpl; [done |].
  assert (Hin : forall a : gmap nat string, foldl (fun acc' kw =>
            if App1.matched (fullmatch (heading_regex kw) line)
            then <[i := fst entry]> acc' else acc') a (snd entry) = a).
  { assert (He : forall kw, In kw (snd entry) ->
              Nlp.matched (fullmatch (heading_regex kw) line) = false)
      by (intros kw Hkw; apply (H entry); [by left | done]).
    revert He. generalize (snd entry) as kws.
    induction kws as [|kw kws IHk]; intros He a; simpl; [done |].
    unfold App1.matched. rewrite He by (by left).
    apply IHk. intros kw' Hkw'. apply He. by right. }
  rewrite Hin. apply IH. intros e kw He Hkw. apply (H e); [by right | done].
Qed.

Lemma mark_lines_none lines : forall i (acc : gmap nat string),
  (forall raw entry kw, In raw lines -> In entry App1.SECTION_HEADERS ->
     In kw (snd entry) ->
     App1.matched (fullmatch (heading_regex kw) (Str.lower (Str.strip raw))) = false) ->
  App1.mark_lines i lines acc = acc.
Proof.
  induction lines as [|raw lines IH]; intros i acc H; simpl; [done |].
  rewrite mark_line_none.
  - apply IH. intros r e kw Hr. apply H. by right.
  - intros entry kw He Hkw. apply (H raw entry kw); [by left | done | done].
Qed.

(** *** The schema stays complete *)

Lemma string_not_list_field k : k ∈ string_fields -> k ∉ list_fields.
Proof.
  revert k. apply Forall_forall. apply (bool_decide_unpack _). by vm_compute.
Qed.

Lemma scores_not_string_field : "testScores" ∉ string_fields.
Proof. apply (bool_decide_unpack _). by vm_compute. Qed.

Lemma scores_not_list_field : "testScores" ∉ list_fields.
Proof. apply (bool_decide_unpack _). by vm_compute. Qed.

Lemma complete_set_str d k s :
  k ∈ string_fields -> schema_complete d -> schema_complete (<[k := VStr s]> d).
Proof.
  intros Hk (Hs & Hl & ts & Hts & Hsc). split_and!.
  - intros k' Hk'. destruct (decide (k = k')) as [->|Hne].
    + exists s. apply lookup_insert_eq.
    + rewrite lookup_insert_ne by done. by apply Hs.
  - intros k' Hk'. rewrite lookup_insert_ne; [by apply Hl |].
    intros <-. by apply (string_not_list_field k).
  - exists ts. split; [| done]. rewrite lookup_insert_ne; [done |].
    intros ->. by apply scores_not_string_field.
Qed.

Lemma complete_set_list d k l :
  k ∈ list_fields -> schema_complete d -> schema_complete (<[k := VList l]> d).
Proof.
  intros Hk (Hs & Hl & ts & Hts & Hsc). split_and!.
  - intros k' Hk'. rewrite lookup_insert_ne; [by apply Hs |].
    intros ->. by apply (string_not_list_field k').
  - intros k' Hk'. destruct (decide (k = k')) as [->|Hne].
    + exists l. apply lookup_insert_eq.
    + rewrite lookup_insert_ne by done. by apply Hl.
  - exists ts. split; [| done]. rewrite lookup_insert_ne; [done |].
    intros ->. by apply scores_not_list_field.
Qed.

Lemma complete_set_scores d (ts : gmap string string) :
  (forall k, k ∈ score_fields -> is_Some (ts !! k)) ->
  schema_complete d -> schema_complete (<["testScores" := VDict ts]> d).
Proof.
  intros Hts (Hs & Hl & _). split_and!.
  - intros k Hk. rewrite lookup_insert_ne; [by apply Hs |].
    intros <-. by apply scores_not_string_field.
  - intros k Hk. rewrite lookup_insert_ne; [by apply Hl |].
    intros <-. by apply scores_not_list_field.
  - exists ts. split; [apply lookup_insert_eq | done].
Qed.

Lemma base_schema_complete : schema_complete empty_resume_schema.
Proof.
  split_and!.
  - apply Forall_forall. unfold string_fields.
    repeat (apply Forall_cons; split; [eexists; vm_compute; reflexivity |]).
    apply Forall_nil_2.
  - apply Forall_forall. unfold list_fields.
    repeat (apply Forall_cons; split; [eexists; vm_compute; reflexivity |]).
    apply Forall_nil_2.
  - eexists. split; [vm_compute; reflexivity |].
    apply Forall_forall. unfold score_fields.
    repeat (apply Forall_cons; split; [eexists; vm_compute; reflexivity |]).
    apply Forall_nil_2.
Qed.

Lemma safe_guarded {B} k x (f : M B) :
  k ∈ string_fields ->
  safe schema_complete f ->
  safe schema_complete (old <- getitem k ;; setitem k (py_or old (VStr x)) ;; f).
Proof.
  intros Hk Hf d Hd. unfold bind, getitem, setitem.
  destruct Hd as (Hs & Hrest). destruct (Hs k Hk) as [s E]. rewrite E.
  apply Hf. destruct s; simpl; apply complete_set_str; done.
Qed.

Ltac safe_step :=
  cbv zeta;
  lazymatch goal with
  | |- safe _ (bind (getitem ?k) (fun old => bind (setitem ?k (py_or old ?x)) _)) =>
      apply safe_guarded; [solve_mem |]
  | |- safe _ (bind _ _) => apply safe_bind; [| intros ?]
  | |- safe _ (ret _) => apply safe_ret
  | |- safe _ (setitem _ (VStr _)) =>
      apply safe_setitem; intros ? ?; apply complete_set_str; [solve_mem | assumption]
  | |- safe _ (setitem _ (VList _)) =>
      apply safe_setitem; intros ? ?; apply complete_set_list; [solve_mem | assumption]
  | |- safe _ (if ?b then _ else _) => destruct b
  | |- safe _ (match ?o with _ => _ end) => destruct o
  end.

Lemma education_line_safe line : safe schema_complete (Nlp.education_line line).
Proof. unfold Nlp.education_line. repeat safe_step. Qed.

Lemma parse_education_safe text : safe schema_complete (Nlp.parse_education text).
Proof.
  unfold Nlp.parse_education. destruct (Str.is_empty _); [apply safe_ret |].
  apply safe_for_each, education_line_safe.
Qed.

Lemma set_score_run lower k d (ts : gmap string string) old :
  d !! "testScores" = Some (VDict ts) -> ts !! k = Some old ->
  Nlp.set_score lower k d =
    (Ok tt, <["testScores" := VDict (<[k := new_score lower k old]> ts)]> d).
Proof.
  intros Hd Hk. unfold Nlp.set_score, new_score, bind, getitem, Nlp.subscript, setitem, ret.
  destruct (Str.is_empty _); rewrite ?Hd; simpl; rewrite ?Hk; simpl; by rewrite ?Hd.
Qed.

Lemma set_score_safe lower k :
  k ∈ score_fields -> safe schema_complete (Nlp.set_score lower k).
Proof.
  intros Hk d Hd. pose proof Hd as (_ & _ & ts & Hts & Hsc).
  destruct (Hsc k Hk) as [old Hold].
  rewrite (set_score_run lower k d ts old) by done.
  eexists _, _. split; [done |]. apply complete_set_scores; [| done].
  intros k' Hk'. destruct (decide (k = k')) as [->|Hne].
  - rewrite lookup_insert_eq. by eexists.
  - rewrite lookup_insert_ne by done. by apply Hsc.
Qed.

Lemma parse_test_scores_safe text : safe schema_complete (Nlp.parse_test_scores text).
Proof.
  unfold Nlp.parse_test_scores. cbv zeta.
  repeat (apply safe_bind; [apply set_score_safe; solve_mem | intros _]).
  apply set_score_safe; solve_mem.
Qed.

(** *** Test scores *)

Lemma parse_test_scores_run text d (ts : gmap string string) :
  d !! "testScores" = Some (VDict ts) ->
  (forall k, k ∈ score_fields -> is_Some (ts !! k)) ->
  Nlp.parse_test_scores text d =
    (Ok tt, <["testScores" := VDict (scores_after (Str.lower text) ts)]> d).
Proof.
  intros Hd Hsc.
  destruct (Hsc "gre") as [o1 H1]; [solve_mem |].
  destruct (Hsc "gmat") as [o2 H2]; [solve_mem |].
  destruct (Hsc "sat") as [o3 H3]; [solve_mem |].
  destruct (Hsc "act") as [o4 H4]; [solve_mem |].
  destruct (Hsc "toefl") as [o5 H5]; [solve_mem |].
  destruct (Hsc "ielts") as [o6 H6]; [solve_mem |].
  unfold Nlp.parse_test_scores, scores_after, bind. cbv zeta. simpl foldl.
  rewrite H1, H2, H3, H4, H5, H6. simpl default.
  rewrite (set_score_run _ "gre" d ts o1) by done.
  erewrite (set_score_run _ "gmat" _ _ o2);
    [| apply lookup_insert_eq | by rewrite lookup_insert_ne].
  rewrite insert_insert_eq.
  erewrite (set_score_run _ "sat" _ _ o3);
    [| apply lookup_insert_eq | by rewrite !lookup_insert_ne].
  rewrite insert_insert_eq.
  erewrite (set_score_run _ "act" _ _ o4);
    [| apply lookup_insert_eq | by rewrite !lookup_insert_ne].
  rewrite insert_insert_eq.
  erewrite (set_score_run _ "toefl" _ _ o5);
    [| apply lookup_insert_eq | by rewrite !lookup_insert_ne].
  rewrite insert_insert_eq.
  erewrite (set_score_run _ "ielts" _ _ o6);
    [| apply lookup_insert_eq | by rewrite !lookup_insert_ne].
  by rewrite insert_insert_eq.
Qed.

Lemma scores_after_field lower (ts : gmap string string) k old :
  k ∈ score_fields -> ts !! k = Some old ->
  scores_after lower ts !! k = Some (new_score lower k old).
Proof.
  intros Hk Hold. unfold scores_after. simpl foldl.
  unfold score_fields in Hk.
  repeat (apply elem_of_cons in Hk as [-> | Hk];
          [rewrite ?lookup_insert_eq, ?Hold;
           repeat (rewrite lookup_insert_ne by done);
           by rewrite ?lookup_insert_eq, ?Hold |]).
  by apply elem_of_nil in Hk.
Qed.

Lemma scores_after_other lower (ts : gmap string string) k :
  k ∉ score_fields -> scores_after lower ts !! k = ts !! k.
Proof.
  intros Hk. unfold scores_after. simpl foldl.
  repeat (rewrite lookup_insert_ne;
          [| intros <-; apply Hk; solve_mem]).
  done.
Qed.

Lemma new_score_idem lower k old :
  new_score lower k (new_score lower k old) = new_score lower k old.
Proof. unfold new_score. cbv zeta. by destruct (Str.is_empty _). Qed.

Lemma scores_after_idem lower (ts : gmap string string) :
  (forall k, k ∈ score_fields -> is_Some (ts !! k)) ->
  scores_after lower (scores_after lower ts) = scores_after lower ts.
Proof.
  intros Hsc. apply map_eq. intros k.
  destruct (decide (k ∈ score_fields)) as [Hk|Hk].
  - destruct (Hsc k Hk) as [old Hold].
    rewrite (scores_after_field _ _ k (new_score lower k old)); [| done |].
    + by rewrite new_score_idem, (scores_after_field _ _ k old).
    + by apply scores_after_field.
  - by rewrite !scores_after_other.
Qed.

Lemma isdigit_lower c : Chr.isdigit (Chr.lower c) = Chr.isdigit c.
Proof. destruct c as [[] [] [] [] [] [] [] []]; vm_compute; reflexivity. Qed.

Lemma rep_greedy_stop p hi pos prev rest caps (k : cont) :
  match rest with String c _ => p c = false | EmptyString => True end ->
  rep_greedy p 0 hi pos prev rest caps k = k (MState pos prev rest caps).
Proof. destruct rest as [|c rest]; simpl; [done |]. by intros ->. Qed.

(** The [act] pattern inside "contact". *)
Lemma grab_act_in_contact post :
  no_leading_digit post ->
  Nlp.grab_score (Str.lower ("Contact: 9876543210" ++ post)) "act" = "9876543210".
Proof.
  intros H. rewrite lower_app.
  change (Str.lower "Contact: 9876543210") with "contact: 9876543210".
  assert (H' : match Str.lower post with
               | String c _ => digit c = false
               | EmptyString => True
               end).
  { destruct post as [|c post]; [done |]. rewrite lower_cons.
    unfold digit. by rewrite isdigit_lower. }
  unfold Nlp.grab_score, search. cbv [String.append]. unfold score_regex.
  simpl. unfold match_at. simpl. rewrite rep_greedy_stop by done. simpl.
  unfold group, cap. simpl. by destruct (Str.lower post).
Qed.

(** *** One line of the education section *)

Lemma guarded_keeps k k0 v0 x d v :
  truthy v0 = true -> d !! k0 = Some v0 -> d !! k = Some v ->
  <[k := py_or v x]> d !! k0 = Some v0.
Proof.
  intros Ht H0 Hk. destruct (decide (k = k0)) as [->|Hne].
  - rewrite lookup_insert_eq. rewrite H0 in Hk. injection Hk as <-.
    unfold py_or. by rewrite Ht.
  - by rewrite lookup_insert_ne.
Qed.

Lemma education_line_keeps line k v :
  k ∈ kept_fields -> truthy v = true ->
  stable (fun d => d !! k = Some v) (Nlp.education_line line).
Proof.
  intros Hk Ht. unfold kept_fields in Hk.
  repeat (apply elem_of_cons in Hk as [-> | Hk]); [.. | by apply elem_of_nil in Hk].
  all: unfold Nlp.education_line;
    repeat stable_step ltac:(first
      [ eapply guarded_keeps; eassumption
      | rewrite lookup_insert_ne by done; assumption ]).
Qed.

(** What a line of tier [t] leaves in each field of its tier. *)
Lemma education_line_fields line d t :
  classify line = Some t -> tier_ready t d ->
  let d' := (Nlp.education_line line d).2 in
  d' !! name_key t = (fun v => py_or v (VStr line)) <$> d !! name_key t /\
  (forall k, degree_key t = Some k ->
     d' !! k = (fun v => py_or v (VStr (degree_label t))) <$> d !! k) /\
  (forall k, major_key t = Some k -> d' !! k = overwrite (major_of line) (d !! k)) /\
  d' !! grade_key t = overwrite (fst <$> grade_of line) (d !! grade_key t) /\
  d' !! scale_key t = overwrite (snd <$> grade_of line) (d !! scale_key t) /\
  d' !! year_key t = overwrite (year_of line) (d !! year_key t).
Proof.
  unfold classify, Nlp.education_line, grade_of, year_of, major_of. cbv zeta.
  intros Hc [[vn Hn] Hdeg].
  destruct (Nlp.any_in _ _);
    [| destruct (Nlp.any_in _ _); [| destruct (Nlp.any_in _ _); [| done]]];
    injection Hc as <-; simpl in *.
  - unfold bind, getitem, setitem, ret. rewrite Hn.
    destruct (search PERC_REGEX line), (search CGPA_REGEX line),
             (search YEAR_REGEX line); simpl;
      split_and!; try done;
      repeat (rewrite lookup_insert_ne by done);
      by rewrite ?lookup_insert_eq, ?Hn.
  - destruct Hdeg as [vd Hd]. unfold bind, getitem, setitem, ret. rewrite Hn. simpl.
    rewrite lookup_insert_ne, Hd by done. simpl.
    destruct (search MAJOR_REGEX line), (search PERC_REGEX line),
             (search CGPA_REGEX line), (search YEAR_REGEX line); simpl;
      split_and!; try (intros ? [= <-]);
      repeat (rewrite lookup_insert_ne by done);
      by rewrite ?lookup_insert_eq, ?Hn, ?Hd.
  - destruct Hdeg as [vd Hd]. unfold bind, getitem, setitem, ret. rewrite Hn. simpl.
    rewrite lookup_insert_ne, Hd by done. simpl.
    destruct (search MAJOR_REGEX line), (search PERC_REGEX line),
             (search CGPA_REGEX line), (search YEAR_REGEX line); simpl;
      split_and!; try (intros ? [= <-]);
      repeat (rewrite lookup_insert_ne by done);
      by rewrite ?lookup_insert_eq, ?Hn, ?Hd.
Qed.

(** *** The two loops of the single-section segmenter *)

Lemma find_start_from_spec kws (lowered : list string) : forall i,
  match Nlp.find_start_from i kws lowered with
  | None => forall line, line ∈ lowered -> Nlp.is_heading_of kws line = false
  | Some s =>
      i <= s /\
      (exists h, lowered !! (s - i) = Some h /\ Nlp.is_heading_of kws h = true) /\
      (forall j l, j < s - i -> lowered !! j = Some l ->
                   Nlp.is_heading_of kws l = false)
  end.
Proof.
  induction lowered as [|line lowered IH]; intros i; simpl.
  - intros line Hin. by apply elem_of_nil in Hin.
  - destruct (Nlp.is_heading_of kws line) eqn:E.
    + split_and!; [lia | | intros j l Hj; lia].
      exists line. by rewrite Nat.sub_diag.
    + specialize (IH (S i)). destruct (Nlp.find_start_from (S i) kws lowered) as [s|].
      * destruct IH as (Hle & (h & Hh & Hhead) & Hbefore). split_and!; [lia | |].
        -- exists h. split; [| done].
           replace (s - i) with (S (s - S i)) by lia. done.
        -- intros j l Hj Hl. destruct j as [|j]; simpl in Hl.
           ++ by injection Hl as <-.
           ++ apply (Hbefore j); [lia | done].
      * intros l Hin. apply elem_of_cons in Hin as [-> | Hin]; [done | by apply IH].
Qed.

Lemma find_end_from_spec (rest : list string) : forall j,
  let e := Nlp.find_end_from j rest in
  j <= e <= j + length rest /\
  (forall i l, rest !! i = Some l -> j + i < e -> Nlp.ends_block (Str.strip l) = false) /\
  (e < j + length rest ->
   exists l, rest !! (e - j) = Some l /\ Nlp.ends_block (Str.strip l) = true).
Proof.
  induction rest as [|raw rest IH]; intros j; simpl.
  - split_and!; [lia | lia | done | lia].
  - destruct (Nlp.ends_block (Str.strip raw)) eqn:E.
    + split_and!; [lia | lia | intros i l _ Hi; lia |].
      intros _. exists raw. by rewrite Nat.sub_diag.
    + destruct (IH (S j)) as ((Hlo & Hhi) & Hbefore & Hat). split_and!; [lia | lia | |].
      * intros i l Hl Hi. destruct i as [|i]; simpl in Hl.
        -- by injection Hl as <-.
        -- apply (Hbefore i); [done | lia].
      * intros He. destruct Hat as (l & Hl & Hends); [lia |].
        exists l. split; [| done].
        replace (Nlp.find_end_from (S j) rest - j)
          with (S (Nlp.find_end_from (S j) rest - S j)) by lia.
        done.
Qed.

(** *** Loops that return at the first hit *)

Lemma find_first {A} (P : A -> bool) (l : list A) :
  match List.find P l with
  | Some x => first_among (length l) P l x
  | None => none_among (length l) P l
  end.
Proof.
  induction l as [|a l IH]; simpl.
  - intros i y Hi. lia.
  - destruct (P a) eqn:E.
    + exists 0. split_and!; [lia | done | done | intros j y Hj; lia].
    + destruct (List.find P l) as [x|].
      * destruct IH as (i & Hi & Hx & HP & Hbefore).
        exists (S i). split_and!; [lia | done | done |].
        intros [|j] y Hj Hy; simpl in Hy; [by injection Hy as <- |].
        apply (Hbefore j); [lia | done].
      * intros [|i] y Hi Hy; simpl in Hy; [by injection Hy as <- |].
        apply (IH i); [lia | done].
Qed.

(** The same for the first [n] elements of a list. *)
Lemma find_first_take {A} (P : A -> bool) (n : nat) (l : list A) :
  match List.find P (take n l) with
  | Some x => first_among n P l x
  | None => none_among n P l
  end.
Proof.
  pose proof (find_first P (take n l)) as H.
  destruct (List.find P (take n l)) as [x|].
  - destruct H as (i & Hi & Hx & HP & Hbefore).
    rewrite length_take in Hi.
    exists i. split_and!; [lia | | done |].
    + by rewrite lookup_take_lt in Hx by lia.
    + intros j y Hj Hy. apply (Hbefore j); [done |].
      by rewrite lookup_take_lt by lia.
  - intros i y Hi Hy. apply (H i); [| by rewrite lookup_take_lt].
    rewrite length_take. apply lookup_lt_Some in Hy. lia.
Qed.

Lemma guess_name_loop_find lines :
  App1.guess_name_loop lines
  = Str.strip <$> List.find (fun line => app1_name_like (Str.strip line)) lines.
Proof.
  induction lines as [|line lines IH]; simpl; [done |].
  unfold app1_name_like at 1. unfold App1.matched.
  destruct (Str.is_empty (Str.strip line)); simpl; [done |].
  destruct (Nlp.matched (search EMAIL_REGEX _)); simpl; [done |].
  destruct (Nlp.matched (search URL_REGEX _)); simpl; [done |].
  destruct (Nlp.matched (search PHONE_REGEX _)); simpl; [done |].
  destruct (length (Str.split (Str.strip line))) as [|[|n]]; simpl; [done | done |].
  by destruct (Nat.leb n 2 && _).
Qed.

Lemma search_digit s : Nlp.matched (search (Chr1 digit) s) = Str.str_exists Chr.isdigit s.
Proof.
  unfold search. generalize 0 as pos, (None : option ascii) as prev.
  induction s as [|c s IH]; intros pos prev; simpl; [done |].
  unfold match_at. simpl. unfold digit at 1.
  destruct (Chr.isdigit c); simpl; [done | apply IH].
Qed.

Lemma extract_name_loop_find lines :
  Nlp.extract_name_loop lines = default "" (List.find nlp_name_like lines).
Proof.
  induction lines as [|line lines IH]; simpl; [done |].
  unfold nlp_name_like at 1. rewrite search_digit.
  destruct (Str.contains "@" line); simpl; [done |].
  destruct (Str.str_exists Chr.isdigit line); simpl; [done |].
  destruct (length (Str.split line)) as [|[|n]]; simpl; [done | done |].
  by destruct (Nat.leb n 2).
Qed.

Lemma extract_phone_loop_spec (matches : list (string * string)) :
  match App1.extract_phone_loop matches with
  | Some phone =>
      exists before m after,
        matches = (before ++ m :: after)%list /\
        Forall (fun m' => ~ accepted (candidate_of m')) before /\
        accepted (candidate_of m) /\
        phone = Str.strip (candidate_of m)
  | None => Forall (fun m' => ~ accepted (candidate_of m')) matches
  end.
Proof.
  induction matches as [|m matches IH]; [by constructor |].
  cbn [App1.extract_phone_loop]. cbv zeta. fold (candidate_of m).
  destruct (Nat.leb 10 (String.length (App1.digits_of (candidate_of m)))
            && Nat.leb (String.length (App1.digits_of (candidate_of m))) 13) eqn:E.
  - apply andb_true_iff in E as [E1 E2].
    apply Nat.leb_le in E1, E2.
    exists [], m, matches. by split_and!.
  - assert (Hrej : ~ accepted (candidate_of m)).
    { intros [H1 H2]. apply Nat.leb_le in H1, H2. by rewrite H1, H2 in E. }
    destruct (App1.extract_phone_loop matches) as [phone|].
    + destruct IH as (before & m' & after & -> & Hbefore & Hacc & ->).
      exists (m :: before), m', after. split_and!; [done | by constructor | done | done].
    + by constructor.
Qed.

(** *** What a match is made of *)

Lemma str_app_assoc (a b c : string) : (a ++ b) ++ c = a ++ b ++ c.
Proof. induction a as [|x a IH]; [done |]. by rewrite !str_app_cons, IH. Qed.

Lemma str_length_app (a b : string) :
  String.length (a ++ b) = String.length a + String.length b.
Proof. induction a as [|x a IH]; [done |]. rewrite str_app_cons. simpl. by rewrite IH. Qed.

Lemma substring_all (s post : string) :
  String.substring 0 (String.length s) (s ++ post) = s.
Proof.
  induction s as [|c s IH].
  - by destruct post.
  - rewrite str_app_cons. simpl. by rewrite IH.
Qed.

Lemma substring_mid (pre s post : string) :
  String.substring (String.length pre) (String.length s) (pre ++ s ++ post) = s.
Proof.
  induction pre as [|c pre IH].
  - exact (substring_all s post).
  - rewrite str_app_cons. simpl. apply IH.
Qed.

Lemma rep_greedy_sound p : forall rest lo hi pos prev caps (k : cont) res,
  rep_greedy p lo hi pos prev rest caps k = Some res ->
  exists s rest' prev',
    rest = s ++ rest' /\ Str.str_forall p s = true /\ lo <= String.length s /\
    match hi with Some h => String.length s <= h | None => True end /\
    k (MState (pos + String.length s) prev' rest' caps) = Some res.
Proof.
  induction rest as [|c rest IH]; intros lo hi pos prev caps k0 res H; simpl in H.
  - destruct lo; [| done]. exists "", "", prev. simpl. rewrite Nat.add_0_r.
    split_and!; try done. by destruct hi; [lia |].
  - assert (Hstop : match lo with 0 => k0 (MState pos prev (String c rest) caps) | S _ => None end
                    = Some res ->
            exists s rest' prev',
              String c rest = s ++ rest' /\ Str.str_forall p s = true /\
              lo <= String.length s /\
              match hi with Some h => String.length s <= h | None => True end /\
              k0 (MState (pos + String.length s) prev' rest' caps) = Some res).
    { intros Hs. destruct lo; [| done]. exists "", (String c rest), prev. simpl.
      rewrite Nat.add_0_r. split_and!; try done. by destruct hi; [lia |]. }
    destruct (p c && more_allowed hi) eqn:E; [| by apply Hstop].
    apply andb_true_iff in E as [Ep Ehi].
    destruct (rep_greedy p (pred lo) (pred <$> hi) (S pos) (Some c) rest caps k0)
      as [r|] eqn:Er; [| by apply Hstop].
    injection H as ->.
    apply IH in Er as (s & rest' & prev' & -> & Hall & Hlo & Hhi & Hk).
    exists (String c s), rest', prev'. simpl. rewrite Ep, Hall.
    replace (pos + S (String.length s)) with (S pos + String.length s) by lia.
    split_and!; try done; [lia |].
    destruct hi as [[|h]|]; simpl in *; [done | lia | done].
Qed.

Lemma rmatch_sound r : forall st (k : cont) res,
  rmatch r st k = Some res ->
  exists st' s,
    span st st' s /\ lang r s /\ (nogrp r = true -> m_caps st' = m_caps st) /\
    k st' = Some res.
Proof.
  unfold span.
  induction r as [| p | r1 IH1 r2 IH2 | r1 IH1 r2 IH2 | r1 IH1 | p lo hi | n r1 IH1 | | | ];
    intros st k0 res H; simpl in H.
  - exists st, "". by rewrite Nat.add_0_r.
  - destruct (m_rest st) as [|c rest'] eqn:E; [done |].
    destruct (p c) eqn:Ep; [| done].
    exists (MState (S (m_pos st)) (Some c) rest' (m_caps st)), (String c "").
    simpl. split_and!; [done | lia | by exists c | done | done].
  - apply IH1 in H as (st1 & s1 & [Hr1 Hp1] & Hl1 & Hc1 & H).
    apply IH2 in H as (st2 & s2 & [Hr2 Hp2] & Hl2 & Hc2 & H).
    exists st2, (s1 ++ s2). simpl. split_and!.
    + by rewrite Hr1, Hr2, str_app_assoc.
    + rewrite str_length_app. lia.
    + by exists s1, s2.
    + intros [H1 H2]%andb_true_iff. by rewrite Hc2, Hc1.
    + done.
  - destruct (rmatch r1 st k0) as [r|] eqn:E.
    + injection H as ->. apply IH1 in E as (st' & s & Hs & Hl & Hc & Hk).
      exists st', s. split; [done |]. split; [by left |]. split; [| done].
      simpl. intros [H1 H2]%andb_true_iff. by apply Hc.
    + apply IH2 in H as (st' & s & Hs & Hl & Hc & Hk).
      exists st', s. split; [done |]. split; [by right |]. split; [| done].
      simpl. intros [H1 H2]%andb_true_iff. by apply Hc.
  - destruct (rmatch r1 st k0) as [r|] eqn:E.
    + injection H as ->. apply IH1 in E as (st' & s & Hs & Hl & Hc & Hk).
      exists st', s. split; [done |]. split; [by right |]. by split.
    + exists st, "". simpl. rewrite Nat.add_0_r.
      split; [done |]. split; [by left |]. by split.
  - apply rep_greedy_sound in H as (s & rest' & prev' & Hrest & Hall & Hlo & Hhi & Hk).
    exists (MState (m_pos st + String.length s) prev' rest' (m_caps st)), s.
    simpl. by split_and!.
  - apply IH1 in H as (st1 & s & [Hr Hp] & Hl & _ & Hk).
    exists (MState (m_pos st1) (m_prev st1) (m_rest st1)
                   ((n, (m_pos st, m_pos st1)) :: m_caps st1)), s.
    simpl. by split_and!.
  - destruct (Nat.eqb (m_pos st) 0); [| done].
    exists st, "". by rewrite Nat.add_0_r.
  - destruct (at_eol st); [| done].
    exists st, "". by rewrite Nat.add_0_r.
  - destruct (xorb _ _); [| done].
    exists st, "". by rewrite Nat.add_0_r.
Qed.

(** A search that succeeds has found a place where the pattern matches. *)
Lemma search_from_at r : forall rest pos prev m,
  search_from r pos prev rest = Some m ->
  exists pre rest' prev',
    rest = pre ++ rest' /\
    match_at r Some (pos + String.length pre) prev' rest' = Some m.
Proof.
  induction rest as [|c rest IH]; intros pos prev m H; simpl in H.
  - destruct (match_at r Some pos prev "") as [m'|] eqn:E; [| done].
    injection H as ->. exists "", "", prev. simpl. by rewrite Nat.add_0_r.
  - destruct (match_at r Some pos prev (String c rest)) as [m'|] eqn:E.
    + injection H as ->. exists "", (String c rest), prev. simpl. by rewrite Nat.add_0_r.
    + apply IH in H as (pre & rest' & prev' & -> & H).
      exists (String c pre), rest', prev'. simpl.
      by replace (pos + S (String.length pre)) with (S pos + String.length pre) by lia.
Qed.

(** The text of a match found by [search], and what it is made of. *)
Lemma search_sound r text m :
  search r text = Some m ->
  exists pre s post,
    text = pre ++ s ++ post /\ lang r s /\ group0 text m = s /\
    mo_start m = String.length pre /\ mo_end m = String.length pre + String.length s.
Proof.
  intros H. apply search_from_at in H as (pre & rest & prev & -> & H).
  unfold match_at in H.
  destruct (rmatch r _ Some) as [st|] eqn:E; [| done]. injection H as <-.
  apply rmatch_sound in E as (st' & s & [Hr Hp] & Hl & _ & [= ->]).
  simpl in Hr, Hp. exists pre, s, (m_rest st). unfold group0. simpl.
  rewrite Hr, Hp. split_and!; try done.
  replace (String.length pre + String.length s - String.length pre)
    with (String.length s) by lia.
  apply substring_mid.
Qed.

(** *** Whitespace runs *)

Lemma rep_greedy_run p : forall rest lo pos prev caps,
  (fun st => (m_pos st, m_caps st)) <$> rep_greedy p lo None pos prev rest caps Some
  = if Nat.leb lo (run p rest) then Some (pos + run p rest, caps) else None.
Proof.
  induction rest as [|c rest IH]; intros lo pos prev caps; simpl.
  - destruct lo; simpl; [by rewrite Nat.add_0_r | done].
  - destruct (p c); simpl.
    + specialize (IH (pred lo) (S pos) (Some c) caps).
      destruct (rep_greedy p (pred lo) None (S pos) (Some c) rest caps Some) as [r|];
        simpl in IH.
      * destruct (Nat.leb (pred lo) (run p rest)) eqn:E; [| done].
        injection IH as Hp Hc. simpl. rewrite Hp, Hc.
        apply Nat.leb_le in E.
        replace (Nat.leb lo (S (run p rest))) with true
          by (symmetry; apply Nat.leb_le; lia).
        f_equal. f_equal. lia.
      * destruct (Nat.leb (pred lo) (run p rest)) eqn:E; [done |].
        apply Nat.leb_gt in E. destruct lo as [|lo]; [simpl in E; lia |].
        simpl. simpl in E.
        by replace (Nat.leb lo (run p rest)) with false
          by (symmetry; apply Nat.leb_gt; lia).
    + destruct lo; simpl; [by rewrite Nat.add_0_r | done].
Qed.

Lemma match_at_plus p pos prev rest :
  match_at (plus p) Some pos prev rest
  = match run p rest with
    | 0 => None
    | S n => Some (Match pos (pos + S n) [])
    end.
Proof.
  unfold match_at, plus. simpl.
  pose proof (rep_greedy_run p rest 1 pos prev []) as H.
  destruct (rep_greedy p 1 None pos prev rest [] Some) as [st|]; simpl in H.
  - destruct (run p rest) as [|n]; simpl in H; [done |].
    injection H as -> ->. done.
  - by destruct (run p rest).
Qed.

Lemma sub_spaces_collapse rest :
  (forall pos prev, sub_from (plus space) " " 0 pos prev rest = collapse false rest) /\
  (forall pos prev,
     sub_from (plus space) " " (run space rest) pos prev rest = collapse true rest).
Proof.
  unfold space. induction rest as [|c rest [IH0 IH1]].
  - split; intros pos prev; cbn [sub_from run collapse]; by rewrite match_at_plus.
  - assert (H0 : forall pos prev,
      sub_from (plus Chr.isspace) " " 0 pos prev (String c rest)
      = collapse false (String c rest)).
    { intros pos prev. cbn [sub_from]. rewrite match_at_plus. cbn [run collapse].
      destruct (Chr.isspace c) eqn:E.
      - cbn [mo_end]. replace (Nat.eqb (pos + S (run Chr.isspace rest)) pos) with false
          by (symmetry; apply Nat.eqb_neq; lia).
        replace (pos + S (run Chr.isspace rest) - S pos) with (run Chr.isspace rest)
          by lia.
        by rewrite IH1.
      - by rewrite IH0. }
    split; [exact H0 |].
    intros pos prev. specialize (H0 pos prev). cbn [run collapse] in *.
    destruct (Chr.isspace c) eqn:E.
    + cbn [sub_from]. apply IH1.
    + exact H0.
Qed.

Lemma sub_spaces text : sub (plus space) " " text = collapse false text.
Proof. apply sub_spaces_collapse. Qed.

(** *** Words *)

Lemma split_from_nonempty : forall s cur,
  Forall (fun w => Str.is_empty w = false) (Str.split_from cur s).
Proof.
  induction s as [|c s IH]; intros cur; simpl.
  - destruct (Str.is_empty cur) eqn:E; [constructor | by repeat constructor].
  - destruct (Chr.isspace c).
    + destruct (Str.is_empty cur) eqn:E; [apply IH | constructor; [done | apply IH]].
    + apply IH.
Qed.

Lemma join_nonempty (l : list string) :
  Forall (fun w => Str.is_empty w = false) l ->
  Str.is_empty (Str.join " " l) = match l with [] => true | _ => false end.
Proof.
  intros H. destruct l as [|w l]; [done |].
  apply Forall_cons in H as [Hw _].
  destruct w as [|c w]; [done |]. by destruct l.
Qed.

Lemma join_cons (w : string) (l : list string) :
  Forall (fun w => Str.is_empty w = false) l ->
  Str.join " " (w :: l)
  = w ++ (if Str.is_empty (Str.join " " l) then "" else " " ++ Str.join " " l).
Proof.
  intros H. rewrite join_nonempty by done.
  destruct l as [|x l]; simpl; [by rewrite str_app_nil_r | done].
Qed.

Lemma split_from_word : forall s cur,
  Str.is_empty cur = false ->
  Str.join " " (Str.split_from cur s) = cur ++ words_tail s.
Proof.
  induction s as [|c s IH]; intros cur Hcur; simpl.
  - rewrite Hcur. simpl. by rewrite str_app_nil_r.
  - destruct (Chr.isspace c).
    + rewrite Hcur. apply join_cons, split_from_nonempty.
    + rewrite IH by (by destruct cur). by rewrite str_app_assoc.
Qed.

Lemma split_words_cons c s :
  Str.join " " (Str.split (String c s))
  = if Chr.isspace c then Str.join " " (Str.split s) else String c (words_tail s).
Proof.
  unfold Str.split. simpl. destruct (Chr.isspace c); [done |].
  by rewrite split_from_word.
Qed.

Lemma rstrip_cons_keep (p : ascii -> bool) c s :
  p c = false -> Str.rstrip_of p (String c s) = String c (Str.rstrip_of p s).
Proof. intros H. simpl. by rewrite H, andb_false_r. Qed.

Lemma rstrip_collapse s :
  Str.rstrip_of Chr.isspace (collapse false s) = words_tail s /\
  Str.rstrip_of Chr.isspace (collapse true s) = Str.join " " (Str.split s).
Proof.
  induction s as [|c s [IHf IHt]]; [done |].
  rewrite split_words_cons. cbn [collapse words_tail].
  destruct (Chr.isspace c) eqn:E.
  - split; [| done]. cbn [Str.rstrip_of]. rewrite IHt.
    destruct (Str.is_empty _); [done |]. simpl. done.
  - by rewrite !rstrip_cons_keep, IHf.
Qed.

Lemma lstrip_collapse_true s :
  Str.lstrip_of Chr.isspace (collapse true s) = collapse true s.
Proof.
  induction s as [|c s IH]; [done |]. cbn [collapse].
  destruct (Chr.isspace c) eqn:E; [done |]. simpl. by rewrite E.
Qed.

Lemma strip_collapse s :
  Str.strip (collapse false s) = Str.join " " (Str.split s).
Proof.
  unfold Str.strip, Str.strip_of. destruct s as [|c s]; [done |].
  rewrite split_words_cons. cbn [collapse].
  destruct (Chr.isspace c) eqn:E.
  - cbn [Str.lstrip_of].
    replace (Chr.isspace " ") with true by (vm_compute; reflexivity).
    rewrite lstrip_collapse_true. apply rstrip_collapse.
  - cbn [Str.lstrip_of]. rewrite E. rewrite rstrip_cons_keep by done.
    f_equal. apply rstrip_collapse.
Qed.

(** *** Shapes of the matches *)

Lemma lang_lit1 c s : lang (lit1 c) s -> s = String c "".
Proof. intros (x & -> & H). by apply Ascii.eqb_eq in H as ->. Qed.

Lemma length_nonempty (s : string) : 1 <= String.length s -> s <> "".
Proof. intros H ->. simpl in H. lia. Qed.

Lemma email_match text m :
  search EMAIL_REGEX text = Some m ->
  email_shaped (group0 text m) /\ occurs_in (group0 text m) text.
Proof.
  intros H. apply search_sound in H as (pre & s & post & -> & Hl & -> & _).
  split; [| by exists pre, post].
  destruct Hl as (loc & s1 & -> & (Hloc & Hn1 & _) & at_ & s2 & -> & Hat
                  & dom & s3 & -> & (Hdom & Hn2 & _) & dot & tld & -> & Hdot
                  & (Htld & Hn3 & _)).
  apply lang_lit1 in Hat as ->. apply lang_lit1 in Hdot as ->.
  exists loc, dom, tld. split_and!; try done.
  - by apply length_nonempty.
  - by apply length_nonempty.
Qed.

Lemma rstrip_snoc_keep (p : ascii -> bool) (a : string) c :
  p c = false -> Str.rstrip_of p (a ++ String c "") = a ++ String c "".
Proof.
  intros H. induction a as [|x a IH].
  - change ("" ++ String c "") with (String c ""). simpl. by rewrite H.
  - rewrite str_app_cons. cbn [Str.rstrip_of]. rewrite IH.
    by destruct a.
Qed.

Lemma digit_not_space c : Chr.isdigit c = true -> Chr.isspace c = false.
Proof. destruct c as [[] [] [] [] [] [] [] []]; vm_compute; congruence. Qed.

Lemma nlp_phone_match text m :
  search NLP_PHONE_REGEX text = Some m ->
  nlp_phone_shaped (group0 text m) /\ occurs_in (group0 text m) text /\
  Str.strip (group0 text m) = group0 text m.
Proof.
  intros H. apply search_sound in H as (pre & s & post & -> & Hl & -> & _).
  destruct Hl as (sign & s1 & -> & Hsign & d1 & s2 & -> & (first & -> & Hfirst)
                  & middle & d2 & -> & (Hmid & Hlen & _) & (last & -> & Hlast)).
  assert (Hs : sign = "" \/ sign = "+").
  { destruct Hsign as [-> | H]; [by left | right]. by apply lang_lit1 in H. }
  split_and!.
  - by exists sign, first, middle, last.
  - by exists pre, post.
  - unfold Str.strip, Str.strip_of.
    assert (Hl : Str.lstrip_of Chr.isspace (sign ++ String first "" ++ middle ++ String last "")
                 = sign ++ String first "" ++ middle ++ String last "").
    { destruct Hs as [-> | ->].
      - change ("" ++ String first "" ++ middle ++ String last "")
          with (String first (middle ++ String last "")).
        simpl. by rewrite (digit_not_space first).
      - reflexivity. }
    rewrite Hl.
    rewrite <- (str_app_assoc (String first "") middle), <- str_app_assoc.
    apply rstrip_snoc_keep. by apply digit_not_space.
Qed.

Lemma year_match line m :
  search YEAR_REGEX line = Some m -> year_like (group0 line m).
Proof.
  intros H. apply search_sound in H as (pre & s & post & -> & Hl & -> & _).
  destruct Hl as (b1 & s1 & -> & -> & century & s2 & -> & Hc & rest & b2 & -> & Hr & ->).
  exists century, rest. rewrite str_app_nil_r.
  destruct Hr as (Hall & Hlo & Hhi). split_and!; try done; [| simpl in *; lia].
  destruct Hc as [Hc | Hc]; [left | right];
    destruct Hc as (a & b & -> & Ha & Hb);
    apply lang_lit1 in Ha as ->; by apply lang_lit1 in Hb as ->.
Qed.

(** *** Groups *)

Lemma anchored_span text st st' s :
  anchored text st -> span st st' s -> anchored text st'.
Proof.
  intros (pre & -> & Hlen) [Hr Hp]. exists (pre ++ s). split.
  - by rewrite Hr, str_app_assoc.
  - rewrite str_length_app. lia.
Qed.

Lemma seq_sound r1 r2 st (k0 : cont) res :
  rmatch (Seq r1 r2) st k0 = Some res ->
  exists st1 s1, span st st1 s1 /\ lang r1 s1 /\ rmatch r2 st1 k0 = Some res.
Proof.
  simpl. intros H. apply rmatch_sound in H as (st1 & s1 & Hs & Hl & _ & H).
  by exists st1, s1.
Qed.

Lemma anchored_substring text st st' s :
  anchored text st -> span st st' s ->
  String.substring (m_pos st) (m_pos st' - m_pos st) text = s.
Proof.
  intros (pre & -> & Hlen) [Hr Hp]. rewrite Hr, Hp, <- Hlen.
  replace (String.length pre + String.length s - String.length pre)
    with (String.length s) by lia.
  apply substring_mid.
Qed.

(** The digits of a score are what its group has taken. *)
Lemma grab_score_digits lower keyword :
  Str.str_forall Chr.isdigit (Nlp.grab_score lower keyword) = true.
Proof.
  unfold Nlp.grab_score. destruct (search _ lower) as [m|] eqn:E; [| done].
  apply search_from_at in E as (pre & rest & prev & -> & E).
  unfold match_at in E.
  destruct (rmatch _ _ Some) as [res|] eqn:Er; [| done]. injection E as <-.
  set (st0 := MState (0 + String.length pre) prev rest []) in Er.
  assert (A0 : anchored (pre ++ rest) st0) by (by exists pre).
  unfold score_regex in Er. cbn [seq] in Er.
  apply seq_sound in Er as (st1 & s1 & Sp1 & _ & Er).
  apply seq_sound in Er as (st2 & s2 & Sp2 & _ & Er).
  apply seq_sound in Er as (st3 & s3 & Sp3 & _ & Er).
  apply seq_sound in Er as (st4 & s4 & Sp4 & _ & Er).
  pose proof (anchored_span _ _ _ _ (anchored_span _ _ _ _
    (anchored_span _ _ _ _ (anchored_span _ _ _ _ A0 Sp1) Sp2) Sp3) Sp4) as A4.
  cbn [rmatch] in Er.
  apply rmatch_sound in Er as (st5 & s5 & Sp5 & (Hall & _) & _ & [= <-]).
  unfold group, cap. simpl.
  by rewrite (anchored_substring _ _ _ _ A4 Sp5).
Qed.

(** *** Invariants of one field *)

Lemma holds_at_insert_ne k k' (P : value -> Prop) v d :
  k' <> k -> holds_at k P d -> holds_at k P (<[k' := v]> d).
Proof. intros Hne (v0 & Hv & HP). exists v0. by rewrite lookup_insert_ne. Qed.

Lemma holds_at_insert_eq k (P : value -> Prop) v d :
  P v -> holds_at k P (<[k := v]> d).
Proof. intros HP. exists v. by rewrite lookup_insert_eq. Qed.

Lemma holds_at_guarded k (P : value -> Prop) v x d :
  holds_at k P d -> d !! k = Some v -> P x -> holds_at k P (<[k := py_or v x]> d).
Proof.
  intros (v0 & Hv0 & HP) Hv Hx. rewrite Hv0 in Hv. injection Hv as <-.
  apply holds_at_insert_eq. unfold py_or. by destruct (truthy v0).
Qed.

(** A step through a parser that remembers what each test found. *)
Ltac inv_step side :=
  cbv zeta;
  lazymatch goal with
  | |- stable _ (bind (getitem ?k) (fun old => bind (setitem ?k (py_or old ?x)) _)) =>
      apply stable_guarded; [intros ? ? ? ?; side |]
  | |- stable _ (bind _ _) => apply stable_bind; [| intros ?]
  | |- stable _ (ret _) => apply stable_ret
  | |- stable _ (raise _) => apply stable_raise
  | |- stable _ (getitem _) => apply stable_getitem
  | |- stable _ (setitem _ _) => apply stable_setitem; intros ? ?; side
  | |- stable _ (if ?b then _ else _) => destruct b eqn:?
  | |- stable _ (match ?o with _ => _ end) => destruct o eqn:?
  end.

Ltac holds_side solveP :=
  first [ apply holds_at_insert_ne; [done | assumption]
        | eapply holds_at_guarded; [eassumption | eassumption | solveP]
        | apply holds_at_insert_eq; solveP ].

Lemma parse_education_stable (I : gmap string value -> Prop) text :
  (forall line, stable I (Nlp.education_line line)) ->
  stable I (Nlp.parse_education text).
Proof.
  intros H. unfold Nlp.parse_education.
  destruct (Str.is_empty _); [apply stable_ret | by apply stable_for_each].
Qed.

Lemma set_score_frame lower name k0 (o : option value) :
  k0 <> "testScores" -> stable (fun d => d !! k0 = o) (Nlp.set_score lower name).
Proof.
  intros Hne. unfold Nlp.set_score, Nlp.subscript.
  repeat stable_step ltac:(rewrite lookup_insert_ne by done; assumption).
Qed.

Lemma parse_test_scores_frame text k0 (o : option value) :
  k0 <> "testScores" -> stable (fun d => d !! k0 = o) (Nlp.parse_test_scores text).
Proof.
  intros Hne. unfold Nlp.parse_test_scores. cbv zeta.
  repeat (apply stable_bind; [by apply set_score_frame | intros _]).
  by apply set_score_frame.
Qed.

Lemma frame_holds {A} (m : M A) k (P : value -> Prop) :
  (forall o, stable (fun d => d !! k = o) m) -> stable (holds_at k P) m.
Proof.
  intros H d (v & Hv & HP). exists v. split; [| done]. by apply (H (Some v)).
Qed.

(** The pipeline after its nine plain stores. *)
Lemma build_body_unfold text d :
  exists d0,
    Nlp.build_structured_data_body text d
    = (Nlp.parse_education text ;; Nlp.parse_test_scores text) d0 /\
    d0 !! "name" = Some (VStr (Nlp.extract_name text)) /\
    d0 !! "email" = Some (VStr (Nlp.extract_email text)) /\
    d0 !! "phoneNumber" = Some (VStr (Nlp.extract_phone text)) /\
    d0 !! "workExperience"
      = Some (VList (Nlp.section_to_list (Nlp.find_section_block text
           ["experience"; "work experience"; "professional experience"]))) /\
    d0 !! "certifications"
      = Some (VList (Nlp.section_to_list (Nlp.find_section_block text
           ["certifications"; "certification"]))) /\
    d0 !! "extraCurricularActivities"
      = Some (VList (Nlp.section_to_list (Nlp.find_section_block text
           ["extra curricular"; "extracurricular"; "activities"]))) /\
    d0 !! "achievements"
      = Some (VList (Nlp.section_to_list (Nlp.find_section_block text
           ["achievements"; "accomplishments"]))) /\
    d0 !! "researchPublications"
      = Some (VList (Nlp.section_to_list (Nlp.find_section_block text
           ["publications"; "research"; "research publications"]))) /\
    d0 !! "skills" = Some (VList (Nlp.extract_skills text)) /\
    forall k0, k0 ∈ education_fields \/ k0 = "testScores" -> d0 !! k0 = d !! k0.
Proof.
  exists (<["skills" := VList (Nlp.extract_skills text)]>
    (<["researchPublications" := VList (Nlp.section_to_list (Nlp.find_section_block text
         ["publications"; "research"; "research publications"]))]>
    (<["achievements" := VList (Nlp.section_to_list (Nlp.find_section_block text
         ["achievements"; "accomplishments"]))]>
    (<["extraCurricularActivities" := VList (Nlp.section_to_list (Nlp.find_section_block text
         ["extra curricular"; "extracurricular"; "activities"]))]>
    (<["certifications" := VList (Nlp.section_to_list (Nlp.find_section_block text
         ["certifications"; "certification"]))]>
    (<["workExperience" := VList (Nlp.section_to_list (Nlp.find_section_block text
         ["experience"; "work experience"; "professional experience"]))]>
    (<["phoneNumber" := VStr (Nlp.extract_phone text)]>
    (<["email" := VStr (Nlp.extract_email text)]>
    (<["name" := VStr (Nlp.extract_name text)]> d))))))))).
  split; [reflexivity |].
  split_and!; try (repeat (rewrite lookup_insert_ne by done); by rewrite lookup_insert_eq).
  intros k0 Hk.
  repeat (rewrite lookup_insert_ne;
    [| intros <-; destruct Hk as [Hk | Hk]; [revert Hk; apply (bool_decide_unpack _); by vm_compute | done]]).
  done.
Qed.

(** An invariant of one education field, or of the scores, holds of what
    the pipeline returns once both parsers keep it. *)
Lemma build_invariant text k0 (P : value -> Prop) r :
  k0 ∈ education_fields \/ k0 = "testScores" ->
  holds_at k0 P empty_resume_schema ->
  stable (holds_at k0 P) (Nlp.parse_education text) ->
  stable (holds_at k0 P) (Nlp.parse_test_scores text) ->
  Nlp.build_structured_data text = Ok r -> holds_at k0 P r.
Proof.
  intros Hk H0 He Hs Hr. unfold Nlp.build_structured_data in Hr.
  destruct (build_body_unfold text empty_resume_schema) as (d0 & E & Hd0).
  rewrite E in Hr.
  assert (I0 : holds_at k0 P d0).
  { destruct H0 as (v0 & Hv0 & HP). exists v0. split; [| done].
    destruct Hd0 as (_ & _ & _ & _ & _ & _ & _ & _ & _ & Hf). by rewrite Hf. }
  assert (St : stable (holds_at k0 P) (Nlp.parse_education text ;; Nlp.parse_test_scores text))
    by (apply stable_bind; [done | by intros _]).
  specialize (St d0 I0).
  destruct ((Nlp.parse_education text ;; Nlp.parse_test_scores text) d0) as [[a|e] d1];
    [| done].
  by injection Hr as <-.
Qed.

(** *** What the parsers keep *)

Lemma set_score_digits lower name :
  stable (holds_at "testScores" scores_are_digits) (Nlp.set_score lower name).
Proof.
  intros d (v & Hv & ts & -> & Hts).
  unfold Nlp.set_score, Nlp.subscript, bind, getitem, setitem, ret, raise.
  destruct (Str.is_empty (Nlp.grab_score lower name)) eqn:E; rewrite Hv; simpl.
  - destruct (ts !! name) as [old|] eqn:Eo; simpl;
      [| exists (VDict ts); split; [done | by exists ts]].
    rewrite Hv. simpl. apply holds_at_insert_eq. eexists. split; [done |].
    intros n s Hn. destruct (decide (name = n)) as [<- | Hne].
    + rewrite lookup_insert_eq in Hn. injection Hn as <-. by apply (Hts name).
    + rewrite lookup_insert_ne in Hn by done. by apply (Hts n).
  - apply holds_at_insert_eq. eexists. split; [done |].
    intros n s Hn. destruct (decide (name = n)) as [<- | Hne].
    + rewrite lookup_insert_eq in Hn. injection Hn as <-. apply grab_score_digits.
    + rewrite lookup_insert_ne in Hn by done. by apply (Hts n).
Qed.

Lemma parse_test_scores_digits text :
  stable (holds_at "testScores" scores_are_digits) (Nlp.parse_test_scores text).
Proof.
  unfold Nlp.parse_test_scores. cbv zeta.
  repeat (apply stable_bind; [apply set_score_digits | intros _]).
  apply set_score_digits.
Qed.

Lemma education_line_tier_frame line t k0 (o : option value) :
  classify line = Some t -> k0 ∉ tier_fields t ->
  stable (fun d => d !! k0 = o) (Nlp.education_line line).
Proof.
  unfold classify, Nlp.education_line. cbv zeta. intros Hc Hout.
  destruct (Nlp.any_in _ _);
    [| destruct (Nlp.any_in _ _); [| destruct (Nlp.any_in _ _); [| done]]];
    injection Hc as <-;
    repeat stable_step ltac:(eapply insert_other_key;
                             [| exact Hout | eassumption]; solve_mem).
Qed.

Lemma education_line_unclassified line d :
  classify line = None -> Nlp.education_line line d = (Ok tt, d).
Proof.
  unfold classify, Nlp.education_line. cbv zeta.
  by repeat destruct (Nlp.any_in _ _).
Qed.

Lemma education_line_key_error line t d :
  classify line = Some t -> d !! name_key t = None ->
  Nlp.education_line line d = (Err (KeyError (name_key t)), d).
Proof.
  unfold classify, Nlp.education_line. cbv zeta. intros Hc Hn.
  destruct (Nlp.any_in _ _);
    [| destruct (Nlp.any_in _ _); [| destruct (Nlp.any_in _ _); [| done]]];
    injection Hc as <-; simpl in Hn; unfold bind, getitem; by rewrite Hn.
Qed.

Lemma education_line_enum line k0 (allowed : list string) :
  (k0, allowed) ∈ [ ("ugDegree", [""; "Bachelor"]); ("pgDegree", [""; "Master"]);
                    ("highSchoolGpaScale", [""; "percentage"; "cgpa"]);
                    ("ugCollegeGpaScale", [""; "percentage"; "cgpa"]);
                    ("pgCollegeGpaScale", [""; "percentage"; "cgpa"]) ] ->
  stable (holds_at k0 (one_of_strings allowed)) (Nlp.education_line line).
Proof.
  intros Hk.
  repeat (apply elem_of_cons in Hk as [[= -> ->] | Hk]); [.. | by apply elem_of_nil in Hk].
  all: unfold Nlp.education_line;
    repeat inv_step ltac:(holds_side ltac:(eexists; split; [reflexivity | solve_mem])).
Qed.

Lemma education_line_year line k0 :
  k0 ∈ ["highSchoolGraduationYear"; "ugGraduationYear"; "pgGraduationYear"] ->
  stable (holds_at k0 empty_or_year) (Nlp.education_line line).
Proof.
  intros Hk.
  repeat (apply elem_of_cons in Hk as [-> | Hk]); [.. | by apply elem_of_nil in Hk].
  all: unfold Nlp.education_line;
    repeat inv_step ltac:(holds_side
      ltac:(eexists; split; [reflexivity | right; by apply year_match])).
Qed.

Lemma tail_frame text k0 (o : option value) :
  k0 ∉ education_fields -> k0 <> "testScores" ->
  stable (fun d => d !! k0 = o) (Nlp.parse_education text ;; Nlp.parse_test_scores text).
Proof.
  intros He Hs. apply stable_bind; [| intros _; by apply parse_test_scores_frame].
  apply parse_education_stable. intros line. by apply education_line_frame.
Qed.

(** The record the pipeline returns is what the two parsers leave. *)
Lemma build_result text r :
  Nlp.build_structured_data text = Ok r ->
  exists d0,
    (Nlp.parse_education text ;; Nlp.parse_test_scores text) d0 = (Ok tt, r) /\
    Nlp.build_structured_data_body text empty_resume_schema
    = (Nlp.parse_education text ;; Nlp.parse_test_scores text) d0.
Proof.
  intros Hr. unfold Nlp.build_structured_data in Hr.
  destruct (build_body_unfold text empty_resume_schema) as (d0 & E & _).
  exists d0. split; [| done]. rewrite E in Hr.
  destruct ((Nlp.parse_education text ;; Nlp.parse_test_scores text) d0) as [[[]|e] d1];
    [| done].
  by injection Hr as <-.
Qed.

Lemma base_scores_digits : holds_at "testScores" scores_are_digits empty_resume_schema.
Proof.
  eexists. split; [vm_compute; reflexivity |]. eexists. split; [reflexivity |].
  intros name s Hs.
  assert (Hin : (name, s) ∈ [ ("sat", ""); ("act", ""); ("gre", "");
                              ("gmat", ""); ("toefl", ""); ("ielts", "") ]).
  { apply elem_of_list_to_map; [| done]. by apply (bool_decide_unpack _). }
  repeat (apply elem_of_cons in Hin as [[= -> ->] | Hin]; [done |]).
  by apply elem_of_nil in Hin.
Qed.

(** The pipeline returns, with a complete record. *)
Lemma build_returns text :
  exists r, Nlp.build_structured_data text = Ok r /\ schema_complete r.
Proof.
  assert (Hsafe : safe schema_complete (Nlp.build_structured_data_body text)).
  { unfold Nlp.build_structured_data_body.
    repeat (cbv zeta; apply safe_bind;
            [first [apply parse_education_safe | safe_step] | intros _]).
    apply parse_test_scores_safe. }
  destruct (Hsafe _ base_schema_complete) as (a & r & E & Hr).
  exists r. unfold Nlp.build_structured_data. by rewrite E.
Qed.

Lemma list_field_result text r field keywords :
  Nlp.build_structured_data text = Ok r ->
  (field, keywords) ∈ LIST_SECTIONS ->
  r !! field = Some (VList (Nlp.section_to_list (Nlp.find_section_block text keywords))).
Proof.
  intros Hr Hin. unfold Nlp.build_structured_data in Hr.
  destruct (build_body_unfold text empty_resume_schema)
    as (d0 & E & _ & _ & _ & Hw & Hc & Hx & Ha & Hp & _).
  rewrite E in Hr.
  assert (Hkeep : forall k0 o, k0 ∉ education_fields -> k0 <> "testScores" ->
                    d0 !! k0 = o -> r !! k0 = o).
  { intros k0 o H1 H2 H0. pose proof (tail_frame text k0 o H1 H2 d0 H0) as H.
    destruct ((Nlp.parse_education text ;; Nlp.parse_test_scores text) d0) as [[a|e] d1];
      [| done].
    by injection Hr as <-. }
  unfold LIST_SECTIONS in Hin.
  repeat (apply elem_of_cons in Hin as [[= -> ->] | Hin]);
    [.. | by apply elem_of_nil in Hin].
  - apply (Hkeep "workExperience");
      [apply (bool_decide_unpack _); by vm_compute | done | exact Hw].
  - apply (Hkeep "certifications");
      [apply (bool_decide_unpack _); by vm_compute | done | exact Hc].
  - apply (Hkeep "extraCurricularActivities");
      [apply (bool_decide_unpack _); by vm_compute | done | exact Hx].
  - apply (Hkeep "achievements");
      [apply (bool_decide_unpack _); by vm_compute | done | exact Ha].
  - apply (Hkeep "researchPublications");
      [apply (bool_decide_unpack _); by vm_compute | done | exact Hp].
Qed.

Lemma education_line_never_stored line k0 (o : option value) :
  k0 ∈ never_stored_fields ->
  stable (fun d => d !! k0 = o) (Nlp.education_line line).
Proof.
  intros Hk. unfold never_stored_fields in Hk.
  repeat (apply elem_of_cons in Hk as [-> | Hk]); [.. | by apply elem_of_nil in Hk].
  all: unfold Nlp.education_line;
    repeat stable_step ltac:(rewrite lookup_insert_ne by done; assumption).
Qed.

(** *** Stripping *)

Lemma lstrip_no_lead p s : starts_with_char p (Str.lstrip_of p s) = false.
Proof.
  induction s as [|c s IH]; simpl; [done |].
  destruct (p c) eqn:E; [done | by simpl].
Qed.

Lemma rstrip_no_trail p s : ends_with_char p (Str.rstrip_of p s) = false.
Proof.
  induction s as [|c s IH]; [done |]. cbn [Str.rstrip_of].
  destruct (Str.rstrip_of p s) as [|x r] eqn:E; simpl.
  - by destruct (p c) eqn:Ep.
  - exact IH.
Qed.

Lemma rstrip_keeps_lead p s :
  starts_with_char p s = false -> starts_with_char p (Str.rstrip_of p s) = false.
Proof.
  destruct s as [|c s]; [done |]. simpl. intros H. rewrite H, andb_false_r. done.
Qed.

Lemma strip_of_edges p s :
  starts_with_char p (Str.strip_of p s) = false /\
  ends_with_char p (Str.strip_of p s) = false.
Proof.
  unfold Str.strip_of. split; [| apply rstrip_no_trail].
  apply rstrip_keeps_lead, lstrip_no_lead.
Qed.

Lemma lstrip_keeps_none (q p : ascii -> bool) s :
  Str.str_exists q s = false -> Str.str_exists q (Str.lstrip_of p s) = false.
Proof.
  induction s as [|c s IH]; [done |]. simpl.
  intros [Hc Hs]%orb_false_iff. destruct (p c); [by apply IH |].
  simpl. by rewrite Hc, Hs.
Qed.

Lemma rstrip_keeps_none (q p : ascii -> bool) s :
  Str.str_exists q s = false -> Str.str_exists q (Str.rstrip_of p s) = false.
Proof.
  induction s as [|c s IH]; [done |]. cbn [Str.rstrip_of Str.str_exists].
  intros [Hc Hs]%orb_false_iff.
  destruct (Str.is_empty _ && p c); [done |]. simpl. by rewrite Hc, IH.
Qed.

Lemma str_exists_snoc q (a : string) c :
  Str.str_exists q (a ++ String c "") = Str.str_exists q a || q c.
Proof.
  induction a as [|x a IH].
  - simpl. by rewrite orb_false_r.
  - rewrite str_app_cons. simpl. by rewrite IH, orb_assoc.
Qed.

Lemma splitlines_no_break : forall s after_cr cur,
  Str.str_exists Chr.islinebreak cur = false ->
  Forall (fun l => Str.str_exists Chr.islinebreak l = false)
         (Str.splitlines_from after_cr cur s).
Proof.
  induction s as [|c s IH]; intros after_cr cur Hcur; simpl.
  - destruct (Str.is_empty cur); [constructor | by repeat constructor].
  - destruct (after_cr && Chr.has_code 10 c); [by apply IH |].
    destruct (Chr.islinebreak c) eqn:E.
    + constructor; [done | by apply IH].
    + apply IH. by rewrite str_exists_snoc, Hcur, E.
Qed.

Lemma stripped_lines_clean text l :
  l ∈ Nlp.stripped_lines text ->
  clean_line l /\ exists raw, raw ∈ Str.splitlines text /\ l = Str.strip raw.
Proof.
  unfold Nlp.stripped_lines. intros H%list_elem_of_In.
  apply filter_In in H as [H Hne]. apply in_map_iff in H as (raw & <- & Hraw).
  apply list_elem_of_In in Hraw. split; [| by exists raw].
  destruct (strip_of_edges Chr.isspace raw) as [H1 H2].
  split_and!; try done.
  - intros E. fold (Str.strip raw) in *. by rewrite E in Hne.
  - apply rstrip_keeps_none, lstrip_keeps_none.
    pose proof (splitlines_no_break text false "" eq_refl) as Hall.
    by apply (proj1 (Forall_forall _ _) Hall).
Qed.

Lemma section_to_list_clean section_text e :
  e ∈ Nlp.section_to_list section_text ->
  e <> "" /\
  starts_with_char Nlp.bullet_chars e = false /\
  ends_with_char Nlp.bullet_chars e = false /\
  exists raw, raw ∈ Str.splitlines section_text /\ e = Str.strip_of Nlp.bullet_chars raw.
Proof.
  unfold Nlp.section_to_list. intros H%list_elem_of_In.
  apply filter_In in H as [H Hne]. apply in_map_iff in H as (raw & <- & Hraw).
  apply list_elem_of_In in Hraw.
  destruct (strip_of_edges Nlp.bullet_chars raw) as [H1 H2].
  split_and!; try done; [| by exists raw].
  intros E. by rewrite E in Hne.
Qed.

(** *** Skills *)

#[local] Instance skill_le_dec a b : Decision (skill_le a b).
Proof. unfold skill_le. apply _. Defined.

#[local] Instance skill_le_total : Total skill_le.
Proof.
  intros a b. unfold skill_le.
  destruct (String.leb_total (Str.lower a) (Str.lower b)) as [H | H];
    [left | right]; by rewrite H.
Qed.

Lemma extract_skills_sort text :
  Nlp.extract_skills text
  = merge_sort skill_le
      (List.filter (fun skill => Str.contains (Str.lower skill) (Str.lower text))
                   Nlp.SKILLS_DB).
Proof. reflexivity. Qed.

Lemma app1_extract_skills_sort text db :
  App1.extract_skills text db
  = merge_sort skill_le
      (List.filter (fun skill => Str.contains (Str.lower skill) (Str.lower text)) db).
Proof. reflexivity. Qed.

Lemma sorted_skills_spec text db :
  let found := merge_sort skill_le
      (List.filter (fun skill => Str.contains (Str.lower skill) (Str.lower text)) db) in
  (forall skill, skill ∈ found <->
     skill ∈ db /\ Str.contains (Str.lower skill) (Str.lower text) = true) /\
  Sorted skill_le found /\
  (NoDup db -> NoDup found).
Proof.
  cbv zeta. split_and!.
  - intros skill. rewrite merge_sort_Permutation, !list_elem_of_In, filter_In. done.
  - apply Sorted_merge_sort. apply _.
  - intros Hnd. rewrite merge_sort_Permutation.
    by apply NoDup_ListNoDup, List.NoDup_filter, NoDup_ListNoDup.
Qed.

(** *** The categories of [find_sections] *)

Lemma mark_line_values i line (acc : gmap nat string) :
  map_Forall (fun _ sec => sec ∈ CATEGORIES) acc ->
  map_Forall (fun _ sec => sec ∈ CATEGORIES) (App1.mark_line i line acc).
Proof.
  unfold App1.mark_line.
  assert (Htable : forall e, e ∈ App1.SECTION_HEADERS -> fst e ∈ CATEGORIES).
  { apply Forall_forall. apply (bool_decide_unpack _). by vm_compute. }
  revert Htable. generalize App1.SECTION_HEADERS as table. intros table. revert acc.
  induction table as [|entry table IH]; intros acc Htable Hacc; simpl; [done |].
  apply IH; [intros e He; apply Htable; by right |].
  assert (He : fst entry ∈ CATEGORIES) by (apply Htable; by left).
  revert acc Hacc. generalize (snd entry) as kws.
  induction kws as [|kw kws IHk]; intros acc Hacc; simpl; [done |].
  apply IHk. destruct (App1.matched _); [| done]. by apply map_Forall_insert_2.
Qed.

Lemma mark_lines_values lines : forall i (acc : gmap nat string),
  map_Forall (fun _ sec => sec ∈ CATEGORIES) acc ->
  map_Forall (fun _ sec => sec ∈ CATEGORIES) (App1.mark_lines i lines acc).
Proof.
  induction lines as [|raw lines IH]; intros i acc Hacc; simpl; [done |].
  by apply IH, mark_line_values.
Qed.

Lemma collect_dom lines (its : gmap nat string) : forall indices (st : gmap string string),
  (forall i, i ∈ indices -> exists sec, its !! i = Some sec /\ sec ∈ dom st) ->
  dom (App1.collect lines its indices st) = dom st.
Proof.
  induction indices as [|i indices IH]; intros st H; [done |].
  cbn [App1.collect]. cbv zeta.
  destruct (H i) as (sec & Hv & Hdom); [by left |]. rewrite Hv. simpl.
  assert (Hins : forall x, dom (<[sec := x]> st) = dom st).
  { intros x. apply dom_insert_lookup_L. by apply elem_of_dom. }
  destruct (Str.is_empty _); rewrite IH, ?Hins; try done;
    intros j Hj; destruct (H j) as (w & Hw & Hd); [by right | | by right |];
    exists w; by rewrite Hins.
Qed.

Lemma find_sections_dom text :
  dom (App1.find_sections text) = list_to_set CATEGORIES.
Proof.
  unfold App1.find_sections. cbv zeta.
  set (its := App1.mark_lines 0 (Str.splitlines text) ∅).
  set (base := list_to_map ((fun entry => (fst entry, "")) <$> App1.SECTION_HEADERS)
               : gmap string string).
  assert (Hbase : dom base = list_to_set CATEGORIES).
  { unfold base. rewrite dom_list_to_map_L. reflexivity. }
  destruct (merge_sort Nat.le (fst <$> map_to_list its)) as [|i0 rest] eqn:E.
  - rewrite dom_insert_lookup_L; [done |]. apply elem_of_dom. rewrite Hbase.
    apply elem_of_list_to_set. solve_mem.
  - rewrite collect_dom; [done |]. intros i Hi. rewrite <- E in Hi.
    rewrite merge_sort_Permutation in Hi.
    apply list_elem_of_fmap in Hi as ([j sec] & -> & Hjv).
    apply elem_of_map_to_list in Hjv. exists sec. split; [done |].
    rewrite Hbase. apply elem_of_list_to_set.
    assert (Hall : map_Forall (fun _ sec => sec ∈ CATEGORIES) its)
      by (apply mark_lines_values, map_Forall_empty).
    by apply (Hall j).
Qed.

(** *** The heading pattern accepts what it should *)

Lemma lower_split : forall (a b l : string),
  Str.lower l = a ++ b ->
  exists l1 l2, l = l1 ++ l2 /\ Str.lower l1 = a /\ Str.lower l2 = b.
Proof.
  induction a as [|x a IH]; intros b l H.
  - by exists "", l.
  - destruct l as [|c l]; [done |]. rewrite lower_cons, str_app_cons in H.
    injection H as Hc Hl. apply IH in Hl as (l1 & l2 & -> & H1 & H2).
    exists (String c l1), l2. rewrite lower_cons, Hc, H1. done.
Qed.

Lemma lower_is_colon c : Chr.lower c = ":"%char -> c = ":"%char.
Proof. destruct c as [[] [] [] [] [] [] [] []]; vm_compute; congruence. Qed.

Lemma lit_i_accepts kw : forall s st rest (k0 : cont),
  Str.lower s = Str.lower kw -> m_rest st = s ++ rest ->
  exists prev',
    rmatch (lit_i kw) st k0
    = k0 (MState (m_pos st + String.length s) prev' rest (m_caps st)).
Proof.
  unfold lit_i. induction kw as [|c kw IH]; intros s st rest k0 Hlow Hrest.
  - destruct s as [|x s]; [| done]. destruct st as [pos prev r caps]. simpl in *.
    subst r. exists prev. by rewrite Nat.add_0_r.
  - destruct s as [|x s]; [done |]. rewrite !lower_cons in Hlow.
    injection Hlow as Hx Hs.
    simpl list_ascii_of_string. rewrite fmap_cons, rmatch_seq_cons.
    rewrite str_app_cons in Hrest. simpl. rewrite Hrest, Hx, Ascii.eqb_refl.
    destruct (IH s (MState (S (m_pos st)) (Some x) (s ++ rest) (m_caps st)) rest k0 Hs eq_refl)
      as [prev' ->].
    exists prev'. simpl. do 2 f_equal. lia.
Qed.

Lemma rmatch_Seq r1 r2 st (k0 : cont) :
  rmatch (Seq r1 r2) st k0 = rmatch r1 st (fun st' => rmatch r2 st' k0).
Proof. done. Qed.

Lemma heading_accepts kw line :
  Str.lower line = Str.lower kw \/ Str.lower line = Str.lower kw ++ ":" ->
  Nlp.matched (fullmatch (heading_regex kw) line) = true.
Proof.
  intros H. unfold fullmatch, match_at, heading_regex. rewrite rmatch_Seq.
  destruct H as [H | H].
  - destruct (lit_i_accepts kw line (MState 0 None line []) ""
                (fun st' => rmatch (Opt (lit ":")) st' at_end) H) as [prev' ->].
    + simpl. by rewrite str_app_nil_r.
    + reflexivity.
  - apply lower_split in H as (l1 & l2 & -> & H1 & H2).
    destruct l2 as [|c [|y l2]]; try done.
    rewrite lower_cons in H2. injection H2 as Hc. apply lower_is_colon in Hc as ->.
    destruct (lit_i_accepts kw l1 (MState 0 None (l1 ++ ":") []) ":"
                (fun st' => rmatch (Opt (lit ":")) st' at_end) H1 eq_refl) as [prev' ->].
    reflexivity.
Qed.

Lemma heading_pattern_exact kw line :
  Nlp.matched (fullmatch (heading_regex kw) line)
  = names_heading (Str.lower kw) (Str.lower line).
Proof.
  unfold names_heading.
  destruct (Nlp.matched _) eqn:E.
  - apply heading_fullmatch in E. symmetry. apply orb_true_iff.
    destruct E as [-> | ->]; [left | right]; apply String.eqb_refl.
  - symmetry. apply orb_false_iff.
    split; apply String.eqb_neq; intros H.
    + by rewrite heading_accepts in E by (by left).
    + by rewrite heading_accepts in E by (by right).
Qed.

(** *** The digits of a stripped candidate *)

Lemma space_not_digit c : Chr.isspace c = true -> Chr.isdigit c = false.
Proof. destruct c as [[] [] [] [] [] [] [] []]; vm_compute; congruence. Qed.

Lemma filter_lstrip (p q : ascii -> bool) s :
  (forall c, q c = true -> p c = false) ->
  Str.str_filter p (Str.lstrip_of q s) = Str.str_filter p s.
Proof.
  intros H. induction s as [|c s IH]; [done |]. simpl.
  destruct (q c) eqn:E; [| done]. by rewrite (H c E).
Qed.

Lemma filter_rstrip (p q : ascii -> bool) s :
  (forall c, q c = true -> p c = false) ->
  Str.str_filter p (Str.rstrip_of q s) = Str.str_filter p s.
Proof.
  intros H. induction s as [|c s IH]; [done |]. cbn [Str.rstrip_of Str.str_filter].
  destruct (Str.rstrip_of q s) as [|x r] eqn:Er; simpl in *.
  - destruct (q c) eqn:E; simpl.
    + by rewrite (H c E), <- IH.
    + by rewrite <- IH.
  - by rewrite <- IH.
Qed.

Lemma digits_of_strip c : App1.digits_of (Str.strip c) = App1.digits_of c.
Proof.
  unfold App1.digits_of, Str.strip, Str.strip_of.
  rewrite filter_rstrip, filter_lstrip; try done; apply space_not_digit.
Qed.

(** *** Links *)

Lemma finditer_from_at r : forall rest resume pos prev m,
  m ∈ finditer_from r resume pos prev rest ->
  exists pre rest' prev',
    rest = pre ++ rest' /\
    match_at r Some (pos + String.length pre) prev' rest' = Some m.
Proof.
  induction rest as [|c rest IH]; intros resume pos prev m H; simpl in H.
  - destruct (Nat.ltb pos resume); [by apply elem_of_nil in H |].
    destruct (match_at r Some pos prev "") as [m'|] eqn:E; [| by apply elem_of_nil in H].
    apply elem_of_cons in H as [-> | H]; [| by apply elem_of_nil in H].
    exists "", "", prev. simpl. by rewrite Nat.add_0_r.
  - assert (Hnext : forall res, m ∈ finditer_from r res (S pos) (Some c) rest ->
              exists pre rest' prev',
                String c rest = pre ++ rest' /\
                match_at r Some (pos + String.length pre) prev' rest' = Some m).
    { intros res Hm. apply IH in Hm as (pre & rest' & prev' & -> & Hm).
      exists (String c pre), rest', prev'. simpl.
      by replace (pos + S (String.length pre)) with (S pos + String.length pre) by lia. }
    destruct (Nat.ltb pos resume); [by apply (Hnext resume) |].
    destruct (match_at r Some pos prev (String c rest)) as [m'|] eqn:E;
      [| by apply (Hnext resume)].
    apply elem_of_cons in H as [-> | H]; [| by apply (Hnext _ H)].
    exists "", (String c rest), prev. simpl. by rewrite Nat.add_0_r.
Qed.

Lemma lang_seq_cons r rs s :
  lang (seq (r :: rs)) s ->
  exists s1 s2, s = s1 ++ s2 /\ lang r s1 /\ lang (seq rs) s2.
Proof.
  destruct rs as [|r' rs]; [| done].
  intros H. exists s, "". by rewrite str_app_nil_r.
Qed.

Lemma lang_lit w : forall s, lang (lit w) s -> s = w.
Proof.
  unfold lit. induction w as [|c w IH]; intros s H; [done |].
  simpl list_ascii_of_string in H. rewrite fmap_cons in H.
  apply lang_seq_cons in H as (s1 & s2 & -> & H1 & H2).
  apply lang_lit1 in H1 as ->. by rewrite (IH s2 H2).
Qed.

Lemma rmatch_Grp n r1 st (k0 : cont) :
  rmatch (Grp n r1) st k0
  = rmatch r1 st (fun st' =>
      k0 (MState (m_pos st') (m_prev st') (m_rest st')
                 ((n, (m_pos st, m_pos st')) :: m_caps st'))).
Proof. done. Qed.

Lemma url_match text m :
  m ∈ finditer URL_REGEX text ->
  url_shaped (group 1 text m) /\ occurs_in (group 1 text m) text.
Proof.
  intros H. apply finditer_from_at in H as (pre & rest & prev & -> & H).
  unfold match_at in H.
  destruct (rmatch URL_REGEX _ Some) as [res|] eqn:E; [| done]. injection H as <-.
  set (st0 := MState (0 + String.length pre) prev rest []) in E.
  assert (A0 : anchored (pre ++ rest) st0) by (by exists pre).
  unfold URL_REGEX in E. rewrite rmatch_Grp in E.
  apply rmatch_sound in E as (st1 & s & Sp & Hl & _ & [= <-]).
  pose proof (anchored_substring _ _ _ _ A0 Sp) as Hsub. simpl in Hsub.
  unfold group, cap. simpl. rewrite Hsub.
  split.
  - destruct Hl as [Hl | Hl]; cbn [seq] in Hl.
    + destruct Hl as (a & s1 & -> & Ha & b & s2 & -> & Hb & c & rest' & -> & Hc
                      & (Hall & Hlen & _)).
      apply lang_lit in Ha as ->. apply lang_lit in Hc as ->.
      destruct Hb as [-> | Hb].
      * exists "http://", rest'. split_and!; try done; [solve_mem |].
        by apply length_nonempty.
      * apply lang_lit in Hb as ->.
        exists "https://", rest'. split_and!; try done; [solve_mem |].
        by apply length_nonempty.
    + destruct Hl as (a & rest' & -> & Ha & (Hall & Hlen & _)).
      apply lang_lit in Ha as ->.
      exists "www.", rest'. split_and!; try done; [solve_mem |].
      by apply length_nonempty.
  - destruct Sp as [Hr _]. simpl in Hr. exists pre, (m_rest st1). by rewrite Hr.
Qed.

(** *** Splitting what was joined *)

Lemma split_from_word_app : forall (w cur s : string),
  Str.str_exists Chr.isspace w = false ->
  Str.split_from cur (w ++ s) = Str.split_from (cur ++ w) s.
Proof.
  induction w as [|c w IH]; intros cur s H.
  - by rewrite str_app_nil_r.
  - simpl in H. apply orb_false_iff in H as [Hc Hw].
    rewrite str_app_cons. cbn [Str.split_from]. rewrite Hc, IH by done.
    by rewrite str_app_assoc.
Qed.

Lemma split_from_spacefree : forall s cur,
  Str.str_exists Chr.isspace cur = false ->
  Forall (fun w => Str.str_exists Chr.isspace w = false) (Str.split_from cur s).
Proof.
  induction s as [|c s IH]; intros cur Hcur; simpl.
  - destruct (Str.is_empty cur); [constructor | by repeat constructor].
  - destruct (Chr.isspace c) eqn:E.
    + destruct (Str.is_empty cur); [by apply IH | constructor; [done | by apply IH]].
    + apply IH. by rewrite str_exists_snoc, Hcur, E.
Qed.

Lemma split_join (l : list string) :
  Forall (fun w => Str.is_empty w = false) l ->
  Forall (fun w => Str.str_exists Chr.isspace w = false) l ->
  Str.split (Str.join " " l) = l.
Proof.
  unfold Str.split. induction l as [|w l IH]; intros Hne Hsp; [done |].
  apply Forall_cons in Hne as [Hw Hne]. apply Forall_cons in Hsp as [Hs Hsp].
  destruct l as [|x l].
  - change (Str.join " " [w]) with w.
    rewrite <- (str_app_nil_r w) at 1. rewrite split_from_word_app by done.
    change ("" ++ w) with w. cbn [Str.split_from]. by rewrite Hw.
  - change (Str.join " " (w :: x :: l)) with (w ++ String " " (Str.join " " (x :: l))).
    rewrite split_from_word_app by done. cbn [Str.split_from].
    replace (Chr.isspace " ") with true by (vm_compute; reflexivity).
    change ("" ++ w) with w. rewrite Hw. f_equal. by apply IH.
Qed.

Lemma split_join_split text :
  Str.split (Str.join " " (Str.split text)) = Str.split text.
Proof.
  apply split_join; [apply split_from_nonempty | by apply split_from_spacefree].
Qed.

(** *** Grades and their scales *)

Lemma str_forall_app p (a b : string) :
  Str.str_forall p (a ++ b) = Str.str_forall p a && Str.str_forall p b.
Proof.
  induction a as [|c a IH]; [done |].
  rewrite str_app_cons. simpl. by rewrite IH, andb_assoc.
Qed.

Lemma str_forall_impl (p q : ascii -> bool) (s : string) :
  (forall c, p c = true -> q c = true) ->
  Str.str_forall p s = true -> Str.str_forall q s = true.
Proof.
  intros Hpq. induction s as [|c s IH]; [done |]. simpl.
  intros [Hc Hs]%andb_prop. by rewrite (Hpq c Hc), IH.
Qed.

Lemma perc_match line m :
  search PERC_REGEX line = Some m -> perc_shaped (group0 line m).
Proof.
  intros H. apply search_sound in H as (pre & s & post & -> & Hl & -> & _).
  destruct Hl as (b1 & s1 & -> & -> & whole & s2 & -> & (Hw & Hlo & Hhi)
                  & dot & s3 & -> & Hdot & frac & s4 & -> & Hfrac
                  & ws & pct & -> & (Hws & _) & Hpct).
  apply lang_lit1 in Hpct as ->.
  exists whole, (dot ++ frac ++ ws).
  split; [by rewrite !str_app_assoc |]. split; [done |]. split; [done |].
  rewrite !str_forall_app. apply andb_true_intro. split; [| apply andb_true_intro; split].
  - destruct Hdot as [-> | ->%lang_lit1]; [done |]. done.
  - destruct Hfrac as [-> | (Hf & _)]; [done |].
    eapply str_forall_impl; [| exact Hf].
    intros c Hc. change (Chr.isdigit c = true) in Hc. by rewrite Hc.
  - eapply str_forall_impl; [| exact Hws].
    intros c Hc. change (Chr.isspace c = true) in Hc. by rewrite Hc, !orb_true_r.
Qed.

Lemma cgpa_match line m :
  search CGPA_REGEX line = Some m -> cgpa_shaped (group0 line m).
Proof.
  intros H. apply search_sound in H as (pre & s & post & -> & Hl & -> & _).
  destruct Hl as (b1 & s1 & -> & -> & a & s2 & -> & (c & -> & Hc)
                  & dot & s3 & -> & ->%lang_lit1 & frac & b2 & -> & (Hf & Hlo & Hhi) & ->).
  exists c, frac. by rewrite str_app_nil_r.
Qed.

Lemma grade_of_ok line g s : grade_of line = Some (g, s) -> grade_scale_ok g s.
Proof.
  unfold grade_of. destruct (search PERC_REGEX line) as [m|] eqn:Ep.
  - intros [= <- <-]. right; left. split; [done |]. by apply perc_match.
  - destruct (search CGPA_REGEX line) as [m|] eqn:Ec; [| done].
    intros [= <- <-]. right; right. split; [done |]. by apply cgpa_match.
Qed.

(** A line stores the grade and the scale of its tier together, or leaves
    both. *)
Lemma education_line_grade_pair line t d :
  classify line = Some t ->
  let d' := (Nlp.education_line line d).2 in
  (d' !! grade_key t = d !! grade_key t /\ d' !! scale_key t = d !! scale_key t) \/
  (exists g s, grade_of line = Some (g, s) /\
               d' !! grade_key t = Some (VStr g) /\ d' !! scale_key t = Some (VStr s)).
Proof.
  intros Hc. cbv zeta.
  destruct (d !! name_key t) as [vn|] eqn:En;
    [| left; by rewrite (education_line_key_error line t d Hc En)].
  assert (Hready : tier_ready t d \/
                   exists k, degree_key t = Some k /\ d !! k = None).
  { unfold tier_ready. rewrite En. destruct (degree_key t) as [k|] eqn:Ek.
    - destruct (d !! k) eqn:Edk; [left; by split | right; by exists k].
    - left. by split. }
  destruct Hready as [Hready | (k & Ek & Edk)].
  - destruct (education_line_fields line d t Hc Hready) as (_ & _ & _ & Hg & Hs & _).
    destruct (grade_of line) as [[g s]|] eqn:Eg.
    + right. exists g, s. by rewrite Hg, Hs.
    + left. by rewrite Hg, Hs.
  - left. revert Hc En Ek Edk. unfold classify, Nlp.education_line. cbv zeta.
    intros Hc En Ek Edk.
    destruct (Nlp.any_in _ _);
      [| destruct (Nlp.any_in _ _); [| destruct (Nlp.any_in _ _); [| done]]];
      injection Hc as <-; simpl in *; [done | |];
      injection Ek as <-; unfold bind, getitem, setitem, ret;
      rewrite En; simpl; rewrite lookup_insert_ne, Edk by done; simpl;
      by rewrite !lookup_insert_ne by done.
Qed.

Lemma grade_scale_keys t k :
  k = grade_key t \/ k = scale_key t -> forall t', t' <> t -> k ∉ tier_fields t'.
Proof.
  intros Hk t' Hne.
  destruct t, t'; try done; destruct Hk as [-> | ->]; simpl; solve_mem.
Qed.

Lemma tier_eq_or (t t' : tier) : t' = t \/ t' <> t.
Proof. destruct t, t'; first [by left | by right]. Qed.

Lemma education_line_grade_ok line t :
  stable (tier_grade_ok t) (Nlp.education_line line).
Proof.
  intros d (g & s & Hg & Hs & Hok).
  destruct (classify line) as [t'|] eqn:Hc;
    [| rewrite (education_line_unclassified line d Hc); by exists g, s].
  destruct (tier_eq_or t t') as [-> | Hne].
  - destruct (education_line_grade_pair line t d Hc) as [[Eg Es] | (g' & s' & Hof & Eg & Es)].
    + exists g, s. by rewrite Eg, Es.
    + exists g', s'. split; [done |]. split; [done |]. by apply (grade_of_ok line).
  - exists g, s.
    split; [| split; [| done]].
    + apply (education_line_tier_frame line t' (grade_key t) (Some (VStr g)) Hc); [| done].
      apply (grade_scale_keys t); [by left | done].
    + apply (education_line_tier_frame line t' (scale_key t) (Some (VStr s)) Hc); [| done].
      apply (grade_scale_keys t); [by right | done].
Qed.

Lemma grade_keys_education t :
  grade_key t ∈ education_fields /\ scale_key t ∈ education_fields /\
  grade_key t <> "testScores" /\ scale_key t <> "testScores".
Proof. destruct t; simpl; split_and!; try solve_mem; done. Qed.

Lemma parse_test_scores_grade_ok text t :
  stable (tier_grade_ok t) (Nlp.parse_test_scores text).
Proof.
  intros d (g & s & Hg & Hs & Hok). exists g, s.
  destruct (grade_keys_education t) as (_ & _ & H1 & H2).
  split; [| split; [| done]].
  - by apply (parse_test_scores_frame text (grade_key t) (Some (VStr g)) H1).
  - by apply (parse_test_scores_frame text (scale_key t) (Some (VStr s)) H2).
Qed.

Lemma build_grade_ok text r t :
  Nlp.build_structured_data text = Ok r -> tier_grade_ok t r.
Proof.
  intros Hr. unfold Nlp.build_structured_data in Hr.
  destruct (build_body_unfold text empty_resume_schema) as (d0 & E & Hd0).
  rewrite E in Hr.
  destruct (grade_keys_education t) as (Hge & Hse & _ & _).
  assert (I0 : tier_grade_ok t d0).
  { destruct Hd0 as (_ & _ & _ & _ & _ & _ & _ & _ & _ & Hf).
    exists "", "". rewrite !Hf by (by left).
    split; [by destruct t |]. split; [by destruct t |]. by left. }
  assert (St : stable (tier_grade_ok t)
                 (Nlp.parse_education text ;; Nlp.parse_test_scores text)).
  { apply stable_bind; [| intros _; apply parse_test_scores_grade_ok].
    apply parse_education_stable. intros line. apply education_line_grade_ok. }
  specialize (St d0 I0).
  destruct ((Nlp.parse_education text ;; Nlp.parse_test_scores text) d0) as [[a|e] d1];
    [| done].
  by injection Hr as <-.
Qed.

(** *** The extensions of an upload *)

Lemma upload_dispatch ext :
  (App.upload_allowed ext = true <-> is_Some (Extractor.extract_text_reader ext)) /\
  (App1.upload_allowed ext = true <-> is_Some (App1.extract_text_reader ext)).
Proof.
  unfold App.upload_allowed, Extractor.extract_text_reader,
         App1.upload_allowed, App1.extract_text_reader. simpl.
  destruct (String.eqb ext ".pdf"), (String.eqb ext ".docx"), (String.eqb ext ".txt"),
           (String.eqb ext ".text"), (String.eqb ext ".jpg"), (String.eqb ext ".jpeg"),
           (String.eqb ext ".png"); simpl;
    (split; split; first [done | by intros [? [=]] | by eexists]).
Qed.

(** *** The matcher misses no match *)

Lemma str_app_nil_l (s : string) : "" ++ s = s.
Proof. done. Qed.

Lemma rep_greedy_complete p : forall (s : string) lo hi pos prev post caps (k0 : cont),
  Str.str_forall p s = true -> lo <= String.length s ->
  match hi with Some h => String.length s <= h | None => True end ->
  is_Some (k0 (MState (pos + String.length s) (prev_after prev s) post caps)) ->
  is_Some (rep_greedy p lo hi pos prev (s ++ post) caps k0).
Proof.
  induction s as [|c s IH]; intros lo hi pos prev post caps k0 Hp Hlo Hhi Hk.
  - simpl in *. rewrite Nat.add_0_r in Hk. assert (lo = 0) as -> by lia.
    change ("" ++ post) with post.
    destruct post as [|c post]; simpl; [done |].
    destruct (p c && more_allowed hi); [| done].
    by destruct (rep_greedy p _ _ _ _ _ _ _).
  - rewrite str_app_cons. simpl in *. apply andb_prop in Hp as [Hc Hs].
    assert (Hm : more_allowed hi = true) by (destruct hi as [[|h]|]; [lia | done | done]).
    rewrite Hc, Hm. simpl.
    assert (Hin : is_Some (rep_greedy p (pred lo) (pred <$> hi) (S pos) (Some c)
                             (s ++ post) caps k0)).
    { apply IH; [done | lia | |].
      - destruct hi as [h|]; simpl; [lia | done].
      - by replace (S pos + String.length s) with (pos + S (String.length s)) by lia. }
    destruct Hin as [r ->]. by eexists.
Qed.

Lemma rmatch_complete r :
  noassert r = true ->
  forall (s post : string) st (k0 : cont),
    m_rest st = s ++ post -> lang r s ->
    (forall st', m_rest st' = post -> is_Some (k0 st')) ->
    is_Some (rmatch r st k0).
Proof.
  induction r as [| p | r1 IH1 r2 IH2 | r1 IH1 r2 IH2 | r1 IH1 | p lo hi | n r1 IH1 | | | ];
    intros Hna s post st k0 Hrest Hl Hk; simpl in *; try done.
  - subst s. by apply Hk.
  - destruct Hl as (c & -> & Hc). rewrite Hrest, str_app_cons. simpl. rewrite Hc.
    by apply Hk.
  - apply andb_prop in Hna as [H1 H2]. destruct Hl as (s1 & s2 & -> & Hl1 & Hl2).
    apply (IH1 H1 s1 (s2 ++ post)); [by rewrite Hrest, str_app_assoc | done |].
    intros st' Hst'. by apply (IH2 H2 s2 post).
  - apply andb_prop in Hna as [H1 H2].
    destruct (rmatch r1 st k0) as [res|] eqn:E1; [by eexists |].
    destruct Hl as [Hl | Hl]; [| by apply (IH2 H2 s post)].
    destruct (IH1 H1 s post st k0 Hrest Hl Hk) as [res Hres]. by rewrite Hres in E1.
  - destruct (rmatch r1 st k0) as [res|] eqn:E1; [by eexists |].
    destruct Hl as [-> | Hl]; [by apply Hk |].
    destruct (IH1 Hna s post st k0 Hrest Hl Hk) as [res Hres]. by rewrite Hres in E1.
  - destruct Hl as (Hp & Hlo & Hhi). rewrite Hrest.
    apply rep_greedy_complete; try done. by apply Hk.
  - apply (IH1 Hna s post); [done | done |]. intros st' Hst'. by apply Hk.
Qed.

(** *** The search stops at the first match *)

Lemma search_from_none r : forall rest pos prev,
  search_from r pos prev rest = None ->
  forall pre rest', rest = pre ++ rest' ->
    exists prev', rmatch r (MState (pos + String.length pre) prev' rest' []) Some = None.
Proof.
  induction rest as [|c rest IH]; intros pos prev H pre rest' Hsplit; simpl in H.
  - destruct pre; [| done]. rewrite str_app_nil_l in Hsplit. subst rest'.
    simpl. rewrite Nat.add_0_r.
    exists prev. unfold match_at in H. by destruct (rmatch r _ Some).
  - destruct (match_at r Some pos prev (String c rest)) as [m'|] eqn:E; [done |].
    destruct pre as [|x pre].
    + rewrite str_app_nil_l in Hsplit. subst rest'. simpl. rewrite Nat.add_0_r.
      exists prev. unfold match_at in E. by destruct (rmatch r _ Some).
    + rewrite str_app_cons in Hsplit. injection Hsplit as -> ->.
      destruct (IH (S pos) (Some x) H pre rest' eq_refl) as [prev' Hp].
      exists prev'. simpl.
      by replace (pos + S (String.length pre)) with (S pos + String.length pre) by lia.
Qed.

Lemma search_from_first r : forall rest pos prev m,
  search_from r pos prev rest = Some m ->
  exists pre rest' prev',
    rest = pre ++ rest' /\
    match_at r Some (pos + String.length pre) prev' rest' = Some m /\
    forall pre1 rest1, rest = pre1 ++ rest1 -> String.length pre1 < String.length pre ->
      exists prev1, rmatch r (MState (pos + String.length pre1) prev1 rest1 []) Some = None.
Proof.
  induction rest as [|c rest IH]; intros pos prev m H; simpl in H.
  - destruct (match_at r Some pos prev "") as [m'|] eqn:E; [| done].
    injection H as ->. exists "", "", prev. simpl. rewrite Nat.add_0_r.
    split_and!; try done. intros ? ? _ ?. lia.
  - destruct (match_at r Some pos prev (String c rest)) as [m'|] eqn:E.
    + injection H as ->. exists "", (String c rest), prev. simpl. rewrite Nat.add_0_r.
      split_and!; try done. intros ? ? _ ?. lia.
    + apply IH in H as (pre & rest' & prev' & -> & H & Hfirst).
      exists (String c pre), rest', prev'. simpl.
      replace (pos + S (String.length pre)) with (S pos + String.length pre) by lia.
      split_and!; try done.
      intros pre1 rest1 Hsplit Hlt. destruct pre1 as [|x pre1].
      * rewrite str_app_nil_l in Hsplit. subst rest1. simpl. rewrite Nat.add_0_r.
        exists prev. unfold match_at in E. by destruct (rmatch r _ Some).
      * rewrite !str_app_cons in Hsplit. injection Hsplit as -> Hsplit.
        destruct (Hfirst pre1 rest1 Hsplit) as [prev1 Hp]; [simpl in Hlt; lia |].
        exists prev1. simpl.
        by replace (pos + S (String.length pre1)) with (S pos + String.length pre1) by lia.
Qed.

Lemma search_none_no_run r text :
  noassert r = true -> search r text = None -> no_run (lang r) text.
Proof.
  intros Hna H pre s post -> Hl.
  destruct (search_from_none r _ 0 None H pre (s ++ post) eq_refl) as [prev' Hn].
  destruct (rmatch_complete r Hna s post (MState (0 + String.length pre) prev' (s ++ post) [])
              Some eq_refl Hl) as [res Hres]; [by eexists |].
  by rewrite Hres in Hn.
Qed.

Lemma search_leftmost r text m :
  noassert r = true -> search r text = Some m ->
  exists pre s post,
    text = pre ++ s ++ post /\ lang r s /\ group0 text m = s /\
    forall pre' s' post', text = pre' ++ s' ++ post' -> lang r s' ->
      String.length pre <= String.length pre'.
Proof.
  intros Hna H. apply search_from_first in H as (pre & rest & prev & -> & H & Hfirst).
  unfold match_at in H.
  destruct (rmatch r _ Some) as [st|] eqn:E; [| done]. injection H as <-.
  apply rmatch_sound in E as (st' & s & [Hr Hp] & Hl & _ & [= ->]).
  simpl in Hr, Hp. exists pre, s, (m_rest st). unfold group0. simpl.
  rewrite Hr, Hp. split_and!; try done.
  - replace (String.length pre + String.length s - String.length pre)
      with (String.length s) by lia.
    apply substring_mid.
  - intros pre' s' post' Hsplit Hl'.
    destruct (Nat.le_gt_cases (String.length pre) (String.length pre')) as [|Hlt]; [done |].
    rewrite <- Hr in Hsplit.
    destruct (Hfirst pre' (s' ++ post') Hsplit Hlt) as [prev1 Hn].
    destruct (rmatch_complete r Hna s' post'
                (MState (0 + String.length pre') prev1 (s' ++ post') []) Some eq_refl Hl')
      as [res Hres]; [by eexists |].
    by rewrite Hres in Hn.
Qed.

(** *** A greedy repetition takes the longest run that lets the rest match *)

Lemma rep_greedy_longest p : forall rest lo hi pos prev caps (k0 : cont) res,
  rep_greedy p lo hi pos prev rest caps k0 = Some res ->
  exists s rest',
    rest = s ++ rest' /\ Str.str_forall p s = true /\ lo <= String.length s /\
    k0 (MState (pos + String.length s) (prev_after prev s) rest' caps) = Some res /\
    forall s2 rest2,
      rest = s2 ++ rest2 -> Str.str_forall p s2 = true ->
      String.length s < String.length s2 ->
      match hi with Some h => String.length s2 <= h | None => True end ->
      k0 (MState (pos + String.length s2) (prev_after prev s2) rest2 caps) = None.
Proof.
  induction rest as [|c rest IH]; intros lo hi pos prev caps k0 res H; simpl in H.
  - destruct lo; [| done]. exists "", "". simpl. rewrite Nat.add_0_r.
    split_and!; try done. intros s2 rest2 Hs _ Hlt _.
    destruct s2; [simpl in Hlt; lia | done].
  - assert (Hstop : match lo with 0 => k0 (MState pos prev (String c rest) caps) | S _ => None end
                    = Some res ->
                    lo = 0 /\ k0 (MState pos prev (String c rest) caps) = Some res)
      by (by destruct lo).
    destruct (p c && more_allowed hi) eqn:E.
    + apply andb_prop in E as [Ep Ehi].
      destruct (rep_greedy p (pred lo) (pred <$> hi) (S pos) (Some c) rest caps k0)
        as [r|] eqn:Er.
      * injection H as ->.
        apply IH in Er as (s & rest' & -> & Hall & Hlo & Hk & Hlong).
        exists (String c s), rest'. simpl. rewrite Ep, Hall.
        replace (pos + S (String.length s)) with (S pos + String.length s) by lia.
        split_and!; try done; [lia |].
        intros s2 rest2 Hsplit Hs2 Hlt Hhi.
        destruct s2 as [|x s2]; [simpl in Hlt; lia |].
        rewrite !str_app_cons in Hsplit. injection Hsplit as <- Hsplit.
        simpl in Hs2, Hlt |- *. apply andb_prop in Hs2 as [_ Hs2].
        replace (pos + S (String.length s2)) with (S pos + String.length s2) by lia.
        apply Hlong; [done | done | lia |].
        destruct hi as [h|]; simpl in *; [lia | done].
      * apply Hstop in H as [-> Hk]. exists "", (String c rest). simpl.
        rewrite Nat.add_0_r. split_and!; try done.
        intros s2 rest2 Hsplit Hs2 Hlt Hhi.
        destruct s2 as [|x s2]; [simpl in Hlt; lia |].
        rewrite !str_app_cons in Hsplit. injection Hsplit as <- ->.
        simpl in Hs2 |- *. apply andb_prop in Hs2 as [_ Hs2].
        destruct (k0 (MState (pos + S (String.length s2)) _ _ _)) as [r|] eqn:Ek; [| done].
        destruct (rep_greedy_complete p s2 (pred 0) (pred <$> hi) (S pos) (Some c) rest2
                    caps k0) as [r' Hr']; try done.
        -- simpl. lia.
        -- destruct hi as [h|]; simpl in *; [lia | done].
        -- replace (S pos + String.length s2) with (pos + S (String.length s2)) by lia.
           by rewrite Ek.
        -- by rewrite Hr' in Er.
    + apply Hstop in H as [-> Hk]. exists "", (String c rest). simpl.
      rewrite Nat.add_0_r. split_and!; try done.
      intros s2 rest2 Hsplit Hs2 Hlt Hhi.
      destruct s2 as [|x s2]; [simpl in Hlt; lia |].
      rewrite !str_app_cons in Hsplit. injection Hsplit as <- ->.
      simpl in Hs2. apply andb_prop in Hs2 as [Hc _]. rewrite Hc in E. simpl in E.
      destruct hi as [[|h]|]; simpl in *; [lia | done | done].
Qed.

(** *** The phone pattern of [nlp.py] *)

Lemma nlp_phone_lang (s : string) : lang NLP_PHONE_REGEX s <-> nlp_phone_shaped s.
Proof.
  split.
  - intros (sign & s1 & -> & Hsign & d1 & s2 & -> & (first & -> & Hfirst)
            & middle & d2 & -> & (Hmid & Hlen & _) & (last & -> & Hlast)).
    exists sign, first, middle, last. split_and!; try done.
    destruct Hsign as [-> | H]; [by left | right]. by apply lang_lit1 in H.
  - intros (sign & first & middle & last & -> & Hsign & Hfirst & Hlast & Hlen & Hmid).
    exists sign, (String first (middle ++ String last "")). split; [done |]. split.
    + destruct Hsign as [-> | ->]; [by left | right]. by exists "+"%char.
    + exists (String first ""), (middle ++ String last ""). split; [done |].
      split; [by exists first |].
      exists middle, (String last ""). split; [done |]. split; [done |]. by exists last.
Qed.

Lemma digit_not_plus c : Chr.isdigit c = true -> Ascii.eqb "+" c = false.
Proof. destruct c as [[] [] [] [] [] [] [] []]; vm_compute; congruence. Qed.

(** The step after an optional "+": a digit, the run, a digit. *)
Lemma nlp_phone_tail_longest pos prev (rest : string) st :
  rmatch (Seq (Chr1 digit)
            (Seq (Rep (fun c => digit c || space c || ch "-" c) 8 None) (Chr1 digit)))
         (MState pos prev rest []) Some = Some st ->
  forall first middle last post,
    rest = String first (middle ++ String last post) ->
    Chr.isdigit last = true ->
    Str.str_forall (fun c => Chr.isdigit c || Chr.isspace c || ch "-" c) middle = true ->
    pos + S (String.length middle + 1) <= m_pos st.
Proof.
  intros H first middle last post -> Hlast Hmid. cbn [rmatch m_rest m_pos m_caps] in H.
  destruct (digit first); [| done].
  apply rep_greedy_longest in H as (s & rest' & Hsplit & Hall & Hlo & Hk & Hlong).
  cbn [m_rest m_pos m_caps] in Hk.
  destruct rest' as [|c rest']; [done |]. destruct (digit c); [| done].
  injection Hk as <-. cbn [m_pos].
  destruct (Nat.le_gt_cases (String.length middle) (String.length s)) as [|Hlt]; [lia |].
  specialize (Hlong middle (String last post) eq_refl Hmid Hlt I).
  cbn [m_rest] in Hlong. unfold digit in Hlong. by rewrite Hlast in Hlong.
Qed.

Lemma rmatch_Opt r1 st (k0 : cont) :
  rmatch (Opt r1) st k0
  = match rmatch r1 st k0 with Some res => Some res | None => k0 st end.
Proof. done. Qed.

Lemma rmatch_Chr1_cons p pos prev c (rest : string) caps (k0 : cont) :
  rmatch (Chr1 p) (MState pos prev (String c rest) caps) k0
  = if p c then k0 (MState (S pos) (Some c) rest caps) else None.
Proof. done. Qed.

Lemma shaped_rest (sign : string) first (middle : string) last (post : string) :
  (sign ++ String first (middle ++ String last "")) ++ post
  = sign ++ String first (middle ++ String last post).
Proof.
  rewrite str_app_assoc. f_equal. rewrite str_app_cons. f_equal.
  by rewrite str_app_assoc.
Qed.

Lemma nlp_phone_longest pos prev (rest : string) st :
  rmatch NLP_PHONE_REGEX (MState pos prev rest []) Some = Some st ->
  forall s' post', rest = s' ++ post' -> nlp_phone_shaped s' ->
    pos + String.length s' <= m_pos st.
Proof.
  intros H s' post' ->
    (sign & first & middle & last & -> & Hsign & Hfirst & Hlast & Hlen & Hmid).
  change NLP_PHONE_REGEX
    with (Seq (Opt (Chr1 (Ascii.eqb "+")))
            (Seq (Chr1 digit)
               (Seq (Rep (fun c => digit c || space c || ch "-" c) 8 None) (Chr1 digit))))
    in H.
  rewrite rmatch_Seq, rmatch_Opt, shaped_rest in H.
  rewrite str_length_app. cbn [String.length]. rewrite str_length_app. cbn [String.length].
  destruct Hsign as [-> | ->].
  - rewrite str_app_nil_l, rmatch_Chr1_cons, (digit_not_plus first Hfirst) in H.
    pose proof (nlp_phone_tail_longest pos prev _ st H first middle last post' eq_refl
                  Hlast Hmid) as Hle.
    simpl. lia.
  - rewrite str_app_cons, str_app_nil_l, rmatch_Chr1_cons, Ascii.eqb_refl in H.
    destruct (rmatch _ (MState (S pos) _ _ _) Some) as [res|] eqn:E.
    + injection H as <-.
      pose proof (nlp_phone_tail_longest (S pos) _ _ res E first middle last post' eq_refl
                    Hlast Hmid) as Hle.
      simpl. lia.
    + rewrite rmatch_Seq, rmatch_Chr1_cons in H. by destruct (digit "+") eqn:Ed.
Qed.

Lemma prefix_same_length (a b c e : string) :
  a ++ b = c ++ e -> String.length a = String.length c -> a = c /\ b = e.
Proof.
  revert c. induction a as [|x a IH]; intros [|y c] H Hl; try done.
  rewrite !str_app_cons in H. injection H as -> H. simpl in Hl.
  destruct (IH c H) as [-> ->]; [lia | done].
Qed.

Lemma nlp_phone_none text :
  search NLP_PHONE_REGEX text = None -> no_run nlp_phone_shaped text.
Proof.
  intros H pre s post Hsplit Hs. apply nlp_phone_lang in Hs.
  by apply (search_none_no_run NLP_PHONE_REGEX text eq_refl H pre s post).
Qed.

Lemma nlp_phone_first text m :
  search NLP_PHONE_REGEX text = Some m ->
  first_run nlp_phone_shaped text (group0 text m).
Proof.
  intros H. apply search_from_first in H as (pre & rest & prev & -> & H & Hfirst).
  unfold match_at in H.
  destruct (rmatch NLP_PHONE_REGEX _ Some) as [st|] eqn:E; [| done]. injection H as <-.
  pose proof E as E0.
  apply rmatch_sound in E as (st' & s & [Hr Hp] & Hl & _ & [= ->]).
  simpl in Hr, Hp. unfold group0. simpl. rewrite Hp, Hr.
  replace (String.length pre + String.length s - String.length pre)
    with (String.length s) by lia.
  rewrite substring_mid.
  exists pre, (m_rest st). split; [done |]. split; [by apply nlp_phone_lang |].
  intros pre' s' post' Hsplit Hs'. split.
  - destruct (Nat.le_gt_cases (String.length pre) (String.length pre')) as [|Hlt]; [done |].
    rewrite <- Hr in Hsplit.
    destruct (Hfirst pre' (s' ++ post') Hsplit Hlt) as [prev1 Hn].
    destruct (rmatch_complete NLP_PHONE_REGEX eq_refl s' post'
                (MState (0 + String.length pre') prev1 (s' ++ post') []) Some eq_refl)
      as [res Hres]; [by apply nlp_phone_lang | by eexists |].
    by rewrite Hres in Hn.
  - intros Hlen. symmetry in Hlen.
    destruct (prefix_same_length _ _ _ _ Hsplit Hlen) as [-> Hrest].
    rewrite Hr in E0.
    pose proof (nlp_phone_longest _ _ _ st E0 s' post' Hrest Hs') as Hle.
    simpl in Hle. lia.
Qed.

(** ** Theorems *)

(** C1. On every text the pipeline [build_structured_data] returns (it
    raises nothing), and the record it returns holds every field of the
    schema: each string field with a string, each list field with a list, and
    [testScores] with a dictionary that has its six keys. *)
Theorem C1_build_structured_data_total text :
  exists r, Nlp.build_structured_data text = Ok r /\ schema_complete r.
Proof.
  assert (Hsafe : safe schema_complete (Nlp.build_structured_data_body text)).
  { unfold Nlp.build_structured_data_body.
    repeat (cbv zeta; apply safe_bind;
            [first [apply parse_education_safe | safe_step] | intros _]).
    apply parse_test_scores_safe. }
  destruct (Hsafe _ base_schema_complete) as (a & r & E & Hr).
  exists r. unfold Nlp.build_structured_data. by rewrite E.
Qed.

(** C2, as stated, fails: after the line "B.Tech (AI) 2020 8.5" the field
    [ugMajor] holds "AI", and the later undergraduate line
    "BSc (Physics) 2021 91%" replaces it. *)
Lemma C2_counterexample :
  ~ first_line_wins_at ["B.Tech (AI) 2020 8.5"] "BSc (Physics) 2021 91%"
      empty_resume_schema "ugMajor".
Proof.
  intros H. specialize (H (VStr "AI")).
  assert (E : (for_each (["B.Tech (AI) 2020 8.5"] ++ ["BSc (Physics) 2021 91%"])%list
                 Nlp.education_line empty_resume_schema).2 !! "ugMajor"
              = Some (VStr "Physics")) by (vm_compute; reflexivity).
  rewrite E in H. discriminate H; vm_compute; reflexivity.
Qed.

(** C2, as the code has it. The name and degree of a tier are stored under
    a guard and the address, board and university fields are never stored:
    once one of them holds a non-empty value no later line changes it,
    neither in a run over any list of lines nor in [parse_education]. The
    major, the grade with its scale, and the graduation year are stored
    without a guard: a line of the tier replaces each of them when its
    pattern matches in the line, and leaves it as it was otherwise. And
    [parse_education] leaves the address, board and university fields as
    they were, whatever they held. *)
Theorem C2_guarded_fields_keep_first :
  (forall lines d k v,
     k ∈ kept_fields -> d !! k = Some v -> truthy v = true ->
     (for_each lines Nlp.education_line d).2 !! k = Some v) /\
  (forall text d k v,
     k ∈ kept_fields -> d !! k = Some v -> truthy v = true ->
     (Nlp.parse_education text d).2 !! k = Some v) /\
  (forall line d t,
     classify line = Some t -> tier_ready t d ->
     let d' := (Nlp.education_line line d).2 in
     (forall k, major_key t = Some k -> d' !! k = overwrite (major_of line) (d !! k)) /\
     d' !! grade_key t = overwrite (fst <$> grade_of line) (d !! grade_key t) /\
     d' !! scale_key t = overwrite (snd <$> grade_of line) (d !! scale_key t) /\
     d' !! year_key t = overwrite (year_of line) (d !! year_key t)) /\
  (forall text d k,
     k ∈ never_stored_fields -> (Nlp.parse_education text d).2 !! k = d !! k).
Proof.
  split_and!.
  - intros lines d k v Hk Hd Ht.
    apply (stable_for_each (fun d' => d' !! k = Some v)); [| done].
    intros line. by apply education_line_keeps.
  - intros text d k v Hk Hd Ht. unfold Nlp.parse_education.
    destruct (Str.is_empty _); [done |].
    apply (stable_for_each (fun d' => d' !! k = Some v)); [| done].
    intros line. by apply education_line_keeps.
  - intros line d t Hc Hr.
    destruct (education_line_fields line d t Hc Hr) as (_ & _ & Hm & Hg & Hs & Hy).
    done.
  - intros text d k Hk. unfold Nlp.parse_education.
    destruct (Str.is_empty _); [done |].
    apply (stable_for_each (fun d' => d' !! k = d !! k)); [| done].
    intros line. by apply education_line_never_stored.
Qed.

(** C2 at a second undergraduate line: the name stays, the major is replaced. *)
Lemma C2_witness :
  let d := (Nlp.parse_education one_ug_line empty_resume_schema).2 in
  let later := "Education" ++ Str.nl ++ "BSc (Physics) 2021 91%" in
  (Nlp.parse_education later d).2 !! "ugCollegeName"
    = Some (VStr "B.Tech Computer Science (AI) 2021 8.5") /\
  (Nlp.education_line "BSc (Physics) 2021 91%" d).2 !! "ugMajor" = Some (VStr "Physics").
Proof.
  intros d later. split.
  - apply (proj1 (proj2 C2_guarded_fields_keep_first) later d "ugCollegeName").
    + apply (bool_decide_unpack _); vm_compute; exact I.
    + vm_compute; reflexivity.
    + vm_compute; reflexivity.
  - assert (Hc : classify "BSc (Physics) 2021 91%" = Some Undergraduate)
      by (vm_compute; reflexivity).
    assert (Hr : tier_ready Undergraduate d)
      by (split; eexists; vm_compute; reflexivity).
    exact (proj1 (proj1 (proj2 (proj2 C2_guarded_fields_keep_first)) _ d _ Hc Hr)
             "ugMajor" eq_refl).
Defined.

(** C3. When no line of the text is recognized as a section heading, that
    is, when the heading test of [find_sections] (the pattern of a
    configured synonym with an optional colon, matched in full and without
    regard to case against the trimmed, lowercased line) fails for every
    line and every synonym, [find_sections] gives the whole text, verbatim,
    as the body of [summary] and the empty string as the body of every
    other category. *)
Theorem C3_no_heading_summary_takes_all text :
  has_section_heading text = false ->
  App1.find_sections text =
    list_to_map [ ("summary", text); ("education", ""); ("experience", "");
                  ("projects", ""); ("skills", "") ].
Proof.
  intros H. unfold App1.find_sections.
  rewrite mark_lines_none.
  - rewrite map_to_list_empty. simpl. apply insert_insert_eq.
  - intros raw entry kw Hraw He Hkw.
    pose proof (existsb_false _ _ H raw Hraw) as H1. cbv beta in H1.
    pose proof (existsb_false _ _ H1 entry He) as H2. cbv beta in H2.
    exact (existsb_false _ _ H2 kw Hkw).
Qed.

(** C3 at a text of two lines, neither of them a heading. *)
Lemma C3_witness :
  let text := "Jane Roe" ++ Str.nl ++ "Educational background: none" in
  has_section_heading text = false /\
  App1.find_sections text !! "summary" = Some text /\
  App1.find_sections text !! "education" = Some "".
Proof.
  intros text. split; [vm_compute; reflexivity |].
  rewrite (C3_no_heading_summary_takes_all text) by (vm_compute; reflexivity).
  split; vm_compute; reflexivity.
Defined.

(** C4, as stated, fails for [extract_phone] of [nlp.py], whose pattern
    counts characters, not digits: from the text "2019 - 2023" it returns
    the whole text as the phone, which has 8 digits. *)
Lemma C4_counterexample :
  Nlp.extract_phone "2019 - 2023" = "2019 - 2023" /\
  ~ phone_digits_in_range (Nlp.extract_phone "2019 - 2023").
Proof.
  split; [vm_compute; reflexivity |].
  intros H. destruct H as [H _]; [by vm_compute |].
  vm_compute in H. lia.
Qed.


(** C4, as the code has it. [extract_phone] of [app1.py] walks the matches
    of its pattern in order and returns the first whose text has 10 to 13
    digits, separators kept and stripped; it returns nothing when no match
    has. [extract_phone] of [nlp.py] counts no digits: when some run of the
    text has the shape of its pattern (an optional "+", a digit, at least
    eight digits, whitespace characters or hyphens, a digit) it returns the
    first such run, the one that starts leftmost and is the longest of
    those that start there, which stripping leaves as it is; it returns the
    empty string exactly when no run of the text has that shape. Both
    extractors give "+1 415-555-2671", with its 11 digits, for the text
    "Phone: +1 415-555-2671", and nothing for "Room 12-34". *)
Theorem C4_phone_first_accepted_candidate :
  (forall text phone,
     App1.extract_phone text = Some phone ->
     exists before m after,
       App1.findall_phone text = (before ++ m :: after)%list /\
       Forall (fun m' => ~ accepted (candidate_of m')) before /\
       accepted (candidate_of m) /\
       phone = Str.strip (candidate_of m)) /\
  (forall text,
     App1.extract_phone text = None ->
     Forall (fun m' => ~ accepted (candidate_of m')) (App1.findall_phone text)) /\
  (forall text,
     Nlp.extract_phone text <> "" ->
     first_run nlp_phone_shaped text (Nlp.extract_phone text)) /\
  (forall text,
     Nlp.extract_phone text = "" <-> no_run nlp_phone_shaped text) /\
  App1.extract_phone "Phone: +1 415-555-2671" = Some "+1 415-555-2671" /\
  Nlp.extract_phone "Phone: +1 415-555-2671" = "+1 415-555-2671" /\
  String.length (App1.digits_of "+1 415-555-2671") = 11 /\
  App1.extract_phone "Room 12-34" = None /\
  Nlp.extract_phone "Room 12-34" = "".
Proof.
  assert (Hfound : forall text m, search NLP_PHONE_REGEX text = Some m ->
            Nlp.extract_phone text = group0 text m /\
            first_run nlp_phone_shaped text (group0 text m)).
  { intros text m E. unfold Nlp.extract_phone. rewrite E.
    destruct (nlp_phone_match text m E) as (_ & _ & ->).
    split; [done | by apply nlp_phone_first]. }
  split_and!.
  - intros text phone H. unfold App1.extract_phone in H.
    pose proof (extract_phone_loop_spec (App1.findall_phone text)) as Hs.
    by rewrite H in Hs.
  - intros text H. unfold App1.extract_phone in H.
    pose proof (extract_phone_loop_spec (App1.findall_phone text)) as Hs.
    by rewrite H in Hs.
  - intros text Hne. destruct (search NLP_PHONE_REGEX text) as [m|] eqn:E.
    + destruct (Hfound text m E) as [-> Hfirst]. exact Hfirst.
    + unfold Nlp.extract_phone in Hne. by rewrite E in Hne.
  - intros text. destruct (search NLP_PHONE_REGEX text) as [m|] eqn:E.
    + destruct (Hfound text m E) as [-> (pre & post & Hsplit & Hshape & _)].
      split.
      * intros Hempty. rewrite Hempty in Hshape.
        destruct Hshape as (sign & first & middle & last & Hs & _).
        destruct sign; discriminate Hs.
      * intros Hno. by destruct (Hno pre (group0 text m) post).
    + split; [intros _; by apply nlp_phone_none |].
      intros _. unfold Nlp.extract_phone. by rewrite E.
  - vm_compute; reflexivity.
  - vm_compute; reflexivity.
  - vm_compute; reflexivity.
  - vm_compute; reflexivity.
  - vm_compute; reflexivity.
Qed.

(** C4 at a text whose first match, of nine digits, is passed over by
    [extract_phone] of [app1.py], and at a text where the first run that
    [extract_phone] of [nlp.py] takes is a span of years. *)
Lemma C4_witness :
  App1.findall_phone "Ref 123456789, call 415-555-2671"
    = [("", "123456789"); ("", "415-555-2671")] /\
  (exists before m after,
     App1.findall_phone "Ref 123456789, call 415-555-2671" = (before ++ m :: after)%list /\
     Forall (fun m' => ~ accepted (candidate_of m')) before /\
     accepted (candidate_of m) /\
     "415-555-2671" = Str.strip (candidate_of m)) /\
  first_run nlp_phone_shaped "2019 - 2023, call 415-555-2671"
    (Nlp.extract_phone "2019 - 2023, call 415-555-2671") /\
  Nlp.extract_phone "2019 - 2023, call 415-555-2671" = "2019 - 2023".
Proof.
  split; [vm_compute; reflexivity |]. split.
  - apply (proj1 C4_phone_first_accepted_candidate "Ref 123456789, call 415-555-2671").
    vm_compute; reflexivity.
  - split; [| vm_compute; reflexivity].
    apply (proj1 (proj2 (proj2 C4_phone_first_accepted_candidate))
             "2019 - 2023, call 415-555-2671").
    vm_compute. discriminate.
Defined.

(** C5. For a line of any tier, read from a dictionary that has the keys
    the line reads: when the percentage pattern matches, its first match is
    stored as the grade with scale "percentage", whether or not the GPA
    pattern matches too; when only the GPA pattern matches, its first match
    is stored with scale "cgpa"; when neither matches, grade and scale stay.
    And the education section "B.Tech Computer Science (AI) 2021 8.5" gives
    degree "Bachelor", major "AI", year "2021", grade "8.5", scale "cgpa". *)
Theorem C5_percentage_before_gpa :
  (forall line d t,
     classify line = Some t -> tier_ready t d ->
     let d' := (Nlp.education_line line d).2 in
     match search PERC_REGEX line, search CGPA_REGEX line with
     | Some m, _ =>
         d' !! grade_key t = Some (VStr (group0 line m)) /\
         d' !! scale_key t = Some (VStr "percentage")
     | None, Some m =>
         d' !! grade_key t = Some (VStr (group0 line m)) /\
         d' !! scale_key t = Some (VStr "cgpa")
     | None, None =>
         d' !! grade_key t = d !! grade_key t /\
         d' !! scale_key t = d !! scale_key t
     end) /\
  (let r := (Nlp.parse_education one_ug_line empty_resume_schema).2 in
   r !! "ugDegree" = Some (VStr "Bachelor") /\
   r !! "ugMajor" = Some (VStr "AI") /\
   r !! "ugGraduationYear" = Some (VStr "2021") /\
   r !! "ugCollegeGpaOrPercentage" = Some (VStr "8.5") /\
   r !! "ugCollegeGpaScale" = Some (VStr "cgpa")).
Proof.
  split.
  - intros line d t Hc Hr.
    destruct (education_line_fields line d t Hc Hr) as (_ & _ & _ & Hg & Hs & _).
    cbv zeta. rewrite Hg, Hs. unfold grade_of.
    by destruct (search PERC_REGEX line), (search CGPA_REGEX line).
  - cbv zeta. split_and!; vm_compute; reflexivity.
Qed.

(** C5 at a line with a GPA and a percentage. *)
Lemma C5_witness :
  let line := "BSc Physics 8.5 CGPA, 81.5 %" in
  let d' := (Nlp.education_line line empty_resume_schema).2 in
  d' !! "ugCollegeGpaOrPercentage" = Some (VStr "81.5 %") /\
  d' !! "ugCollegeGpaScale" = Some (VStr "percentage").
Proof.
  intros line d'.
  assert (Hc : classify line = Some Undergraduate) by (vm_compute; reflexivity).
  assert (Hr : tier_ready Undergraduate empty_resume_schema)
    by (split; eexists; vm_compute; reflexivity).
  pose proof (proj1 C5_percentage_before_gpa line empty_resume_schema _ Hc Hr) as H.
  cbv zeta in H.
  assert (Ep : search PERC_REGEX line = Some (Match 22 28 [(1, (25, 26))]))
    by (vm_compute; reflexivity).
  rewrite Ep in H. exact H.
Defined.

(** C6, as stated, fails for [extract_name] of [nlp.py]: it returns the
    line "* * *", no word of which has a letter, and the line
    "Portfolio: www.janeroe.dev", which contains a URL. *)
Lemma C6_counterexample :
  Nlp.extract_name "* * *" = "* * *" /\
  ~ name_as_specified (Nlp.extract_name "* * *") /\
  Nlp.extract_name "Portfolio: www.janeroe.dev" = "Portfolio: www.janeroe.dev" /\
  ~ name_as_specified (Nlp.extract_name "Portfolio: www.janeroe.dev").
Proof.
  split_and!; try (vm_compute; reflexivity).
  - intros H. destruct H as [H _]; [by vm_compute |]. by vm_compute in H.
  - intros H. destruct H as [_ H]; [by vm_compute |]. by vm_compute in H.
Qed.

(** C6, as the code has it. [guess_name] of [app1.py] returns, stripped,
    the first of the first 8 lines that is not blank, has no email, URL or
    phone match, and has 2 to 4 words each with a letter; nothing when
    there is none. [extract_name] of [nlp.py] returns the first of the first
    5 non-blank stripped lines that has no "@", no digit and 2 to 4 words
    (it looks neither for URLs nor for letters), and the empty string when
    there is none. On the lines "John Smith", "john@x.com",
    "+1 415 555 0000" both return "John Smith". *)
Theorem C6_name_first_qualifying_line :
  (forall lines,
     match App1.guess_name lines with
     | Some name =>
         exists line, name = Str.strip line /\
           first_among 8 (fun l => app1_name_like (Str.strip l)) lines line
     | None => none_among 8 (fun l => app1_name_like (Str.strip l)) lines
     end) /\
  (forall text,
     first_among 5 nlp_name_like (Nlp.stripped_lines text) (Nlp.extract_name text) \/
     (Nlp.extract_name text = "" /\
      none_among 5 nlp_name_like (Nlp.stripped_lines text))) /\
  App1.guess_name header_lines = Some "John Smith" /\
  Nlp.extract_name (Str.join Str.nl header_lines) = "John Smith".
Proof.
  split_and!.
  - intros lines. unfold App1.guess_name. rewrite guess_name_loop_find.
    pose proof (find_first_take (fun l => app1_name_like (Str.strip l)) 8 lines) as H.
    destruct (List.find _ (take 8 lines)) as [line|]; simpl; [by exists line | done].
  - intros text. unfold Nlp.extract_name. rewrite extract_name_loop_find.
    pose proof (find_first_take nlp_name_like 5 (Nlp.stripped_lines text)) as H.
    destruct (List.find _ (take 5 _)) as [line|]; simpl; [by left | by right].
  - vm_compute; reflexivity.
  - vm_compute; reflexivity.
Qed.

(** C6 at the three header lines. *)
Lemma C6_witness :
  exists line, "John Smith" = Str.strip line /\
    first_among 8 (fun l => app1_name_like (Str.strip l)) header_lines line.
Proof.
  pose proof (proj1 C6_name_first_qualifying_line header_lines) as H.
  assert (E : App1.guess_name header_lines = Some "John Smith")
    by (vm_compute; reflexivity).
  rewrite E in H. exact H.
Defined.

(** C7, as stated, fails: in the text with the lines "Education",
    "BSc Physics", "Experience", "Acme Corp" the education block does not
    end at the known heading "Experience" (which is neither all-uppercase
    nor closed by a colon) but runs to the end of the text. *)
Lemma C7_counterexample :
  Nlp.find_section_block two_sections Nlp.EDUCATION_KEYWORDS
    = "BSc Physics" ++ Str.nl ++ "Experience" ++ Str.nl ++ "Acme Corp" /\
  specified_section_block two_sections Nlp.EDUCATION_KEYWORDS = "BSc Physics" /\
  Nlp.find_section_block two_sections Nlp.EDUCATION_KEYWORDS
    <> specified_section_block two_sections Nlp.EDUCATION_KEYWORDS.
Proof. split_and!; [vm_compute; reflexivity | vm_compute; reflexivity | by vm_compute]. Qed.

(** C7, as the code has it. [find_section_block] starts after the first
    line that is one of the keywords (with an optional colon); the block
    ends at the first later line whose stripped text is all-uppercase with
    at most five words or is letters and spaces closed by a colon, and runs
    to the end of the text when there is no such line; the block is the
    lines in between, joined by line feeds and stripped. A later known
    heading that is neither does not end the block. With no start line the
    block is empty. *)
Theorem C7_block_ends_at_generic_heading text keywords :
  let lines := Str.splitlines text in
  match Nlp.find_start_from 0 keywords (Str.lower <$> lines) with
  | None =>
      (forall line, line ∈ lines -> Nlp.is_heading_of keywords (Str.lower line) = false) /\
      Nlp.find_section_block text keywords = ""
  | Some start =>
      (exists h, lines !! start = Some h /\
                 Nlp.is_heading_of keywords (Str.lower h) = true) /\
      (forall j l, j < start -> lines !! j = Some l ->
                   Nlp.is_heading_of keywords (Str.lower l) = false) /\
      exists e,
        start < e <= length lines /\
        (forall j l, start < j < e -> lines !! j = Some l ->
                     Nlp.ends_block (Str.strip l) = false) /\
        (e < length lines ->
         exists l, lines !! e = Some l /\ Nlp.ends_block (Str.strip l) = true) /\
        Nlp.find_section_block text keywords
          = Str.strip (Str.join Str.nl (Str.slice lines (S start) e))
  end.
Proof.
  intros lines. unfold Nlp.find_section_block. fold lines.
  pose proof (find_start_from_spec keywords (Str.lower <$> lines) 0) as Hs.
  destruct (Nlp.find_start_from 0 keywords (Str.lower <$> lines)) as [start|].
  - destruct Hs as (_ & (h & Hh & Hhead) & Hbefore).
    rewrite Nat.sub_0_r in Hh, Hbefore.
    apply list_lookup_fmap_Some in Hh as (raw & -> & Hraw).
    assert (Hlen : start < length lines) by (apply lookup_lt_is_Some; by eexists).
    split_and!.
    + by exists raw.
    + intros j l Hj Hl. apply (Hbefore j); [done |]. by rewrite list_lookup_fmap, Hl.
    + destruct (find_end_from_spec (drop (S start) lines) (S start))
        as ((Hlo & Hhi) & Hmid & Hat).
      rewrite length_drop in Hhi, Hat.
      exists (Nlp.find_end_from (S start) (drop (S start) lines)). split_and!.
      * lia.
      * lia.
      * intros j l [Hj1 Hj2] Hl. apply (Hmid (j - S start)); [| lia].
        rewrite lookup_drop. by replace (S start + (j - S start)) with j by lia.
      * intros He. destruct Hat as (l & Hl & Hends); [lia |].
        exists l. split; [| done]. rewrite lookup_drop in Hl.
        by replace (S start + (Nlp.find_end_from (S start) (drop (S start) lines) - S start))
          with (Nlp.find_end_from (S start) (drop (S start) lines)) in Hl by lia.
      * done.
  - split; [| done]. intros line Hin. apply Hs.
    apply list_elem_of_fmap. by exists line.
Qed.

(** C7 at a text with an education heading. *)
Lemma C7_witness :
  exists e,
    0 < e <= 4 /\
    (forall j l, 0 < j < e -> Str.splitlines two_sections !! j = Some l ->
                 Nlp.ends_block (Str.strip l) = false) /\
    Nlp.find_section_block two_sections Nlp.EDUCATION_KEYWORDS
      = Str.strip (Str.join Str.nl (Str.slice (Str.splitlines two_sections) 1 e)).
Proof.
  pose proof (C7_block_ends_at_generic_heading two_sections Nlp.EDUCATION_KEYWORDS) as H.
  cbv zeta in H.
  assert (E : Nlp.find_start_from 0 Nlp.EDUCATION_KEYWORDS
                (Str.lower <$> Str.splitlines two_sections) = Some 0)
    by (vm_compute; reflexivity).
  rewrite E in H. destruct H as (_ & _ & e & Hrange & Hmid & _ & Hblock).
  exists e. split; [exact Hrange |]. split; [exact Hmid | exact Hblock].
Defined.

(** C8, as stated, fails: with the score [gre] already "300", the text
    "GRE: 320" makes [parse_test_scores] replace it by "320". *)
Lemma C8_counterexample :
  score_of scored_schema "gre" = Some "300" /\
  score_of (Nlp.parse_test_scores "GRE: 320" scored_schema).2 "gre" = Some "320" /\
  ~ keeps_nonempty_score "GRE: 320" scored_schema "gre".
Proof.
  split_and!; try (vm_compute; reflexivity).
  intros H. specialize (H "300"). vm_compute in H.
  discriminate H; [reflexivity | by intros [=]].
Qed.

(** C8, as the code has it. For a schema whose [testScores] dictionary has
    the six score keys, [parse_test_scores] returns; each score field then
    holds the digits found for its keyword when the text has a match, also
    when the field was not empty before, and its value from before the call
    when there is none; no other key of the score dictionary changes; and a
    second call on the same text changes nothing more. *)
Theorem C8_parse_test_scores_found_wins text d (ts : gmap string string) :
  d !! "testScores" = Some (VDict ts) ->
  (forall k, k ∈ score_fields -> is_Some (ts !! k)) ->
  exists ts' : gmap string string,
    let d' := <["testScores" := VDict ts']> d in
    Nlp.parse_test_scores text d = (Ok tt, d') /\
    (forall k, k ∈ score_fields ->
       ts' !! k = if Str.is_empty (Nlp.grab_score (Str.lower text) k)
                  then ts !! k
                  else Some (Nlp.grab_score (Str.lower text) k)) /\
    (forall k, k ∉ score_fields -> ts' !! k = ts !! k) /\
    Nlp.parse_test_scores text d' = (Ok tt, d').
Proof.
  intros Hd Hsc. exists (scores_after (Str.lower text) ts). cbv zeta. split_and!.
  - by apply parse_test_scores_run.
  - intros k Hk. destruct (Hsc k Hk) as [old Hold].
    rewrite (scores_after_field _ _ k old) by done.
    unfold new_score. cbv zeta. rewrite Hold. by destruct (Str.is_empty _).
  - intros k Hk. by apply scores_after_other.
  - erewrite parse_test_scores_run; [| apply lookup_insert_eq |].
    + by rewrite insert_insert_eq, scores_after_idem.
    + intros k Hk. destruct (Hsc k Hk) as [old Hold].
      rewrite (scores_after_field _ _ k old) by done. by eexists.
Qed.

(** C8 at a schema whose [gre] score is already set. *)
Lemma C8_witness :
  exists ts' : gmap string string,
    Nlp.parse_test_scores "GRE: 320" scored_schema
      = (Ok tt, <["testScores" := VDict ts']> scored_schema) /\
    ts' !! "gre" = Some "320" /\ ts' !! "sat" = Some "".
Proof.
  destruct (C8_parse_test_scores_found_wins "GRE: 320" scored_schema
              (list_to_map [ ("sat", ""); ("act", ""); ("gre", "300");
                             ("gmat", ""); ("toefl", ""); ("ielts", "") ]))
    as (ts' & Hrun & Hfield & _ & _).
  - vm_compute; reflexivity.
  - apply Forall_forall. unfold score_fields.
    repeat (apply Forall_cons; split; [eexists; vm_compute; reflexivity |]).
    apply Forall_nil_2.
  - exists ts'. split; [exact Hrun |]. split.
    + rewrite (Hfield "gre") by (apply (bool_decide_unpack _); vm_compute; exact I).
      vm_compute; reflexivity.
    + rewrite (Hfield "sat") by (apply (bool_decide_unpack _); vm_compute; exact I).
      vm_compute; reflexivity.
Defined.

(** C9. [parse_education] changes no key of the schema outside the
    education tiers (the [highSchool*], [ug*] and [pg*] keys), whether it
    returns or raises; and when the text has no education section (the
    block [find_section_block] finds for the education headings is empty,
    as it is when its heading test fails for every line) it returns with
    the whole record unchanged. *)
Theorem C9_parse_education_frame text d :
  (forall k, k ∉ education_fields -> (Nlp.parse_education text d).2 !! k = d !! k) /\
  (Nlp.find_section_block text Nlp.EDUCATION_KEYWORDS = "" ->
   Nlp.parse_education text d = (Ok tt, d)) /\
  (has_education_heading text = false -> Nlp.parse_education text d = (Ok tt, d)).
Proof.
  split_and!.
  - intros k Hk. unfold Nlp.parse_education.
    destruct (Str.is_empty _); [done |].
    apply (stable_for_each (fun d' => d' !! k = d !! k)); [| done].
    intros line. by apply education_line_frame.
  - intros H. unfold Nlp.parse_education. by rewrite H.
  - intros H. unfold Nlp.parse_education.
    by rewrite (no_heading_block Nlp.EDUCATION_KEYWORDS text H).
Qed.

(** C9 at a text with an education section, at one without a heading, and
    at one with a heading and nothing under it. *)
Lemma C9_witness :
  ("skills" ∉ education_fields) /\
  (Nlp.parse_education one_ug_line empty_resume_schema).2 !! "skills"
    = empty_resume_schema !! "skills" /\
  has_education_heading "Jane Roe" = false /\
  Nlp.parse_education "Jane Roe" scored_schema = (Ok tt, scored_schema) /\
  Nlp.find_section_block ("Education:" ++ Str.nl ++ "  ") Nlp.EDUCATION_KEYWORDS = "" /\
  Nlp.parse_education ("Education:" ++ Str.nl ++ "  ") scored_schema
    = (Ok tt, scored_schema).
Proof.
  assert (Hout : "skills" ∉ education_fields)
    by (apply (bool_decide_unpack _); vm_compute; exact I).
  assert (Hblock : Nlp.find_section_block ("Education:" ++ Str.nl ++ "  ")
                     Nlp.EDUCATION_KEYWORDS = "") by (vm_compute; reflexivity).
  split; [exact Hout |]. split.
  - exact (proj1 (C9_parse_education_frame one_ug_line empty_resume_schema) "skills" Hout).
  - split; [vm_compute; reflexivity |]. split.
    + apply (proj2 (proj2 (C9_parse_education_frame "Jane Roe" scored_schema))).
      vm_compute; reflexivity.
    + split; [exact Hblock |].
      exact (proj1 (proj2 (C9_parse_education_frame ("Education:" ++ Str.nl ++ "  ")
                             scored_schema)) Hblock).
Defined.

(** C10. The keyword search for a score has no word boundary: on the text
    "Contact: 9876543210", and on every text that continues it with
    something other than a digit, [parse_test_scores] stores the digits
    after the colon as the [act] score, whatever the field held before. *)
Theorem C10_act_found_inside_contact post d (ts : gmap string string) :
  d !! "testScores" = Some (VDict ts) ->
  (forall k, k ∈ score_fields -> is_Some (ts !! k)) ->
  no_leading_digit post ->
  exists d', Nlp.parse_test_scores ("Contact: 9876543210" ++ post) d = (Ok tt, d') /\
             score_of d' "act" = Some "9876543210".
Proof.
  intros Hd Hsc Hpost. eexists. split; [by apply parse_test_scores_run |].
  unfold score_of. rewrite lookup_insert_eq.
  destruct (Hsc "act") as [old Hold]; [solve_mem |].
  rewrite (scores_after_field _ _ "act" old); [| solve_mem | done].
  unfold new_score. cbv zeta. by rewrite grab_act_in_contact.
Qed.

(** C10 at the text "Contact: 9876543210" itself, on the fresh schema. *)
Lemma C10_witness :
  exists d', Nlp.parse_test_scores ("Contact: 9876543210" ++ "") empty_resume_schema
               = (Ok tt, d') /\
             score_of d' "act" = Some "9876543210".
Proof.
  apply (C10_act_found_inside_contact "" empty_resume_schema
           (list_to_map [ ("sat", ""); ("act", ""); ("gre", "");
                          ("gmat", ""); ("toefl", ""); ("ielts", "") ])).
  - vm_compute; reflexivity.
  - apply Forall_forall. unfold score_fields.
    repeat (apply Forall_cons; split; [eexists; vm_compute; reflexivity |]).
    apply Forall_nil_2.
  - exact I.
Defined.


(** ** Further properties of the code *)

(** X1. [clean_text] of [app1.py] and [_clean] of [nlp.py] give the words of
    the text joined by single spaces: what [" ".join(text.split())] gives. *)
Theorem X1_clean_text_joins_words text :
  App1.clean_text text = Str.join " " (Str.split text) /\
  Nlp._clean text = Str.join " " (Str.split text).
Proof.
  unfold App1.clean_text, Nlp._clean. rewrite sub_spaces. split; apply strip_collapse.
Qed.

(** X2. An email that [extract_email] returns occurs in the text and is a
    local part, "@", a domain, "." and at least two letters; the extractor
    of [nlp.py] gives the empty string exactly when that of [app1.py] gives
    nothing. *)
Theorem X2_extract_email_shape text :
  (forall e, App1.extract_email text = Some e -> email_shaped e /\ occurs_in e text) /\
  Nlp.extract_email text = default "" (App1.extract_email text) /\
  (Nlp.extract_email text = "" <-> App1.extract_email text = None).
Proof.
  unfold App1.extract_email, Nlp.extract_email.
  destruct (search EMAIL_REGEX text) as [m|] eqn:E; simpl.
  - destruct (email_match text m E) as [Hs Ho]. split_and!; [| done |].
    + by intros e [= <-].
    + split; [| done]. intros H. rewrite H in Hs.
      destruct Hs as (loc & domain & tld & He & Hloc & _). by destruct loc.
  - by split_and!.
Qed.

(** X2 at a text with an address. *)
Lemma X2_witness :
  email_shaped "john.doe@example.co.uk" /\
  occurs_in "john.doe@example.co.uk" "Contact: john.doe@example.co.uk for info".
Proof.
  apply (proj1 (X2_extract_email_shape "Contact: john.doe@example.co.uk for info")).
  vm_compute; reflexivity.
Defined.

(** X3. A phone that [extract_phone] of [nlp.py] returns is not empty only
    when it occurs in the text and is an optional "+", a digit, at least
    eight digits, whitespace characters or hyphens, and a digit: at least
    ten characters, of which only two need be digits. *)
Theorem X3_nlp_extract_phone_shape text :
  Nlp.extract_phone text = "" \/
  (nlp_phone_shaped (Nlp.extract_phone text) /\
   occurs_in (Nlp.extract_phone text) text).
Proof.
  unfold Nlp.extract_phone. destruct (search NLP_PHONE_REGEX text) as [m|] eqn:E.
  - right. destruct (nlp_phone_match text m E) as (Hs & Ho & ->). done.
  - by left.
Qed.

(** X4. [parse_test_scores] keeps the scores strings of digits: if every
    score is one before the call, every score is one after it; and every
    score of the record the pipeline returns is a string of digits. *)
Theorem X4_scores_are_digit_strings text :
  (forall d, holds_at "testScores" scores_are_digits d ->
             holds_at "testScores" scores_are_digits (Nlp.parse_test_scores text d).2) /\
  (forall r, Nlp.build_structured_data text = Ok r ->
             holds_at "testScores" scores_are_digits r).
Proof.
  split; [apply parse_test_scores_digits |].
  intros r Hr. apply (build_invariant text "testScores" scores_are_digits r);
    [by right | | | apply parse_test_scores_digits | done].
  - exact base_scores_digits.
  - apply parse_education_stable. intros line. apply frame_holds. intros o.
    apply education_line_frame. apply (bool_decide_unpack _). by vm_compute.
Qed.

(** X4 at the text "GRE: 320, IELTS - 7". *)
Lemma X4_witness :
  holds_at "testScores" scores_are_digits
    (Nlp.parse_test_scores "GRE: 320, IELTS - 7" empty_resume_schema).2.
Proof.
  apply (proj1 (X4_scores_are_digit_strings "GRE: 320, IELTS - 7")).
  exact base_scores_digits.
Defined.

(** X5. [parse_test_scores] changes no key of the schema but [testScores],
    whether it returns or raises. *)
Theorem X5_parse_test_scores_frame text d k :
  k <> "testScores" -> (Nlp.parse_test_scores text d).2 !! k = d !! k.
Proof. intros Hk. by apply (parse_test_scores_frame text k (d !! k)). Qed.

(** X5 at the key [name]. *)
Lemma X5_witness :
  (Nlp.parse_test_scores "GRE: 320" empty_resume_schema).2 !! "name" = Some (VStr "").
Proof.
  rewrite (X5_parse_test_scores_frame "GRE: 320" empty_resume_schema "name") by done.
  vm_compute; reflexivity.
Defined.

(** X6. On a dictionary without the key [testScores], [parse_test_scores]
    raises [KeyError] for that key; on one where [testScores] is a string or
    a list it raises [TypeError]; both leave the dictionary as it was. *)
Theorem X6_parse_test_scores_errors text d :
  (d !! "testScores" = None ->
   Nlp.parse_test_scores text d = (Err (KeyError "testScores"), d)) /\
  (forall v, d !! "testScores" = Some v -> (forall ts, v <> VDict ts) ->
   Nlp.parse_test_scores text d = (Err TypeError, d)).
Proof.
  unfold Nlp.parse_test_scores, Nlp.set_score, Nlp.subscript. cbv zeta. split.
  - intros H. unfold bind, getitem, ret.
    destruct (Str.is_empty _); by rewrite ?H.
  - intros v H Hv. unfold bind, getitem, ret, raise.
    destruct (Str.is_empty _); rewrite ?H; destruct v; simpl; rewrite ?H; try done;
      by destruct (Hv d0).
Qed.

(** X6 at the empty dictionary and at one with a string under the key. *)
Lemma X6_witness :
  Nlp.parse_test_scores "GRE: 320" ∅ = (Err (KeyError "testScores"), ∅) /\
  Nlp.parse_test_scores "GRE: 320" {["testScores" := VStr "n/a"]}
    = (Err TypeError, {["testScores" := VStr "n/a"]}).
Proof.
  split.
  - by apply (proj1 (X6_parse_test_scores_errors "GRE: 320" ∅)).
  - by apply (proj2 (X6_parse_test_scores_errors "GRE: 320"
                       {["testScores" := VStr "n/a"]}) (VStr "n/a")).
Defined.

(** X7. A line of the education section touches only the fields of its own
    tier, the tier being the first of secondary, undergraduate and
    postgraduate one of whose keywords occurs in the line; a line with no
    keyword of any tier changes nothing. *)
Theorem X7_line_writes_its_tier_only line d :
  (forall t k, classify line = Some t -> k ∉ tier_fields t ->
               (Nlp.education_line line d).2 !! k = d !! k) /\
  (classify line = None -> Nlp.education_line line d = (Ok tt, d)).
Proof.
  split.
  - intros t k Hc Hk. by apply (education_line_tier_frame line t k (d !! k)).
  - apply education_line_unclassified.
Qed.

(** X7 at a line with keywords of two tiers: it counts as secondary. *)
Lemma X7_witness :
  let line := "SSC 2015, later Bachelor of Science" in
  classify line = Some Secondary /\
  (Nlp.education_line line empty_resume_schema).2 !! "ugDegree" = Some (VStr "").
Proof.
  intros line.
  assert (Hc : classify line = Some Secondary) by (vm_compute; reflexivity).
  split; [exact Hc |].
  rewrite (proj1 (X7_line_writes_its_tier_only line empty_resume_schema)
             Secondary "ugDegree" Hc).
  - vm_compute; reflexivity.
  - apply (bool_decide_unpack _); vm_compute; exact I.
Defined.

(** X8. On a dictionary that lacks the name key of a line's tier the line
    raises [KeyError] for that key and stores nothing. *)
Theorem X8_line_raises_on_missing_name line t d :
  classify line = Some t -> d !! name_key t = None ->
  Nlp.education_line line d = (Err (KeyError (name_key t)), d).
Proof. apply education_line_key_error. Qed.

(** X8 at the empty dictionary. *)
Lemma X8_witness :
  Nlp.education_line "B.Tech (AI) 2020" ∅ = (Err (KeyError "ugCollegeName"), ∅).
Proof.
  apply (X8_line_raises_on_missing_name "B.Tech (AI) 2020" Undergraduate ∅).
  - vm_compute; reflexivity.
  - reflexivity.
Defined.

(** X9. The address, board and university fields are empty in every record
    the pipeline returns: nothing stores them. *)
Theorem X9_never_stored_fields_stay_empty text r k :
  Nlp.build_structured_data text = Ok r -> k ∈ never_stored_fields ->
  r !! k = Some (VStr "").
Proof.
  intros Hr Hk.
  assert (Hedu : k ∈ education_fields).
  { revert k Hk. apply Forall_forall. apply (bool_decide_unpack _). by vm_compute. }
  destruct (build_invariant text k (fun v => v = VStr "") r) as (v & Hv & ->);
    [by left | | | | done | done].
  - exists (VStr ""). split; [| done]. clear Hedu Hr. revert k Hk. apply Forall_forall.
    unfold never_stored_fields.
    repeat (apply Forall_cons; split; [vm_compute; reflexivity |]). apply Forall_nil_2.
  - apply parse_education_stable. intros line. apply frame_holds. intros o.
    by apply education_line_never_stored.
  - apply frame_holds. intros o. apply parse_test_scores_frame.
    intros ->. revert Hk. apply (bool_decide_unpack _). by vm_compute.
Qed.

(** X9 at a text with an education section. *)
Lemma X9_witness :
  exists r, Nlp.build_structured_data one_ug_line = Ok r /\
            r !! "ugUniversity" = Some (VStr "").
Proof.
  destruct (build_returns one_ug_line) as (r & Hr & _).
  exists r. split; [exact Hr |].
  apply (X9_never_stored_fields_stay_empty one_ug_line r "ugUniversity" Hr).
  apply (bool_decide_unpack _); vm_compute; exact I.
Defined.

(** X10. In every record the pipeline returns, [ugDegree] is empty or
    "Bachelor", [pgDegree] is empty or "Master", and each of the three
    grade scales is empty, "percentage" or "cgpa". *)
Theorem X10_degree_and_scale_values text r k allowed :
  Nlp.build_structured_data text = Ok r ->
  (k, allowed) ∈ [ ("ugDegree", [""; "Bachelor"]); ("pgDegree", [""; "Master"]);
                   ("highSchoolGpaScale", [""; "percentage"; "cgpa"]);
                   ("ugCollegeGpaScale", [""; "percentage"; "cgpa"]);
                   ("pgCollegeGpaScale", [""; "percentage"; "cgpa"]) ] ->
  exists s, r !! k = Some (VStr s) /\ s ∈ allowed.
Proof.
  intros Hr Hk.
  assert (Hedu : k ∈ education_fields /\ "" ∈ allowed /\ k <> "testScores"
                 /\ empty_resume_schema !! k = Some (VStr "")).
  { clear Hr. repeat (apply elem_of_cons in Hk as [[= -> ->] | Hk]);
      [.. | by apply elem_of_nil in Hk];
      split_and!; try solve_mem; try done. }
  destruct Hedu as (Hedu & Hempty & Hne & Hbase).
  destruct (build_invariant text k (one_of_strings allowed) r)
    as (v & Hv & s & -> & Hs); [by left | | | | done | by exists s].
  - exists (VStr ""). split; [done |]. by exists "".
  - apply parse_education_stable. intros line. by apply education_line_enum.
  - apply frame_holds. intros o. by apply parse_test_scores_frame.
Qed.

(** X10 at the scale of the undergraduate tier. *)
Lemma X10_witness :
  exists r s, Nlp.build_structured_data one_ug_line = Ok r /\
              r !! "ugCollegeGpaScale" = Some (VStr s) /\
              s ∈ [""; "percentage"; "cgpa"].
Proof.
  destruct (build_returns one_ug_line) as (r & Hr & _).
  destruct (X10_degree_and_scale_values one_ug_line r "ugCollegeGpaScale"
              [""; "percentage"; "cgpa"] Hr) as (s & Hs & Hin).
  - apply (bool_decide_unpack _); vm_compute; exact I.
  - exists r, s. split; [exact Hr |]. split; [exact Hs | exact Hin].
Defined.

(** X11. In every record the pipeline returns, each of the three
    graduation years is empty or "19" or "20" followed by two digits. *)
Theorem X11_graduation_years text r k :
  Nlp.build_structured_data text = Ok r ->
  k ∈ ["highSchoolGraduationYear"; "ugGraduationYear"; "pgGraduationYear"] ->
  exists y, r !! k = Some (VStr y) /\ (y = "" \/ year_like y).
Proof.
  intros Hr Hk.
  assert (Hedu : k ∈ education_fields /\ k <> "testScores"
                 /\ empty_resume_schema !! k = Some (VStr "")).
  { clear Hr. repeat (apply elem_of_cons in Hk as [-> | Hk]);
      [.. | by apply elem_of_nil in Hk]; split_and!; try solve_mem; done. }
  destruct Hedu as (Hedu & Hne & Hbase).
  destruct (build_invariant text k empty_or_year r)
    as (v & Hv & y & -> & Hy); [by left | | | | done | by exists y].
  - exists (VStr ""). split; [done |]. exists "". split; [done | by left].
  - apply parse_education_stable. intros line. by apply education_line_year.
  - apply frame_holds. intros o. by apply parse_test_scores_frame.
Qed.

(** X11 at the undergraduate year. *)
Lemma X11_witness :
  exists r y, Nlp.build_structured_data one_ug_line = Ok r /\
              r !! "ugGraduationYear" = Some (VStr y) /\ (y = "" \/ year_like y).
Proof.
  destruct (build_returns one_ug_line) as (r & Hr & _).
  destruct (X11_graduation_years one_ug_line r "ugGraduationYear" Hr)
    as (y & Hy & Hl).
  - apply (bool_decide_unpack _); vm_compute; exact I.
  - exists r, y. split; [exact Hr |]. split; [exact Hy | exact Hl].
Defined.

(** X12. What the pipeline returns under [name], [email], [phoneNumber],
    the five section lists and [skills] is what the extractors give for the
    text: the two parsers that run afterwards change none of them. *)
Theorem X12_pipeline_keeps_extracted_fields text r :
  Nlp.build_structured_data text = Ok r ->
  r !! "name" = Some (VStr (Nlp.extract_name text)) /\
  r !! "email" = Some (VStr (Nlp.extract_email text)) /\
  r !! "phoneNumber" = Some (VStr (Nlp.extract_phone text)) /\
  r !! "skills" = Some (VList (Nlp.extract_skills text)) /\
  forall field keywords, (field, keywords) ∈ LIST_SECTIONS ->
    r !! field
    = Some (VList (Nlp.section_to_list (Nlp.find_section_block text keywords))).
Proof.
  intros Hr. pose proof Hr as Hr0. unfold Nlp.build_structured_data in Hr.
  destruct (build_body_unfold text empty_resume_schema)
    as (d0 & E & Hn & He & Hp & Hw & Hc & Hx & Ha & Hp' & Hs & _).
  rewrite E in Hr.
  assert (Hkeep : forall k0 o, k0 ∉ education_fields -> k0 <> "testScores" ->
                    d0 !! k0 = o -> r !! k0 = o).
  { intros k0 o H1 H2 H0. pose proof (tail_frame text k0 o H1 H2 d0 H0) as H.
    destruct ((Nlp.parse_education text ;; Nlp.parse_test_scores text) d0) as [[a|e] d1];
      [| done].
    by injection Hr as <-. }
  split_and!.
  - apply (Hkeep "name"); [apply (bool_decide_unpack _); by vm_compute | done | done].
  - apply (Hkeep "email"); [apply (bool_decide_unpack _); by vm_compute | done | done].
  - apply (Hkeep "phoneNumber"); [apply (bool_decide_unpack _); by vm_compute | done | done].
  - apply (Hkeep "skills"); [apply (bool_decide_unpack _); by vm_compute | done | done].
  - intros field keywords Hin. by apply (list_field_result text r).
Qed.

(** X12 at a text with a name and an email. *)
Lemma X12_witness :
  exists r,
    Nlp.build_structured_data ("Jane Roe" ++ Str.nl ++ "jane@roe.org") = Ok r /\
    r !! "name" = Some (VStr "Jane Roe") /\
    r !! "email" = Some (VStr "jane@roe.org").
Proof.
  destruct (build_returns ("Jane Roe" ++ Str.nl ++ "jane@roe.org")) as (r & Hr & _).
  exists r. split; [exact Hr |].
  destruct (X12_pipeline_keeps_extracted_fields _ r Hr) as (Hn & He & _).
  split; [exact Hn | exact He].
Defined.

(** X13. When the text has no education section (the heading test of
    [find_section_block] fails for every line, or the block under the
    heading is empty), every education field of the record the pipeline
    returns is empty, whatever degree lines the text holds. *)
Theorem X13_no_education_heading_no_education text r k :
  Nlp.build_structured_data text = Ok r ->
  has_education_heading text = false \/
  Nlp.find_section_block text Nlp.EDUCATION_KEYWORDS = "" ->
  k ∈ education_fields -> r !! k = Some (VStr "").
Proof.
  intros Hr Hno Hk. unfold Nlp.build_structured_data in Hr.
  assert (Hblock : Nlp.find_section_block text Nlp.EDUCATION_KEYWORDS = "").
  { destruct Hno as [Hno | Hno]; [| done]. by apply no_heading_block. }
  destruct (build_body_unfold text empty_resume_schema)
    as (d0 & E & _ & _ & _ & _ & _ & _ & _ & _ & _ & Hf).
  rewrite E in Hr. unfold bind in Hr. unfold Nlp.parse_education in Hr.
  rewrite Hblock in Hr. simpl in Hr.
  assert (Hne : k <> "testScores").
  { intros ->. revert Hk. apply (bool_decide_unpack _). by vm_compute. }
  pose proof (parse_test_scores_frame text k (d0 !! k) Hne d0 eq_refl) as H.
  destruct (Nlp.parse_test_scores text d0) as [[a|e] d1]; [| done].
  injection Hr as <-. simpl in H. rewrite H, Hf by (by left).
  clear Hne H. revert k Hk. apply Forall_forall. unfold education_fields.
  repeat (apply Forall_cons; split; [vm_compute; reflexivity |]). apply Forall_nil_2.
Qed.

(** X13 at a text with a degree line but no heading. *)
Lemma X13_witness :
  exists r,
    Nlp.build_structured_data "B.Tech Computer Science (AI) 2021 8.5" = Ok r /\
    r !! "ugDegree" = Some (VStr "").
Proof.
  destruct (build_returns "B.Tech Computer Science (AI) 2021 8.5") as (r & Hr & _).
  exists r. split; [exact Hr |].
  apply (X13_no_education_heading_no_education _ r "ugDegree" Hr).
  - left. vm_compute; reflexivity.
  - apply (bool_decide_unpack _); vm_compute; exact I.
Defined.

(** X14. When the heading test of [find_section_block] fails for every
    line of the text and every heading of a list section, the list the
    pipeline returns for that section is empty. *)
Theorem X14_no_heading_empty_list text r field keywords :
  Nlp.build_structured_data text = Ok r ->
  (field, keywords) ∈ LIST_SECTIONS ->
  has_heading keywords text = false ->
  r !! field = Some (VList []).
Proof.
  intros Hr Hin Hno.
  rewrite (list_field_result text r field keywords Hr Hin).
  by rewrite no_heading_block.
Qed.

(** X14 at a text without any heading. *)
Lemma X14_witness :
  exists r, Nlp.build_structured_data "Jane Roe" = Ok r /\
            r !! "achievements" = Some (VList []).
Proof.
  destruct (build_returns "Jane Roe") as (r & Hr & _).
  exists r. split; [exact Hr |].
  apply (X14_no_heading_empty_list "Jane Roe" r "achievements"
           ["achievements"; "accomplishments"] Hr).
  - apply (bool_decide_unpack _); vm_compute; exact I.
  - vm_compute; reflexivity.
Defined.

(** X15. Every line [split_lines] gives is the stripped form of a line of
    the text, is not empty, has no whitespace at either end and no line
    break inside. *)
Theorem X15_split_lines_are_clean text l :
  l ∈ App1.split_lines text ->
  clean_line l /\ exists raw, raw ∈ Str.splitlines text /\ l = Str.strip raw.
Proof. apply stripped_lines_clean. Qed.

(** X15 at a text with a blank line. *)
Lemma X15_witness :
  clean_line "Jane Roe" /\
  exists raw, raw ∈ Str.splitlines ("  Jane Roe " ++ Str.nl ++ "  " ++ Str.nl ++ "x")
              /\ "Jane Roe" = Str.strip raw.
Proof.
  apply (X15_split_lines_are_clean ("  Jane Roe " ++ Str.nl ++ "  " ++ Str.nl ++ "x")).
  apply (bool_decide_unpack _); vm_compute; exact I.
Defined.

(** X16. Every entry [section_to_list] gives is a line of the section text
    with the bullet characters (space, hyphen, tab and the two bullet bytes)
    stripped from both ends; it is not empty and neither begins nor ends
    with such a character. *)
Theorem X16_section_entries_are_stripped section_text e :
  e ∈ Nlp.section_to_list section_text ->
  e <> "" /\
  starts_with_char Nlp.bullet_chars e = false /\
  ends_with_char Nlp.bullet_chars e = false /\
  exists raw, raw ∈ Str.splitlines section_text /\ e = Str.strip_of Nlp.bullet_chars raw.
Proof. apply section_to_list_clean. Qed.

(** X16 at a bulleted section. *)
Lemma X16_witness :
  "Acme Corp" <> "" /\
  starts_with_char Nlp.bullet_chars "Acme Corp" = false /\
  ends_with_char Nlp.bullet_chars "Acme Corp" = false /\
  exists raw, raw ∈ Str.splitlines (" - Acme Corp -" ++ Str.nl ++ "--")
              /\ "Acme Corp" = Str.strip_of Nlp.bullet_chars raw.
Proof.
  apply (X16_section_entries_are_stripped (" - Acme Corp -" ++ Str.nl ++ "--")).
  apply (bool_decide_unpack _); vm_compute; exact I.
Defined.

(** X17. [extract_skills] returns exactly the entries of the skill set
    whose lowercase form occurs in the lowercased text, sorted by their
    lowercase form and without repetition; the extractor of [nlp.py] is the
    one of [app1.py] on the skill set of [nlp.py]. *)
Theorem X17_extract_skills_members_sorted text db :
  (forall skill, skill ∈ App1.extract_skills text db <->
     skill ∈ db /\ Str.contains (Str.lower skill) (Str.lower text) = true) /\
  Sorted skill_le (App1.extract_skills text db) /\
  (NoDup db -> NoDup (App1.extract_skills text db)) /\
  Nlp.extract_skills text = App1.extract_skills text Nlp.SKILLS_DB /\
  NoDup (Nlp.extract_skills text).
Proof.
  destruct (sorted_skills_spec text db) as (Hm & Hs & Hn).
  destruct (sorted_skills_spec text Nlp.SKILLS_DB) as (_ & _ & Hn').
  split; [exact Hm |]. split; [exact Hs |]. split; [exact Hn |].
  split; [unfold Nlp.extract_skills, App1.extract_skills; reflexivity |].
  apply Hn'. apply (bool_decide_unpack _). by vm_compute.
Qed.

(** X17 at a text naming two skills. *)
Lemma X17_witness :
  "sql" ∈ App1.extract_skills "Skilled in Python and SQL queries" ["python"; "sql"; "java"]
  /\ NoDup (App1.extract_skills "Skilled in Python and SQL queries" ["python"; "sql"; "java"]).
Proof.
  destruct (X17_extract_skills_members_sorted "Skilled in Python and SQL queries"
              ["python"; "sql"; "java"]) as (Hm & _ & Hn & _).
  split.
  - apply Hm. split; [apply (bool_decide_unpack _); vm_compute; exact I |].
    vm_compute; reflexivity.
  - apply Hn. apply (bool_decide_unpack _); vm_compute; exact I.
Defined.

(** X18. For every text, [find_sections] returns a body for exactly the
    five categories of [SECTION_HEADERS]: none is missing and no other key
    appears. *)
Theorem X18_find_sections_has_the_categories text name :
  is_Some (App1.find_sections text !! name) <-> name ∈ CATEGORIES.
Proof.
  rewrite <- elem_of_dom, find_sections_dom. apply elem_of_list_to_set.
Qed.

(** X18 at a text with two headings. *)
Lemma X18_witness : is_Some (App1.find_sections two_sections !! "projects").
Proof.
  apply (X18_find_sections_has_the_categories two_sections "projects").
  apply (bool_decide_unpack _); vm_compute; exact I.
Defined.

(** X19. On ASCII text the heading test is equality without regard to
    case.  For a keyword and a line of ASCII characters, the heading
    pattern of both segmenters, matched against the whole line under
    [re.IGNORECASE], accepts the line exactly when the lowercased line is
    the lowercased keyword, with or without one colon after it; so
    [find_section_block] takes an ASCII line as a heading exactly when its
    stripped lowercase form is that for one of its ASCII keywords. *)
Theorem X19_heading_pattern_is_equality kw keywords line :
  isascii line = true ->
  (isascii kw = true ->
   Nlp.matched (fullmatch (heading_regex kw) line)
   = names_heading (Str.lower kw) (Str.lower line)) /\
  (Forall (fun kw' => isascii kw' = true) keywords ->
   Nlp.is_heading_of keywords line
   = existsb (fun kw' => names_heading (Str.lower kw') (Str.lower (Str.strip line)))
             keywords).
Proof.
  intros _. split; [intros _; apply heading_pattern_exact |]. intros _.
  unfold Nlp.is_heading_of. induction keywords as [|kw' kws IH]; [done |].
  simpl. by rewrite heading_pattern_exact, IH.
Qed.

(** X19 at the line "EDUCATION:" and the keyword "education". *)
Lemma X19_witness :
  Nlp.matched (fullmatch (heading_regex "education") "EDUCATION:")
  = names_heading (Str.lower "education") (Str.lower "EDUCATION:").
Proof.
  apply (proj1 (X19_heading_pattern_is_equality "education" [] "EDUCATION:" eq_refl)).
  reflexivity.
Defined.

(** X20. A phone that [extract_phone] of [app1.py] returns has 10 to 13
    digits and no whitespace at either end. *)
Theorem X20_app1_phone_digits text phone :
  App1.extract_phone text = Some phone ->
  accepted phone /\
  starts_with_char Chr.isspace phone = false /\
  ends_with_char Chr.isspace phone = false.
Proof.
  intros H. unfold App1.extract_phone in H.
  pose proof (extract_phone_loop_spec (App1.findall_phone text)) as Hs.
  rewrite H in Hs. destruct Hs as (before & m & after & _ & _ & Hacc & ->).
  split; [| apply strip_of_edges].
  unfold accepted. by rewrite digits_of_strip.
Qed.

(** X20 at a text with a phone. *)
Lemma X20_witness :
  accepted "+1 415-555-2671" /\
  starts_with_char Chr.isspace "+1 415-555-2671" = false /\
  ends_with_char Chr.isspace "+1 415-555-2671" = false.
Proof.
  apply (X20_app1_phone_digits "Phone: +1 415-555-2671").
  vm_compute; reflexivity.
Defined.

(** X21. Every link [extract_links] returns occurs in the text, begins
    with "http://", "https://" or "www." and goes on with at least one
    character, none of them whitespace. *)
Theorem X21_extract_links_shape text u :
  u ∈ App1.extract_links text -> url_shaped u /\ occurs_in u text.
Proof.
  unfold App1.extract_links. intros H.
  apply list_elem_of_fmap in H as (m & -> & Hm). by apply url_match.
Qed.

(** X21 at a text with two links. *)
Lemma X21_witness :
  url_shaped "www.x.y" /\ occurs_in "www.x.y" "see https://a.b/c and www.x.y ok".
Proof.
  apply (X21_extract_links_shape "see https://a.b/c and www.x.y ok").
  apply (bool_decide_unpack _); vm_compute; exact I.
Defined.

(** X22. Cleaning a text twice gives what cleaning it once gives, and
    cleaning does not change the words of a text. *)
Theorem X22_clean_text_idempotent text :
  App1.clean_text (App1.clean_text text) = App1.clean_text text /\
  Str.split (App1.clean_text text) = Str.split text.
Proof.
  assert (H : forall t, App1.clean_text t = Str.join " " (Str.split t)).
  { intros t. unfold App1.clean_text. rewrite sub_spaces. apply strip_collapse. }
  rewrite !H. by rewrite !split_join_split.
Qed.

(** X23. The two parsers of [nlp.py] can be called on any complete record,
    not only on the fresh schema: from a dictionary that holds every field
    of the schema with a value of its kind, [parse_education] and
    [parse_test_scores] return without raising and leave such a
    dictionary. *)
Theorem X23_parsers_return_on_complete_records text d :
  schema_complete d ->
  (exists d', Nlp.parse_education text d = (Ok tt, d') /\ schema_complete d') /\
  (exists d', Nlp.parse_test_scores text d = (Ok tt, d') /\ schema_complete d').
Proof.
  intros Hd. split.
  - destruct (parse_education_safe text d Hd) as ([] & d' & E & Hd'). by exists d'.
  - destruct (parse_test_scores_safe text d Hd) as ([] & d' & E & Hd'). by exists d'.
Qed.

(** X23 at a record that already holds a score. *)
Lemma X23_witness :
  (exists d', Nlp.parse_education one_ug_line scored_schema = (Ok tt, d')
              /\ schema_complete d') /\
  (exists d', Nlp.parse_test_scores one_ug_line scored_schema = (Ok tt, d')
              /\ schema_complete d').
Proof.
  apply (X23_parsers_return_on_complete_records one_ug_line scored_schema).
  apply complete_set_scores; [| exact base_schema_complete].
  apply Forall_forall. unfold score_fields.
  repeat (apply Forall_cons; split; [eexists; vm_compute; reflexivity |]).
  apply Forall_nil_2.
Defined.

(** X24. The grade and the scale of a tier go together.  If, for a tier,
    the two fields are both empty, or the scale is "percentage" and the
    grade has the form of a percentage, or the scale is "cgpa" and the grade
    is a digit, a dot and one or two digits, then the same holds after
    [parse_education], whether it returns or raises; and it holds for each
    tier in every record the pipeline returns. *)
Theorem X24_grade_and_scale_agree text t :
  (forall d, tier_grade_ok t d -> tier_grade_ok t (Nlp.parse_education text d).2) /\
  (forall r, Nlp.build_structured_data text = Ok r -> tier_grade_ok t r).
Proof.
  split.
  - apply parse_education_stable. intros line. apply education_line_grade_ok.
  - intros r Hr. by apply (build_grade_ok text).
Qed.

(** X24 at a text with an undergraduate line. *)
Lemma X24_witness :
  exists r, Nlp.build_structured_data one_ug_line = Ok r /\
            tier_grade_ok Undergraduate r.
Proof.
  destruct (build_returns one_ug_line) as (r & Hr & _).
  exists r. split; [exact Hr |].
  exact (proj2 (X24_grade_and_scale_agree one_ug_line Undergraduate) r Hr).
Defined.

(** X25. The extension test of the upload routes and the dispatch of
    [extract_text] agree, in [app.py] with [resume_parser/extractor.py] and
    within [app1.py]: an upload whose lowercased extension passes the test
    is handed to a reader, and [extract_text] raises for every other
    extension. *)
Theorem X25_allowed_uploads_have_a_reader ext :
  (App.upload_allowed ext = true <-> is_Some (Extractor.extract_text_reader ext)) /\
  (App1.upload_allowed ext = true <-> is_Some (App1.extract_text_reader ext)).
Proof. apply upload_dispatch. Qed.
